(** * Hue agent: prompt-context assembly and the chat relay pipeline

    A shallow embedding of the TypeScript sources of the Hue agent and the
    properties of its specification that can be stated over it.  The
    modules below follow the source files:
    - [Persona]: persona.ts ([buildMemoryContext], [formatResponse],
      [errorResponses]);
    - [Supabase]: the two tables that supabase.ts declares in
      [initializeDatabase] and the queries memory.ts sends to them;
    - [MemoryTs]: memory.ts ([logConversation], [recallRecentConversations],
      [storeMemory], [recallAllMemories]);
    - [Ollama]: utils/ollama.ts ([ollamaRequest], [ollamaStream],
      [checkOllamaStatus]);
    - [Server]: server.ts (POST /chat, GET and POST /memories/:userId).
    - [MemoryRest]: memory.ts ([recallMemory], [deleteMemory],
      [getConversationStats]);
    - [OllamaRest]: utils/ollama.ts ([pullModel]);
    - [ServerRest]: server.ts (GET /health and the endpoints that wrap one
      function);
    - [Cli]: cli.ts ([chatWithServer], [chatDirect] and one turn of
      [main]).

    Conventions of the embedding.
    - A JavaScript string is a [string]: the sequence of its code units,
      each below 256 (the Latin-1 range); texts with other code units are
      outside the model.  The white space that [String.prototype.trim]
      removes is, in this range, TAB, LF, VT, FF, CR, SPACE and the
      no-break space U+00A0; the letters [toLowerCase] changes are A-Z and
      the capital letters U+00C0-U+00DE other than the sign U+00D7.
    - An array is a [list]; an absent / [undefined] / [null] field of a
      request body is [None], a present one is a string.
    - UUIDs and timestamps are natural numbers; a generated [id] is new.
    - Code that talks to the outside (the Ollama HTTP API, the Supabase
      tables, the HTTP response object) runs in a small state-and-exception
      monad over the database and the trace of what the request did; the
      behaviour of the outside is a parameter, the [World]. *)

From Stdlib Require Import String Ascii List ZArith Lia Bool Arith PeanoNat.
From Stdlib Require Import DecimalString.
Import ListNotations.
Local Open Scope list_scope.
Local Open Scope string_scope.

(* ------------------------------------------------------------------ *)
(** ** The pieces of ECMAScript the sources use *)

Module JS.

Definition LF : ascii := Ascii.ascii_of_nat 10.
Definition nl : string := String LF EmptyString.

(** [WhiteSpace] and [LineTerminator] code units below 256: TAB, LF, VT,
    FF, CR, SPACE and NBSP (U+00A0). *)
Definition is_white_space (c : ascii) : bool :=
  let n := nat_of_ascii c in
  (((9 <=? n) && (n <=? 13)) || (n =? 32) || (n =? 160))%nat.

Fixpoint trimStart (s : string) : string :=
  match s with
  | EmptyString => EmptyString
  | String c s' => if is_white_space c then trimStart s' else s
  end.

Fixpoint trimEnd (s : string) : string :=
  match s with
  | EmptyString => EmptyString
  | String c s' =>
      match trimEnd s' with
      | EmptyString =>
          if is_white_space c then EmptyString else String c EmptyString
      | t => String c t
      end
  end.

(** [s.trim()] *)
Definition trim (s : string) : string := trimEnd (trimStart s).

(** [s.toLowerCase()] on code units below 256: A-Z, and the capital
    letters U+00C0-U+00D6 and U+00D8-U+00DE, move up by 32. *)
Definition lower (c : ascii) : ascii :=
  let n := nat_of_ascii c in
  if (((65 <=? n) && (n <=? 90)) || ((192 <=? n) && (n <=? 214))
      || ((216 <=? n) && (n <=? 222)))%nat
  then Ascii.ascii_of_nat (n + 32)
  else c.

Fixpoint toLowerCase (s : string) : string :=
  match s with
  | EmptyString => EmptyString
  | String c s' => String (lower c) (toLowerCase s')
  end.

(** A string in a boolean position: only the empty string is falsy. *)
Definition truthy (s : string) : bool :=
  match s with EmptyString => false | String _ _ => true end.

(** A possibly absent string in a boolean position ([!message]). *)
Definition falsy (o : option string) : bool :=
  match o with
  | None => true
  | Some s => negb (truthy s)
  end.

(** A possibly absent string where a string is used ([`${message}`]). *)
Definition text (o : option string) : string :=
  match o with
  | None => "undefined"
  | Some s => s
  end.

(** [s.split('\n')]: never empty, the pieces between line feeds. *)
Fixpoint split_lf (s : string) : list string :=
  match s with
  | EmptyString => [EmptyString]
  | String c s' =>
      if Ascii.eqb c LF then EmptyString :: split_lf s'
      else match split_lf s' with
           | l :: ls => String c l :: ls
           | [] => [String c EmptyString]
           end
  end.

(** [`${n}`] for a non-negative integer. *)
Definition toString (n : nat) : string :=
  NilEmpty.string_of_uint (Nat.to_uint n).

(** [a.slice(start)]: a negative [start] counts from the end. *)
Definition slice {A : Type} (start : Z) (a : list A) : list A :=
  let len := Z.of_nat (length a) in
  let k := if (start <? 0)%Z then Z.max (len + start) 0
           else Z.min start len in
  skipn (Z.to_nat k) a.

(** [a.forEach((x, index) => ...)] where the callback updates a variable
    of the enclosing scope, here the threaded [s]. *)
Fixpoint forEach_from {A St : Type} (index : nat)
    (f : A -> nat -> St -> St) (a : list A) (s : St) : St :=
  match a with
  | [] => s
  | x :: a' => forEach_from (S index) f a' (f x index s)
  end.

Definition forEach {A St : Type} (f : A -> nat -> St -> St)
    (a : list A) (s : St) : St :=
  forEach_from 0 f a s.

(** [a.join(sep)] *)
Definition join (sep : string) (a : list string) : string :=
  String.concat sep a.

(** [s.includes(p)] *)
Fixpoint includes (s p : string) : bool :=
  String.prefix p s ||
  match s with
  | EmptyString => false
  | String _ s' => includes s' p
  end.

End JS.

(* ------------------------------------------------------------------ *)
(** ** supabase.ts: the rows of the two tables *)

Module Conversation.
Record t := mk {
  id : nat;
  user_id : string;
  message : string;
  response : string;
  created_at : nat;
  metadata : list (string * string)
}.
End Conversation.

Module Memory.
Record t := mk {
  id : nat;
  user_id : string;
  key : string;
  value : string;
  created_at : nat;
  updated_at : nat
}.
End Memory.

(* ------------------------------------------------------------------ *)
(** ** persona.ts *)

Module Persona.
Import JS.

Definition systemPrompt : string :=
  "You are Hue, a helpful AI assistant with persistent memory. You have the ability to remember past conversations and interactions with users." ++ nl ++
  nl ++
  "Key traits:" ++ nl ++
  "- Friendly and conversational" ++ nl ++
  "- Remembers context from previous conversations" ++ nl ++
  "- Provides helpful, accurate information" ++ nl ++
  "- Maintains a consistent personality" ++ nl ++
  "- Uses memory to provide more personalized responses" ++ nl ++
  nl ++
  "When responding:" ++ nl ++
  "- Reference past conversations when relevant" ++ nl ++
  "- Build on previous context" ++ nl ++
  "- Be warm and engaging" ++ nl ++
  "- Provide thoughtful, well-reasoned answers" ++ nl ++
  "- Ask clarifying questions when needed" ++ nl ++
  nl ++
  "You have access to conversation history and can recall previous interactions to provide more contextual and personalized responses.".

(** The two steps of the callback of the history loop. *)
Definition add_conversation (conv : Conversation.t) (index : nat)
    (context : string) : string :=
  let context :=
    context ++ toString (index + 1) ++ ". User: "
            ++ Conversation.message conv ++ nl in
  context ++ "   Hue: " ++ Conversation.response conv ++ nl.

Definition add_memory (memory : Memory.t) (_ : nat)
    (context : string) : string :=
  context ++ "- " ++ Memory.key memory ++ ": " ++ Memory.value memory ++ nl.

Definition buildMemoryContext (userId : string)
    (recentConversations : list Conversation.t)
    (userMemories : list Memory.t) : string :=
  let context := "" in
  let context :=
    if (0 <? length recentConversations)%nat then
      let context :=
        context ++ nl ++ nl ++ "Recent conversation history:" ++ nl in
      forEach add_conversation (slice (-5) recentConversations) context
    else context in
  let context :=
    if (0 <? length userMemories)%nat then
      let context :=
        context ++ nl ++ nl ++ "User preferences and memories:" ++ nl in
      forEach add_memory userMemories context
    else context in
  context.

Definition formatResponse (response : string) (includePersonality : bool)
    : string :=
  if negb includePersonality then response
  else trim response.

Definition modelError : string :=
  "I'm experiencing some technical difficulties. Please try again in a moment.".

End Persona.

(* ------------------------------------------------------------------ *)
(** ** The outside: tables, HTTP response, Ollama, and the monad *)

(** The body of a JSON response sent by a handler. *)
Inductive body :=
| ErrorBody (error : string) (details : option string)
| ChatBody (response conversationId : string) (timestamp : nat)
| MemoriesBody (memories : list Memory.t)
| MemoryBody (memory : option Memory.t).

(** Everything a request does that can be observed from outside the
    process, in the order it happens.  Console output is not modelled. *)
Inductive event :=
| ResStatus (code : nat)
| ResJson (b : body)
| ResSetHeader (name value : string)
| ResWrite (chunk : string)
| ResEnd
| FetchTags
| FetchGenerate (prompt : string) (stream : bool)
| SelectConversations (userId : string) (limit : nat)
| SelectMemories (userId : string)
| InsertConversation (userId message response : string)
| UpsertMemory (userId key value : string).

(** The database behind the Supabase client, as [initializeDatabase]
    declares it, and the clock read by [NOW()] and [new Date()]. *)
Record Db := mkDb {
  conversations : list Conversation.t;
  memories : list Memory.t;
  next_id : nat;
  clock : nat
}.

Record St := mkSt { db : Db; trace : list event }.

(** How one call to the store goes wrong, if it does: the reply carries
    an [error], or the awaited call itself rejects. *)
Inductive fault :=
| Healthy
| ReplyError (e : string)
| CallThrows (e : string).

(** The [{ data, error }] of a Supabase reply. *)
Record reply (A : Type) := mkReply { data : option A; error : option string }.
Arguments mkReply {A} _ _.
Arguments data {A} _.
Arguments error {A} _.

(** An awaited call resolves to a value or rejects; a block returns or
    throws. *)
Inductive outcome (A : Type) :=
| Ok (a : A)
| Thrown (e : string).
Arguments Ok {A} _.
Arguments Thrown {A} _.

(** GET /api/tags: [fetch] rejects, or answers with [response.ok], a
    status line and a body.  [response.json()] rejects or gives an object
    whose [models] is absent or the list of the model names. *)
Inductive tags_reply :=
| TagsFetchThrows (e : string)
| TagsResponse (ok : bool) (status_line : string)
    (json : outcome (option (list string))).

(** POST /api/generate with [stream: false]; [response.json()] rejects or
    gives an object with its [response]. *)
Inductive generate_reply :=
| GenFetchThrows (e : string)
| GenResponse (ok : bool) (status_line : string) (json : outcome string).

(** POST /api/generate with [stream: true]: the decoded values of the
    successive [reader.read()] calls, ended by [done] or by a rejection;
    no body at all when [response.body] is absent. *)
Inductive read_end := ReadDone | ReadThrows (e : string).

Inductive stream_reply :=
| StreamFetchThrows (e : string)
| StreamResponse (ok : bool) (status_line : string)
    (body : option (list string * read_end)).

(** One parsed line of the stream (utils/ollama.ts). *)
Module OllamaStreamResponse.
Record t := mk { response : string; done : bool }.
End OllamaStreamResponse.

Record World := mkWorld {
  OLLAMA_MODEL : string;
  api_tags : tags_reply;
  api_generate : string -> generate_reply;
  api_generate_stream : string -> stream_reply;
  (** [JSON.parse] of one line of the stream followed by the reads of
      [data.response] and [data.done]; [None] when that throws. *)
  JSON_parse : string -> option OllamaStreamResponse.t;
  select_conversations_fault : fault;
  select_memories_fault : fault;
  insert_conversation_fault : fault;
  upsert_memory_fault : fault
}.

Definition M (A : Type) : Type := St -> outcome A * St.

Definition ret {A} (a : A) : M A := fun st => (Ok a, st).

Definition bind {A B} (c : M A) (k : A -> M B) : M B :=
  fun st =>
    match c st with
    | (Ok a, st') => k a st'
    | (Thrown e, st') => (Thrown e, st')
    end.

Definition throw {A} (e : string) : M A := fun st => (Thrown e, st).

(** [try { c } catch (error) { h error }] *)
Definition try_catch {A} (c : M A) (h : string -> M A) : M A :=
  fun st =>
    match c st with
    | (Ok a, st') => (Ok a, st')
    | (Thrown e, st') => h e st'
    end.

Definition emit (ev : event) : M unit :=
  fun st => (Ok tt, mkSt (db st) (trace st ++ [ev])).

Definition get_db : M Db := fun st => (Ok (db st), st).
Definition put_db (d : Db) : M unit := fun st => (Ok tt, mkSt d (trace st)).

(** Reading the time advances it. *)
Definition now : M nat :=
  fun st =>
    let d := db st in
    (Ok (clock d),
     mkSt (mkDb (conversations d) (memories d) (next_id d) (S (clock d)))
          (trace st)).

Declare Scope monad_scope.
Delimit Scope monad_scope with monad.
Notation "x <- c1 ;; c2" := (bind c1 (fun x => c2))
  (at level 61, c1 at next level, right associativity) : monad_scope.
Notation "c1 ;; c2" := (bind c1 (fun _ => c2))
  (at level 61, right associativity) : monad_scope.
Local Open Scope monad_scope.

(* ------------------------------------------------------------------ *)
(** ** The Supabase tables (supabase.ts, [initializeDatabase])

    conversations: [id] primary key with a generated default, [created_at]
    defaulting to [NOW()].
    memories: the same, and [UNIQUE(user_id, key)]. *)

Module Supabase.

(** [ORDER BY k DESC]; rows with equal keys keep their table order. *)
Fixpoint insert_desc {A} (k : A -> nat) (x : A) (l : list A) : list A :=
  match l with
  | [] => [x]
  | y :: l' => if (k y <=? k x)%nat then x :: l else y :: insert_desc k x l'
  end.

Definition order_desc {A} (k : A -> nat) (l : list A) : list A :=
  fold_right (insert_desc k) [] l.

(** A store call under a fault: the request is recorded, then the call
    rejects, or the reply carries an error, or [run] is performed.  A call
    that goes wrong leaves the tables as they are. *)
Definition call {A} (f : fault) (ev : event) (run : M A) : M (reply A) :=
  emit ev ;;
  match f with
  | CallThrows e => throw e
  | ReplyError e => ret (mkReply None (Some e))
  | Healthy => a <- run ;; ret (mkReply (Some a) None)
  end.

Section Queries.
Variable W : World.

(** [from('conversations').insert({...}).select().single()] *)
Definition insert_conversation (user_id message response : string)
    (metadata : list (string * string)) : M (reply Conversation.t) :=
  call (insert_conversation_fault W)
    (InsertConversation user_id message response)
    (created_at <- now ;;
     d <- get_db ;;
     let row := Conversation.mk (next_id d) user_id message response
                  created_at metadata in
     put_db (mkDb (conversations d ++ [row]) (memories d)
                  (S (next_id d)) (clock d)) ;;
     ret row).

(** [from('conversations').select('*').eq('user_id', userId)
     .order('created_at', { ascending: false }).limit(limit)] *)
Definition select_conversations (userId : string) (limit : nat)
    : M (reply (list Conversation.t)) :=
  call (select_conversations_fault W) (SelectConversations userId limit)
    (d <- get_db ;;
     ret (firstn limit
            (order_desc Conversation.created_at
               (filter (fun c => String.eqb (Conversation.user_id c) userId)
                  (conversations d))))).

(** [from('memories').select('*').eq('user_id', userId)
     .order('updated_at', { ascending: false })] *)
Definition select_memories (userId : string)
    : M (reply (list Memory.t)) :=
  call (select_memories_fault W) (SelectMemories userId)
    (d <- get_db ;;
     ret (order_desc Memory.updated_at
            (filter (fun m => String.eqb (Memory.user_id m) userId)
               (memories d)))).

(** The columns on which an upsert detects the row to update.  The
    client sends the row with [Prefer: resolution=merge-duplicates], and
    an [on_conflict] parameter only when the [onConflict] option is given;
    without it the conflict target is the primary key of the table. *)
Inductive conflict_target := OnId | OnUserIdKey.

Definition same_user_key (user_id key : string) (m : Memory.t) : bool :=
  String.eqb (Memory.user_id m) user_id && String.eqb (Memory.key m) key.

(** [DO UPDATE SET] of the columns of the payload. *)
Definition set_value (value : string) (updated_at : nat) (m : Memory.t)
    : Memory.t :=
  Memory.mk (Memory.id m) (Memory.user_id m) (Memory.key m) value
    (Memory.created_at m) updated_at.

(** [INSERT ... ON CONFLICT (target) DO UPDATE ...] of a payload that
    carries [user_id], [key], [value] and [updated_at] and no [id].
    The generated [id] is new, so on the primary key nothing ever
    conflicts and the statement is an insert, which the unique
    constraint on [(user_id, key)] rejects when the pair is taken. *)
Definition pg_upsert_memory (target : conflict_target)
    (user_id key value : string) (updated_at : nat) (d : Db)
    : (string + Memory.t) * Db :=
  let taken := existsb (same_user_key user_id key) (memories d) in
  let inserted :=
    let row := Memory.mk (next_id d) user_id key value (clock d)
                 updated_at in
    (inr row,
     mkDb (conversations d) (memories d ++ [row]) (S (next_id d))
          (S (clock d))) in
  match target with
  | OnId =>
      if taken then
        (inl "duplicate key value violates unique constraint", d)
      else inserted
  | OnUserIdKey =>
      match find (same_user_key user_id key) (memories d) with
      | Some old =>
          (inr (set_value value updated_at old),
           mkDb (conversations d)
                (map (fun m => if same_user_key user_id key m
                               then set_value value updated_at m else m)
                     (memories d))
                (next_id d) (clock d))
      | None => inserted
      end
  end.

(** [from('memories').upsert({...}, { onConflict }).select().single()];
    [storeMemory] calls it without the option. *)
Definition upsert_memory (user_id key value : string) (updated_at : nat)
    (onConflict : option conflict_target) : M (reply Memory.t) :=
  emit (UpsertMemory user_id key value) ;;
  match upsert_memory_fault W with
  | CallThrows e => throw e
  | ReplyError e => ret (mkReply None (Some e))
  | Healthy =>
      d <- get_db ;;
      let target := match onConflict with Some t => t | None => OnId end in
      match pg_upsert_memory target user_id key value updated_at d with
      | (inl e, _) => ret (mkReply None (Some e))
      | (inr row, d') => put_db d' ;; ret (mkReply (Some row) None)
      end
  end.

End Queries.
End Supabase.

(* ------------------------------------------------------------------ *)
(** ** memory.ts *)

Module MemoryTs.
Import Supabase.

Section Functions.
Variable W : World.

Definition orEmpty {A} (o : option (list A)) : list A :=
  match o with Some l => l | None => [] end.

Definition logConversation (userId message response : string)
    (metadata : option (list (string * string)))
    : M (option Conversation.t) :=
  try_catch
    (r <- insert_conversation W userId message response
            (match metadata with Some m => m | None => [] end) ;;
     match error r with
     | Some _ => ret None
     | None => ret (data r)
     end)
    (fun _ => ret None).

Definition recallRecentConversations (userId : string) (limit : nat)
    : M (list Conversation.t) :=
  try_catch
    (r <- select_conversations W userId limit ;;
     match error r with
     | Some _ => ret []
     | None => ret (orEmpty (data r))
     end)
    (fun _ => ret []).

Definition storeMemory (userId key value : string)
    : M (option Memory.t) :=
  try_catch
    (updated_at <- now ;;
     r <- upsert_memory W userId key value updated_at None ;;
     match error r with
     | Some _ => ret None
     | None => ret (data r)
     end)
    (fun _ => ret None).

Definition recallAllMemories (userId : string) : M (list Memory.t) :=
  try_catch
    (r <- select_memories W userId ;;
     match error r with
     | Some _ => ret []
     | None => ret (orEmpty (data r))
     end)
    (fun _ => ret []).

End Functions.
End MemoryTs.

(* ------------------------------------------------------------------ *)
(** ** utils/ollama.ts *)

Module Ollama.
Import JS.

Record status := mkStatus {
  isRunning : bool;
  modelAvailable : bool;
  status_error : option string
}.

(** What the async generator [ollamaStream] does when it is drained: the
    values it yields, then it returns or throws. *)
Inductive generator_end := Returned | Threw (e : string).

(** The [for (const line of lines)] loop: the yields of one batch of
    lines, and whether [return] was reached ([data.done]). *)
Fixpoint process_lines (parse : string -> option OllamaStreamResponse.t)
    (lines : list string) : list string * bool :=
  match lines with
  | [] => ([], false)
  | line :: rest =>
      if truthy (trim line) then
        match parse line with
        | Some data =>
            let chunk := OllamaStreamResponse.response data in
            if OllamaStreamResponse.done data then ([chunk], true)
            else let (ys, returned) := process_lines parse rest in
                 (chunk :: ys, returned)
        | None => process_lines parse rest
        end
      else process_lines parse rest
  end.

(** The [while (true)] loop over [reader.read()]. *)
Fixpoint read_loop (parse : string -> option OllamaStreamResponse.t)
    (buffer : string) (reads : list string) (fin : read_end)
    : list string * generator_end :=
  match reads with
  | [] =>
      match fin with
      | ReadDone => ([], Returned)
      | ReadThrows e => ([], Threw e)
      end
  | value :: reads' =>
      let buffer := buffer ++ value in
      let lines := split_lf buffer in
      let buffer := last lines "" in
      let lines := removelast lines in
      let (ys, returned) := process_lines parse lines in
      if returned then (ys, Returned)
      else let (ys', e) := read_loop parse buffer reads' fin in
           ((ys ++ ys')%list, e)
  end.

Section Functions.
Variable W : World.

Definition ollamaRequest (prompt : string) : M string :=
  emit (FetchGenerate prompt false) ;;
  match api_generate W prompt with
  | GenFetchThrows e => throw e
  | GenResponse ok status_line json =>
      if negb ok then throw ("Ollama request failed: " ++ status_line)
      else match json with
           | Thrown e => throw e
           | Ok response => ret response
           end
  end.

(** The generator up to the first [reader.read()], then the loop. *)
Definition drain (prompt : string) : list string * generator_end :=
  match api_generate_stream W prompt with
  | StreamFetchThrows e => ([], Threw e)
  | StreamResponse ok status_line body =>
      if negb ok then
        ([], Threw ("Ollama stream request failed: " ++ status_line))
      else match body with
           | None => ([], Threw "Failed to get response reader")
           | Some (reads, fin) => read_loop (JSON_parse W) "" reads fin
           end
  end.

Definition ollamaStream (prompt : string)
    : M (list string * generator_end) :=
  emit (FetchGenerate prompt true) ;;
  ret (drain prompt).

Definition checkOllamaStatus : M status :=
  emit FetchTags ;;
  match api_tags W with
  | TagsFetchThrows e =>
      ret (mkStatus false false (Some ("Failed to connect to Ollama: " ++ e)))
  | TagsResponse ok status_line json =>
      if negb ok then
        ret (mkStatus false false
               (Some ("Ollama is not responding: " ++ status_line)))
      else match json with
           | Thrown e =>
               ret (mkStatus false false
                      (Some ("Failed to connect to Ollama: " ++ e)))
           | Ok models =>
               let models := match models with Some l => l | None => [] end in
               let modelAvailable :=
                 existsb (fun name => String.eqb name (OLLAMA_MODEL W)) models in
               ret (mkStatus true modelAvailable
                      (if modelAvailable then None
                       else Some ("Model '" ++ OLLAMA_MODEL W
                                  ++ "' not found. Available models: "
                                  ++ join ", " models)))
           end
  end.

End Functions.
End Ollama.

(* ------------------------------------------------------------------ *)
(** ** server.ts *)

Module Server.
Import JS Persona MemoryTs Ollama.

(** The body of POST /chat after [express.json()]. *)
Record chat_request := mkChat {
  req_message : option string;
  req_userId : option string;
  req_stream : option bool
}.

Definition res_status (code : nat) : M unit := emit (ResStatus code).
Definition res_json (b : body) : M unit := emit (ResJson b).
Definition res_setHeader (name value : string) : M unit :=
  emit (ResSetHeader name value).
Definition res_write (chunk : string) : M unit := emit (ResWrite chunk).
Definition res_end : M unit := emit ResEnd.

(** The body of the [for await] loop over the chunks already produced. *)
Fixpoint relay (chunks : list string) (fullResponse : string) : M string :=
  match chunks with
  | [] => ret fullResponse
  | chunk :: rest =>
      let fullResponse := fullResponse ++ chunk in
      res_write chunk ;;
      relay rest fullResponse
  end.

Section Handlers.
Variable W : World.

Definition fullPrompt (memoryContext message : string) : string :=
  systemPrompt ++ nl ++ nl ++ memoryContext ++ nl ++ nl
  ++ "User: " ++ message ++ nl ++ "Hue:".

(** [app.post('/chat', ...)] *)
Definition post_chat (req : chat_request) : M unit :=
  try_catch
    (let message := req_message req in
     let userId := req_userId req in
     let stream := match req_stream req with Some b => b | None => false end in
     if falsy message || falsy userId then
       res_status 400 ;;
       res_json (ErrorBody "Missing required fields: message and userId" None)
     else
       let message := text message in
       let userId := text userId in
       ollamaStatus <- checkOllamaStatus W ;;
       if negb (isRunning ollamaStatus) then
         res_status 503 ;;
         res_json (ErrorBody "Ollama is not running"
                     (status_error ollamaStatus))
       else if negb (modelAvailable ollamaStatus) then
         res_status 503 ;;
         res_json (ErrorBody "Model not available"
                     (status_error ollamaStatus))
       else
         recentConversations <- recallRecentConversations W userId 5 ;;
         userMemories <- recallAllMemories W userId ;;
         let memoryContext :=
           buildMemoryContext userId recentConversations userMemories in
         let fullPrompt := fullPrompt memoryContext message in
         if stream then
           res_setHeader "Content-Type" "text/plain" ;;
           res_setHeader "Transfer-Encoding" "chunked" ;;
           let fullResponse := "" in
           try_catch
             (g <- ollamaStream W fullPrompt ;;
              fullResponse <- relay (fst g) fullResponse ;;
              match snd g with
              | Threw e => throw e
              | Returned =>
                  logConversation W userId message fullResponse None ;;
                  res_end
              end)
             (fun _ =>
                res_write (nl ++ nl ++ modelError) ;;
                res_end)
         else
           response <- ollamaRequest W fullPrompt ;;
           let formattedResponse := formatResponse response true in
           logConversation W userId message formattedResponse None ;;
           timestamp <- now ;;
           res_json (ChatBody formattedResponse "generated-id" timestamp))
    (fun e =>
       res_status 500 ;;
       res_json (ErrorBody "Failed to process chat request" (Some e))).

(** [app.get('/memories/:userId', ...)] *)
Definition get_memories (userId : string) : M unit :=
  try_catch
    (memories <- recallAllMemories W userId ;;
     res_json (MemoriesBody memories))
    (fun e =>
       res_status 500 ;;
       res_json (ErrorBody "Failed to retrieve memories" (Some e))).

(** [app.post('/memories/:userId', ...)] *)
Definition post_memories (userId : string) (key value : option string)
    : M unit :=
  try_catch
    (if falsy key || falsy value then
       res_status 400 ;;
       res_json (ErrorBody "Missing required fields: key and value" None)
     else
       memory <- storeMemory W userId (text key) (text value) ;;
       res_json (MemoryBody memory))
    (fun e =>
       res_status 500 ;;
       res_json (ErrorBody "Failed to store memory" (Some e))).

End Handlers.

(** Running a handler on a database: the events of the request and the
    database it leaves. *)
Definition run (h : M unit) (d : Db) : list event * Db :=
  let st := snd (h (mkSt d [])) in (trace st, db st).

(** The status line of the response: 200 unless [res.status] was called. *)
Definition status_code (t : list event) : nat :=
  fold_left (fun code ev => match ev with ResStatus c => c | _ => code end)
    t 200.

End Server.


(* ------------------------------------------------------------------ *)
(** ** memory.ts, the other functions

    The calls below are observed through what they return and through the
    database; they add nothing to the trace.  How the store answers a call
    is the [fault] each function takes. *)

Module MemoryRest.
Import JS Supabase MemoryTs.

(** [.single()]: the row, or an error when there is none or several. *)
Definition single {A} (rows : list A) : reply A :=
  match rows with
  | [row] => mkReply (Some row) None
  | _ =>
      mkReply None
        (Some "JSON object requested, multiple (or no) rows returned")
  end.

(** [from('memories').select('value').eq('user_id', userId)
     .eq('key', key).single()] *)
Definition select_memory_value (f : fault) (userId key : string)
    : M (reply string) :=
  match f with
  | CallThrows e => throw e
  | ReplyError e => ret (mkReply None (Some e))
  | Healthy =>
      d <- get_db ;;
      ret (single (map Memory.value
                     (filter (same_user_key userId key) (memories d))))
  end.

Definition recallMemory (f : fault) (userId key : string)
    : M (option string) :=
  try_catch
    (r <- select_memory_value f userId key ;;
     match error r with
     | Some _ => ret None
     | None =>
         ret (match data r with
              | Some value => if truthy value then Some value else None
              | None => None
              end)
     end)
    (fun _ => ret None).

(** [from('memories').delete().eq('user_id', userId).eq('key', key)] *)
Definition delete_memory (f : fault) (userId key : string)
    : M (reply unit) :=
  match f with
  | CallThrows e => throw e
  | ReplyError e => ret (mkReply None (Some e))
  | Healthy =>
      d <- get_db ;;
      put_db (mkDb (conversations d)
                (filter (fun m => negb (same_user_key userId key m))
                   (memories d))
                (next_id d) (clock d)) ;;
      ret (mkReply None None)
  end.

Definition deleteMemory (f : fault) (userId key : string) : M bool :=
  try_catch
    (r <- delete_memory f userId key ;;
     match error r with
     | Some _ => ret false
     | None => ret true
     end)
    (fun _ => ret false).

(** [ORDER BY k ASC]; equal keys keep their table order. *)
Fixpoint insert_asc (x : nat) (l : list nat) : list nat :=
  match l with
  | [] => [x]
  | y :: l' => if (x <=? y)%nat then x :: l else y :: insert_asc x l'
  end.

Definition order_asc (l : list nat) : list nat := fold_right insert_asc [] l.

(** [from('conversations').select('created_at').eq('user_id', userId)
     .order('created_at', { ascending: true })] *)
Definition select_created_at (f : fault) (userId : string)
    : M (reply (list nat)) :=
  match f with
  | CallThrows e => throw e
  | ReplyError e => ret (mkReply None (Some e))
  | Healthy =>
      d <- get_db ;;
      ret (mkReply
             (Some (order_asc
                      (map Conversation.created_at
                         (filter (fun c =>
                                    String.eqb (Conversation.user_id c) userId)
                            (conversations d)))))
             None)
  end.

Record stats := mkStats {
  totalConversations : nat;
  firstConversation : option nat;
  lastConversation : option nat
}.

(** A timestamp is never an empty text, so [created_at || null] is the
    timestamp when the row is there. *)
Definition getConversationStats (f : fault) (userId : string) : M stats :=
  try_catch
    (r <- select_created_at f userId ;;
     match error r with
     | Some _ => ret (mkStats 0 None None)
     | None =>
         let conversations := orEmpty (data r) in
         ret (mkStats (length conversations)
                (nth_error conversations 0)
                (match length conversations with
                 | 0 => None
                 | S i => nth_error conversations i
                 end))
     end)
    (fun _ => ret (mkStats 0 None None)).

End MemoryRest.

(* ------------------------------------------------------------------ *)
(** ** utils/ollama.ts: pullModel *)

Module OllamaRest.
Import JS Ollama.

(** POST /api/pull, as the replies of the generation stream. *)
Inductive pull_reply :=
| PullFetchThrows (e : string)
| PullResponse (ok : bool) (status_line : string)
    (body : option (list string * read_end)).

(** The [for (const line of lines)] loop of one read: whether a line
    reports success.  [parse_status line] is [JSON.parse(line).status],
    [None] when that throws or is not a text. *)
Fixpoint success_line (parse_status : string -> option string)
    (lines : list string) : bool :=
  match lines with
  | [] => false
  | line :: rest =>
      if truthy (trim line) then
        match parse_status line with
        | Some status =>
            if String.eqb status "success" then true
            else success_line parse_status rest
        | None => success_line parse_status rest
        end
      else success_line parse_status rest
  end.

(** The [while (true)] loop; each read is split on its own. *)
Fixpoint pull_loop (parse_status : string -> option string)
    (reads : list string) (fin : read_end) : M bool :=
  match reads with
  | [] =>
      match fin with
      | ReadDone => ret true
      | ReadThrows e => throw e
      end
  | value :: reads' =>
      let chunk := value in
      let lines := split_lf chunk in
      if success_line parse_status lines then ret true
      else pull_loop parse_status reads' fin
  end.

Definition pullModel (api_pull : string -> pull_reply)
    (parse_status : string -> option string) (modelName : string)
    : M bool :=
  try_catch
    (match api_pull modelName with
     | PullFetchThrows e => throw e
     | PullResponse ok status_line body =>
         if negb ok then throw ("Failed to pull model: " ++ status_line)
         else match body with
              | None => throw "Failed to get response reader"
              | Some (reads, fin) => pull_loop parse_status reads fin
              end
     end)
    (fun _ => ret false).

End OllamaRest.

(* ------------------------------------------------------------------ *)
(** ** server.ts: GET /health *)

Module ServerRest.
Import JS Ollama Server.

Inductive health_body :=
| HealthBody (status : string) (timestamp : nat)
    (services_ollama services_supabase services_model : bool)
    (ollama : Ollama.status)
| UnhealthyBody (status : string) (error : string).

(** [supabase.from('conversations').select('count').limit(1)] *)
Definition select_count (f : fault) : M (reply unit) :=
  match f with
  | CallThrows e => throw e
  | ReplyError e => ret (mkReply None (Some e))
  | Healthy => ret (mkReply (Some tt) None)
  end.

(** [app.get('/health', ...)]: the status code and the body it answers. *)
Definition get_health (W : World) (f : fault) : M (nat * health_body) :=
  try_catch
    (ollamaStatus <- checkOllamaStatus W ;;
     supabaseStatus <- select_count f ;;
     timestamp <- now ;;
     ret (200,
          HealthBody "healthy" timestamp
            (isRunning ollamaStatus)
            (match error supabaseStatus with Some _ => false | None => true end)
            (modelAvailable ollamaStatus)
            ollamaStatus))
    (fun e => ret (500, UnhealthyBody "unhealthy" e)).

(** The bodies of the endpoints below. *)
Inductive answer_body :=
| ValueBody (key : string) (value : option string)
| SuccessBody (success : bool)
| StatsBody (stats : MemoryRest.stats)
| StatusBody (status : Ollama.status)
| FailedBody (error details : string).

(** [app.get('/memories/:userId/:key', ...)] *)
Definition get_memory (f : fault) (userId key : string)
    : M (nat * answer_body) :=
  try_catch
    (value <- MemoryRest.recallMemory f userId key ;;
     ret (200, ValueBody key value))
    (fun e => ret (500, FailedBody "Failed to retrieve memory" e)).

(** [app.delete('/memories/:userId/:key', ...)] *)
Definition delete_memory_key (f : fault) (userId key : string)
    : M (nat * answer_body) :=
  try_catch
    (success <- MemoryRest.deleteMemory f userId key ;;
     ret (200, SuccessBody success))
    (fun e => ret (500, FailedBody "Failed to delete memory" e)).

(** [app.get('/conversations/:userId/stats', ...)] *)
Definition get_stats (f : fault) (userId : string) : M (nat * answer_body) :=
  try_catch
    (stats <- MemoryRest.getConversationStats f userId ;;
     ret (200, StatsBody stats))
    (fun e => ret (500, FailedBody "Failed to retrieve conversation stats" e)).

(** [app.get('/ollama/status', ...)] *)
Definition get_ollama_status (W : World) : M (nat * answer_body) :=
  try_catch
    (status <- checkOllamaStatus W ;;
     ret (200, StatusBody status))
    (fun e => ret (500, FailedBody "Failed to check Ollama status" e)).

(** [app.post('/ollama/pull', ...)]; without a [model] in the body the
    default parameter of [pullModel], the configured model, applies. *)
Definition post_ollama_pull (W : World)
    (api_pull : string -> OllamaRest.pull_reply)
    (parse_status : string -> option string) (model : option string)
    : M (nat * answer_body) :=
  try_catch
    (success <- OllamaRest.pullModel api_pull parse_status
                  (match model with
                   | Some modelName => modelName
                   | None => OLLAMA_MODEL W
                   end) ;;
     ret (200, SuccessBody success))
    (fun e => ret (500, FailedBody "Failed to pull model" e)).

End ServerRest.

(* ------------------------------------------------------------------ *)
(** ** cli.ts: one turn of the chat client *)

Module Cli.
Import JS Ollama Server.

Definition USER_ID : string := "cli-user".
Definition USE_SERVER : bool := true.

(** [response.ok] *)
Definition response_ok (code : nat) : bool :=
  ((200 <=? code) && (code <=? 299))%nat.

(** The JSON body of a response, if one was sent. *)
Definition json_body (t : list event) : option body :=
  fold_left (fun b ev => match ev with ResJson b' => Some b' | _ => b end)
    t None.

(** [fetch(`${SERVER_URL}/chat`, ...)]: no server, and the call rejects;
    else the server handles the request and answers its status and
    body. *)
Definition fetch_chat (server : option World) (req : chat_request)
    : M (nat * option body) :=
  match server with
  | None => throw "fetch failed"
  | Some W =>
      fun st =>
        let r := run (post_chat W req) (db st) in
        (Ok (status_code (fst r), json_body (fst r)),
         mkSt (snd r) (trace st ++ fst r))
  end.

Definition chatWithServer (server : option World) (message : string)
    : M string :=
  try_catch
    (response <- fetch_chat server
                   (mkChat (Some message) (Some USER_ID) (Some false)) ;;
     if negb (response_ok (fst response)) then
       throw ("HTTP error! status: " ++ toString (fst response))
     else
       match snd response with
       | None => throw "Unexpected end of JSON input"
       | Some (ChatBody response _ _) => ret response
       | Some _ => ret (text None)
       end)
    (fun _ => ret "Sorry, I'm having trouble connecting to the server.").

Definition chatDirect (W : World) (message : string) : M string :=
  try_catch
    (reply <- ollamaRequest W message ;;
     ret (trim reply))
    (fun _ => ret "Sorry, I'm having trouble connecting to Ollama.").

(** What one turn of the loop of [main] does with the line read: it
    closes the interface and exits the process, or prints a reply after
    "Hue:", or prints an error. *)
Inductive turn :=
| Exited
| Printed (reply : string)
| ErrorPrinted (err : string).

(** The callback of [rl.question] in [main]. *)
Definition main_turn (server : option World) (W : World) (input : string)
    : M turn :=
  if String.eqb (toLowerCase (trim input)) "exit" then
    ret Exited
  else
    try_catch
      (reply <- (if USE_SERVER then chatWithServer server input
                 else chatDirect W input) ;;
       ret (Printed (trim reply)))
      (fun err => ret (ErrorPrinted err)).

End Cli.

(* ------------------------------------------------------------------ *)
(** ** Vocabulary of the properties *)

Import JS Persona Supabase MemoryTs Ollama Server.

(** Concatenation of a list of strings, left to right. *)
Definition flat (l : list string) : string := fold_right append "" l.

(** The lines of a text, and whether one of them is [line]. *)
Definition has_line (s line : string) : bool :=
  existsb (String.eqb line) (split_lf s).

Fixpoint no_lf (s : string) : bool :=
  match s with
  | EmptyString => true
  | String c s' => negb (Ascii.eqb c LF) && no_lf s'
  end.

Fixpoint all_white (s : string) : bool :=
  match s with
  | EmptyString => true
  | String c s' => is_white_space c && all_white s'
  end.

Definition starts_white (s : string) : bool :=
  match s with
  | EmptyString => false
  | String c _ => is_white_space c
  end.

Fixpoint ends_white (s : string) : bool :=
  match s with
  | EmptyString => false
  | String c EmptyString => is_white_space c
  | String _ s' => ends_white s'
  end.

(** A sequence of conversation records as the store returns it: no record
    is newer than the one before it. *)
Fixpoint most_recent_first (l : list Conversation.t) : bool :=
  match l with
  | a :: (b :: _) as l' =>
      (Conversation.created_at b <=? Conversation.created_at a)%nat
      && most_recent_first l'
  | _ => true
  end.

(** One rendered record of the history section, with its number. *)
Definition history_entry (number : nat) (conv : Conversation.t) : string :=
  toString number ++ ". User: " ++ Conversation.message conv ++ nl
  ++ "   Hue: " ++ Conversation.response conv ++ nl.

Definition numbered {A} (l : list A) : list (nat * A) :=
  combine (seq 1 (length l)) l.

Definition history_section (window : list Conversation.t) : string :=
  match window with
  | [] => ""
  | _ => nl ++ nl ++ "Recent conversation history:" ++ nl
         ++ flat (map (fun p => history_entry (fst p) (snd p))
                    (numbered window))
  end.

(** One rendered fact, without its line feed. *)
Definition memory_line (m : Memory.t) : string :=
  "- " ++ Memory.key m ++ ": " ++ Memory.value m.

Definition memories_section (mems : list Memory.t) : string :=
  match mems with
  | [] => ""
  | _ => nl ++ nl ++ "User preferences and memories:" ++ nl
         ++ flat (map (fun m => memory_line m ++ nl) mems)
  end.

(** The history section in the words of the specification: the five most
    recent records of a most-recent-first sequence, oldest first, each as
    a "User:" / "Assistant:" pair. *)
Definition spec_history_window (convs : list Conversation.t)
    : list Conversation.t :=
  rev (firstn 5 convs).

Definition spec_history_pair (conv : Conversation.t) : string :=
  "User: " ++ Conversation.message conv ++ nl
  ++ "Assistant: " ++ Conversation.response conv ++ nl.

(** Seven exchanges of one user, the most recent first. *)
Definition exchange (n : nat) : Conversation.t :=
  Conversation.mk n "u1" ("m" ++ toString n) ("r" ++ toString n) (10 * n) [].

Definition seven_exchanges : list Conversation.t :=
  map exchange [7; 6; 5; 4; 3; 2; 1].

(** The backend answers the model listing. *)
Definition reachable (W : World) : bool :=
  match api_tags W with
  | TagsResponse true _ (Ok _) => true
  | _ => false
  end.

(** The backend answers and lists the configured model. *)
Definition model_listed (W : World) : bool :=
  match api_tags W with
  | TagsResponse true _ (Ok (Some names)) =>
      existsb (fun name => String.eqb name (OLLAMA_MODEL W)) names
  | _ => false
  end.

(** The value [checkOllamaStatus] resolves to. *)
Definition status_value (W : World) : status :=
  match fst (checkOllamaStatus W (mkSt (mkDb [] [] 0 0) [])) with
  | Ok s => s
  | Thrown _ => mkStatus false false None
  end.

(** What the two reads of the chat pipeline hand to the context builder. *)
Definition recent (W : World) (d : Db) (userId : string) (limit : nat)
    : list Conversation.t :=
  match select_conversations_fault W with
  | Healthy =>
      firstn limit
        (order_desc Conversation.created_at
           (filter (fun c => String.eqb (Conversation.user_id c) userId)
              (conversations d)))
  | _ => []
  end.

Definition facts (W : World) (d : Db) (userId : string) : list Memory.t :=
  match select_memories_fault W with
  | Healthy =>
      order_desc Memory.updated_at
        (filter (fun m => String.eqb (Memory.user_id m) userId) (memories d))
  | _ => []
  end.

(** The prompt the chat pipeline assembles for a user and a message. *)
Definition assembled_context (W : World) (d : Db) (userId : string) : string :=
  buildMemoryContext userId (recent W d userId 5) (facts W d userId).

Definition assembled_prompt (W : World) (d : Db) (userId message : string)
    : string :=
  fullPrompt (assembled_context W d userId) message.

(** The database after one append to [conversations] under the fault of
    the world. *)
Definition appended (W : World) (d : Db) (userId message response : string)
    : Db :=
  match insert_conversation_fault W with
  | Healthy =>
      mkDb (conversations d
            ++ [Conversation.mk (next_id d) userId message response
                  (clock d) []])
           (memories d) (S (next_id d)) (S (clock d))
  | _ => d
  end.

Definition tick (d : Db) : Db :=
  mkDb (conversations d) (memories d) (next_id d) (S (clock d)).

(** A state with further events. *)
Definition log (st : St) (evs : list event) : St :=
  mkSt (db st) (trace st ++ evs).

(** Projections of a trace. *)
Definition writes (t : list event) : list string :=
  flat_map (fun ev => match ev with ResWrite c => [c] | _ => [] end) t.

Definition appends (t : list event) : list (string * string * string) :=
  flat_map (fun ev => match ev with
                      | InsertConversation u m r => [(u, m, r)]
                      | _ => []
                      end) t.

Definition dispatched (t : list event) : list string :=
  flat_map (fun ev => match ev with FetchGenerate p _ => [p] | _ => [] end) t.

Definition is_store_event (ev : event) : bool :=
  match ev with
  | SelectConversations _ _ | SelectMemories _
  | InsertConversation _ _ _ | UpsertMemory _ _ _ => true
  | _ => false
  end.

Definition is_backend_event (ev : event) : bool :=
  match ev with
  | FetchTags | FetchGenerate _ _ => true
  | _ => false
  end.

(** The [stream] flag of a request, [false] when absent. *)
Definition wants_stream (stream : option bool) : bool :=
  match stream with Some b => b | None => false end.

(** The events every chat request that reaches dispatch starts with. *)
Definition chat_prefix (userId : string) : list event :=
  [FetchTags; SelectConversations userId 5; SelectMemories userId].

Definition stream_headers : list event :=
  [ResSetHeader "Content-Type" "text/plain";
   ResSetHeader "Transfer-Encoding" "chunked"].

(** The status and the error text of the response in a trace. *)
Definition error_text (t : list event) : option string :=
  fold_left (fun e ev => match ev with
                         | ResJson (ErrorBody text _) => Some text
                         | _ => e
                         end) t None.

(** Concrete worlds and databases for the examples.  A line of the toy
    stream is "R" or "D" (the last one) followed by the fragment;
    anything else does not parse. *)
Definition toy_parse (line : string) : option OllamaStreamResponse.t :=
  match line with
  | String "R"%char fragment => Some (OllamaStreamResponse.mk fragment false)
  | String "D"%char fragment => Some (OllamaStreamResponse.mk fragment true)
  | _ => None
  end.

Definition tags_ready : tags_reply :=
  TagsResponse true "200 OK" (Ok (Some ["llama3.2:3b"; "hue"])).

Definition world (tags : tags_reply) (gen : generate_reply)
    (str : stream_reply) (sel_c sel_m ins : fault) : World :=
  mkWorld "hue" tags (fun _ => gen) (fun _ => str) toy_parse
    sel_c sel_m ins Healthy.

Definition answer : generate_reply :=
  GenResponse true "200 OK" (Ok ("  Blue. " ++ nl)).

Definition full_stream : stream_reply :=
  StreamResponse true "200 OK"
    (Some (["R Bl"; "ue" ++ nl ++ "not json" ++ nl ++ "D. " ++ nl], ReadDone)).

Definition broken_stream : stream_reply :=
  StreamResponse true "200 OK"
    (Some (["R Bl" ++ nl ++ "Rue"], ReadThrows "socket hang up")).

Definition world_ok : World :=
  world tags_ready answer full_stream Healthy Healthy Healthy.

Definition world_down : World :=
  world (TagsFetchThrows "ECONNREFUSED") answer full_stream
    Healthy Healthy Healthy.

Definition world_no_model : World :=
  world (TagsResponse true "200 OK" (Ok (Some ["llama3.2:3b"])))
    answer full_stream Healthy Healthy Healthy.

Definition world_store_down : World :=
  world tags_ready answer full_stream
    (ReplyError "connection refused") (CallThrows "fetch failed") Healthy.

Definition world_broken_stream : World :=
  world tags_ready answer broken_stream Healthy Healthy Healthy.

Definition empty_db : Db := mkDb [] [] 0 0.

(** The database after user u1 stored the fact color = blue. *)
Definition db_color : Db :=
  snd (run (post_memories world_ok "u1" (Some "color") (Some "blue")) empty_db).

Definition ask (stream : option bool) : chat_request :=
  mkChat (Some "what is my favorite color") (Some "u1") stream.

(** Every chunk is the [response] of a line that parses. *)
Definition fragment_of (parse : string -> option OllamaStreamResponse.t)
    (chunk : string) : Prop :=
  exists line data, parse line = Some data /\ chunk = OllamaStreamResponse.response data.

(** At most one fact per user and key. *)
Definition pairs_unique (mems : list Memory.t) : Prop :=
  NoDup (map (fun m => (Memory.user_id m, Memory.key m)) mems).

(** A sequence of calls of [storeMemory], each in its own world. *)
Definition store_all (ops : list (World * string * string * string))
    (d : Db) : Db :=
  fold_left
    (fun d op =>
       match op with
       | (W, userId, key, value) =>
           db (snd (storeMemory W userId key value (mkSt d [])))
       end)
    ops d.

(** The no-break space, and a world whose backend wraps its answer in
    it. *)
Definition nbsp : string := String (Ascii.ascii_of_nat 160) EmptyString.

Definition world_nbsp : World :=
  world tags_ready (GenResponse true "200 OK" (Ok (nbsp ++ "Blue" ++ nbsp)))
    full_stream Healthy Healthy Healthy.

(** A world whose backend lists the model but fails to generate. *)
Definition world_generate_fails : World :=
  world tags_ready (GenResponse false "500 Internal Server Error" (Thrown ""))
    broken_stream Healthy Healthy Healthy.

(** Running a call of memory.ts on a database: its result and the
    database it leaves. *)
Definition eval {A} (c : M A) (d : Db) : outcome A * Db :=
  (fst (c (mkSt d [])), db (snd (c (mkSt d [])))).

(** Every stored conversation is older than the clock. *)
Definition clock_ahead (d : Db) : Prop :=
  Forall (fun c => Conversation.created_at c < clock d) (conversations d).

(** A call that writes to the memories table. *)
Inductive memory_op :=
| Store (W : World) (userId key value : string)
| Delete (f : fault) (userId key : string).

Definition apply_op (d : Db) (op : memory_op) : Db :=
  match op with
  | Store W userId key value =>
      snd (eval (storeMemory W userId key value) d)
  | Delete f userId key =>
      snd (eval (MemoryRest.deleteMemory f userId key) d)
  end.

Definition apply_ops (ops : list memory_op) (d : Db) : Db :=
  fold_left apply_op ops d.

(** A pull whose stream carries an error line and ends. *)
Definition toy_status (line : string) : option string :=
  match line with
  | String "S"%char status => Some status
  | _ => None
  end.

Definition pull_with_error_line : string -> OllamaRest.pull_reply :=
  fun _ =>
    OllamaRest.PullResponse true "200 OK"
      (Some (["Spulling manifest" ++ nl; "Serror: file does not exist" ++ nl],
             ReadDone)).

(** Ascending: every element is at most the ones after it. *)
Fixpoint ascending (l : list nat) : Prop :=
  match l with
  | [] => True
  | x :: l' => Forall (fun y => x <= y) l' /\ ascending l'
  end.

(** An event that completes the response. *)
Definition is_terminal (ev : event) : bool :=
  match ev with
  | ResJson _ | ResEnd => true
  | _ => false
  end.

(* ------------------------------------------------------------------ *)
(** ** Strings and loops *)

Lemma append_assoc (a b c : string) : (a ++ b) ++ c = a ++ (b ++ c).
Proof.
  induction a as [|x a IH]; simpl; [reflexivity|].
  now rewrite IH.
Qed.

Lemma append_empty_r (a : string) : a ++ "" = a.
Proof.
  induction a as [|x a IH]; simpl; [reflexivity|].
  now rewrite IH.
Qed.

Lemma flat_app (l1 l2 : list string) :
  flat (l1 ++ l2)%list = flat l1 ++ flat l2.
Proof.
  induction l1 as [|x l1 IH]; simpl; [reflexivity|].
  now rewrite IH, append_assoc.
Qed.

(** A [forEach] whose callback appends a piece to the text appends the
    pieces in order, each with its index. *)
Lemma forEach_from_appends {A} (f : A -> nat -> string -> string)
    (piece : nat -> A -> string) :
  (forall x i ctx, f x i ctx = ctx ++ piece i x) ->
  forall l i ctx,
    forEach_from i f l ctx
    = ctx ++ flat (map (fun p => piece (fst p) (snd p))
                     (combine (seq i (length l)) l)).
Proof.
  intros Hf l.
  induction l as [|x l IH]; intros i ctx; simpl.
  - now rewrite append_empty_r.
  - rewrite IH, Hf, append_assoc. reflexivity.
Qed.

Lemma add_conversation_appends conv index context :
  add_conversation conv index context
  = context ++ history_entry (S index) conv.
Proof.
  unfold add_conversation, history_entry.
  rewrite Nat.add_1_r.
  now rewrite !append_assoc.
Qed.

Lemma add_memory_appends memory index context :
  add_memory memory index context = context ++ (memory_line memory ++ nl).
Proof.
  unfold add_memory, memory_line.
  now rewrite !append_assoc.
Qed.

Lemma combine_seq_shift {A} (l : list A) (i : nat) :
  map (fun p => (S (fst p), snd p)) (combine (seq i (length l)) l)
  = combine (seq (S i) (length l)) l.
Proof.
  revert i.
  induction l as [|x l IH]; intros i; simpl; [reflexivity|].
  now rewrite IH.
Qed.

Lemma slice_last_five {A} (a : list A) :
  slice (-5) a = skipn (length a - 5) a.
Proof.
  unfold slice.
  replace (-5 <? 0)%Z with true by reflexivity.
  f_equal. lia.
Qed.

Lemma history_loop (window : list Conversation.t) (context : string) :
  forEach add_conversation window context
  = context ++ flat (map (fun p => history_entry (fst p) (snd p))
                       (numbered window)).
Proof.
  unfold forEach, numbered.
  rewrite (forEach_from_appends add_conversation
             (fun i c => history_entry (S i) c) add_conversation_appends).
  f_equal. f_equal.
  rewrite <- combine_seq_shift, map_map. reflexivity.
Qed.

Lemma memories_loop (mems : list Memory.t) (context : string) :
  forEach add_memory mems context
  = context ++ flat (map (fun m => memory_line m ++ nl) mems).
Proof.
  unfold forEach.
  rewrite (forEach_from_appends add_memory
             (fun _ m => memory_line m ++ nl) add_memory_appends).
  f_equal. f_equal.
  generalize 0.
  induction mems as [|m mems IH]; intros i; simpl; [reflexivity|].
  now rewrite IH.
Qed.

(** The context block is the history section followed by the facts
    section. *)
Lemma buildMemoryContext_sections userId convs mems :
  buildMemoryContext userId convs mems
  = history_section (skipn (length convs - 5) convs) ++ memories_section mems.
Proof.
  unfold buildMemoryContext.
  rewrite slice_last_five, history_loop.
  assert (Hh :
    (if (0 <? length convs)%nat
     then ("" ++ nl ++ nl ++ "Recent conversation history:" ++ nl)
          ++ flat (map (fun p => history_entry (fst p) (snd p))
                     (numbered (skipn (length convs - 5) convs)))
     else "")
    = history_section (skipn (length convs - 5) convs)).
  { destruct convs as [|c convs]; [reflexivity|].
    replace (0 <? length (c :: convs))%nat with true by reflexivity.
    unfold history_section.
    destruct (skipn (length (c :: convs) - 5) (c :: convs)) eqn:E.
    - apply (f_equal (@List.length _)) in E.
      rewrite length_skipn in E.
      change (List.length (c :: convs)) with (S (List.length convs)) in E.
      change (@List.length Conversation.t []) with 0 in E. lia.
    - rewrite <- E. reflexivity. }
  rewrite Hh. clear Hh.
  rewrite memories_loop.
  destruct mems as [|m mems].
  - simpl. now rewrite append_empty_r.
  - replace (0 <? length (m :: mems))%nat with true by reflexivity.
    unfold memories_section.
    now rewrite !append_assoc.
Qed.

(* ------------------------------------------------------------------ *)
(** ** The context block: history window *)

(** C1, as the code has it: the history section renders the last five
    entries of the supplied sequence (all of them when there are at most
    five), in the order supplied, each as a numbered two-line
    "n. User: ..." / "   Hue: ..." pair; the facts section follows. *)
Theorem history_renders_last_five_in_order :
  forall userId convs mems,
    let window := skipn (length convs - 5) convs in
    buildMemoryContext userId convs mems
    = history_section window ++ memories_section mems
    /\ length window = Nat.min 5 (length convs)
    /\ (exists earlier, convs = (earlier ++ window)%list)
    /\ (length convs <= 5 -> window = convs).
Proof.
  intros userId convs mems window.
  split; [apply buildMemoryContext_sections|].
  split; [unfold window; rewrite length_skipn; lia|].
  split.
  - exists (firstn (length convs - 5) convs).
    unfold window. now rewrite firstn_skipn.
  - intros Hle. unfold window.
    replace (length convs - 5) with 0 by lia. reflexivity.
Qed.

(** C1 as stated fails on seven records supplied most recent first: the
    most recent record is not rendered at all, the oldest one, outside
    the five most recent, is, the rendered order is the supplied one and
    not the reversed one, and no line is labelled "Assistant:". *)
Lemma history_of_seven_exchanges :
  let out := buildMemoryContext "u1" seven_exchanges [] in
  most_recent_first seven_exchanges = true
  /\ includes out (Conversation.message (exchange 7)) = false
  /\ includes out (Conversation.message (exchange 1)) = true
  /\ includes out "Assistant:" = false
  /\ out <> nl ++ nl ++ "Recent conversation history:" ++ nl
            ++ flat (map spec_history_pair (spec_history_window seven_exchanges))
  /\ out = nl ++ nl ++ "Recent conversation history:" ++ nl
           ++ "1. User: m5" ++ nl ++ "   Hue: r5" ++ nl
           ++ "2. User: m4" ++ nl ++ "   Hue: r4" ++ nl
           ++ "3. User: m3" ++ nl ++ "   Hue: r3" ++ nl
           ++ "4. User: m2" ++ nl ++ "   Hue: r2" ++ nl
           ++ "5. User: m1" ++ nl ++ "   Hue: r1" ++ nl.
Proof.
  cbv zeta.
  repeat split; try reflexivity.
  intros H. apply String.eqb_eq in H. vm_compute in H. discriminate H.
Qed.

(* ------------------------------------------------------------------ *)
(** ** What each call does to the state *)

Lemma log_log st a b : log (log st a) b = log st (a ++ b)%list.
Proof. unfold log. simpl. now rewrite <- app_assoc. Qed.

Lemma run_emit ev st : emit ev st = (Ok tt, log st [ev]).
Proof. reflexivity. Qed.

Lemma run_checkOllamaStatus W st :
  checkOllamaStatus W st = (Ok (status_value W), log st [FetchTags]).
Proof.
  unfold status_value, checkOllamaStatus, bind.
  rewrite !run_emit.
  destruct (api_tags W) as [e|[|] sl [models|e]]; reflexivity.
Qed.

Lemma status_isRunning W : isRunning (status_value W) = reachable W.
Proof.
  unfold status_value, reachable, checkOllamaStatus, bind.
  rewrite run_emit.
  destruct (api_tags W) as [e|[|] sl [models|e]]; reflexivity.
Qed.

Lemma status_modelAvailable W :
  modelAvailable (status_value W) = model_listed W.
Proof.
  unfold status_value, model_listed, checkOllamaStatus, bind.
  rewrite run_emit.
  destruct (api_tags W) as [e|[|] sl [[models|]|e]]; reflexivity.
Qed.

Lemma run_recallRecentConversations W userId limit st :
  recallRecentConversations W userId limit st
  = (Ok (recent W (db st) userId limit),
     log st [SelectConversations userId limit]).
Proof.
  unfold recallRecentConversations, select_conversations, call, recent,
    try_catch, bind.
  rewrite run_emit.
  destruct (select_conversations_fault W); reflexivity.
Qed.

Lemma run_recallAllMemories W userId st :
  recallAllMemories W userId st
  = (Ok (facts W (db st) userId), log st [SelectMemories userId]).
Proof.
  unfold recallAllMemories, select_memories, call, facts, try_catch, bind.
  rewrite run_emit.
  destruct (select_memories_fault W); reflexivity.
Qed.

(** [logConversation] never throws; it issues one insert, and the table
    grows by that row exactly when the store accepts it. *)
Lemma run_logConversation W userId message response st :
  exists logged,
    logConversation W userId message response None st
    = (Ok logged,
       mkSt (appended W (db st) userId message response)
            (trace st ++ [InsertConversation userId message response])).
Proof.
  unfold logConversation, insert_conversation, call, appended, try_catch,
    bind.
  rewrite run_emit.
  destruct (insert_conversation_fault W); eexists; reflexivity.
Qed.

Lemma run_relay chunks : forall fullResponse st,
  relay chunks fullResponse st
  = (Ok (fullResponse ++ flat chunks), log st (map ResWrite chunks)).
Proof.
  induction chunks as [|chunk rest IH]; intros fullResponse st.
  - simpl. unfold ret, log. rewrite append_empty_r, app_nil_r.
    now destruct st.
  - simpl. unfold bind, res_write. rewrite run_emit, IH, log_log.
    now rewrite append_assoc.
Qed.

Lemma run_ollamaStream W prompt st :
  ollamaStream W prompt st
  = (Ok (drain W prompt), log st [FetchGenerate prompt true]).
Proof. reflexivity. Qed.

(* ------------------------------------------------------------------ *)
(** ** The paths of POST /chat *)

Ltac exec_step :=
  first
    [ rewrite run_emit
    | rewrite run_checkOllamaStatus
    | rewrite run_recallRecentConversations
    | rewrite run_recallAllMemories
    | rewrite run_ollamaStream
    | rewrite run_relay
    | match goal with
      | |- context [logConversation ?W ?u ?m ?r None ?st] =>
          let logged := fresh "logged" in
          let E := fresh "E" in
          destruct (run_logConversation W u m r st) as [logged E];
          rewrite E; clear E
      end ].

Ltac exec :=
  unfold run, post_chat, get_memories, try_catch, bind, res_status, res_json,
    res_setHeader, res_write, res_end;
  cbv beta iota zeta;
  repeat (exec_step; cbv beta iota zeta).

Ltac finish :=
  unfold log, chat_prefix, stream_headers;
  cbn [db trace fst snd app append];
  rewrite <- ?app_assoc;
  cbn [app];
  reflexivity.

Lemma chat_rejected W req d :
  falsy (req_message req) || falsy (req_userId req) = true ->
  run (post_chat W req) d
  = ([ResStatus 400;
      ResJson (ErrorBody "Missing required fields: message and userId" None)],
     d).
Proof.
  intros Hbad. exec. rewrite Hbad. exec. reflexivity.
Qed.

Lemma chat_unreachable W req d :
  falsy (req_message req) || falsy (req_userId req) = false ->
  reachable W = false ->
  run (post_chat W req) d
  = ([FetchTags; ResStatus 503;
      ResJson (ErrorBody "Ollama is not running"
                 (status_error (status_value W)))],
     d).
Proof.
  intros Hok Hdown. exec. rewrite Hok. exec.
  rewrite status_isRunning, Hdown. exec. reflexivity.
Qed.

Lemma chat_model_missing W req d :
  falsy (req_message req) || falsy (req_userId req) = false ->
  reachable W = true ->
  model_listed W = false ->
  run (post_chat W req) d
  = ([FetchTags; ResStatus 503;
      ResJson (ErrorBody "Model not available"
                 (status_error (status_value W)))],
     d).
Proof.
  intros Hok Hup Hmodel. exec. rewrite Hok. exec.
  rewrite status_isRunning, Hup, status_modelAvailable, Hmodel. exec.
  reflexivity.
Qed.

Lemma stream_flag_cases (o : option bool) : o = Some true \/ o <> Some true.
Proof. destruct o as [[|]|]; [left|right|right]; congruence. Qed.

Section Ready.
Variables (W : World) (d : Db) (message userId : string) (stream : option bool).
Hypothesis Hmessage : truthy message = true.
Hypothesis HuserId : truthy userId = true.
Hypothesis Hup : reachable W = true.
Hypothesis Hmodel : model_listed W = true.

Let req := mkChat (Some message) (Some userId) stream.
Let prompt := assembled_prompt W d userId message.

Ltac enter :=
  subst req; exec;
  cbn [req_message req_userId req_stream falsy text];
  rewrite Hmessage, HuserId; cbn [negb orb]; exec;
  rewrite status_isRunning, Hup, status_modelAvailable, Hmodel;
  cbn [negb]; exec;
  change (fullPrompt
            (buildMemoryContext userId (recent W d userId 5)
               (facts W d userId)) message) with prompt.

Lemma chat_streamed :
  stream = Some true ->
  snd (drain W prompt) = Returned ->
  run (post_chat W req) d
  = ((chat_prefix userId ++ stream_headers ++ [FetchGenerate prompt true]
      ++ map ResWrite (fst (drain W prompt))
      ++ [InsertConversation userId message (flat (fst (drain W prompt)));
          ResEnd])%list,
     appended W d userId message (flat (fst (drain W prompt)))).
Proof.
  intros Hstream Hret. enter. rewrite Hstream. exec.
  unfold log; cbn [db trace].
  change (fullPrompt
            (buildMemoryContext userId (recent W d userId 5)
               (facts W d userId)) message) with prompt.
  rewrite Hret. exec. finish.
Qed.

Lemma chat_stream_failed e :
  stream = Some true ->
  snd (drain W prompt) = Threw e ->
  run (post_chat W req) d
  = ((chat_prefix userId ++ stream_headers ++ [FetchGenerate prompt true]
      ++ map ResWrite (fst (drain W prompt))
      ++ [ResWrite (nl ++ nl ++ modelError); ResEnd])%list,
     d).
Proof.
  intros Hstream Hthrow. enter. rewrite Hstream. exec.
  unfold log; cbn [db trace].
  change (fullPrompt
            (buildMemoryContext userId (recent W d userId 5)
               (facts W d userId)) message) with prompt.
  rewrite Hthrow. unfold throw. exec. finish.
Qed.

Lemma chat_answered status_line response :
  stream <> Some true ->
  api_generate W prompt = GenResponse true status_line (Ok response) ->
  run (post_chat W req) d
  = ((chat_prefix userId
      ++ [FetchGenerate prompt false;
          InsertConversation userId message (trim response);
          ResJson (ChatBody (trim response) "generated-id"
                     (clock (appended W d userId message (trim response))))])%list,
     tick (appended W d userId message (trim response))).
Proof.
  intros Hstream Hgen. enter.
  assert (Hs : match stream with Some b => b | None => false end = false).
  { destruct stream as [[|]|]; [congruence|reflexivity|reflexivity]. }
  rewrite Hs. unfold ollamaRequest, bind. exec.
  unfold log; cbn [db trace].
  change (fullPrompt
            (buildMemoryContext userId (recent W d userId 5)
               (facts W d userId)) message) with prompt.
  rewrite Hgen. cbn [negb]. unfold ret. exec.
  unfold formatResponse. cbn [negb]. exec.
  unfold now. exec. finish.
Qed.

Lemma chat_generate_failed :
  stream <> Some true ->
  (forall status_line response,
     api_generate W prompt <> GenResponse true status_line (Ok response)) ->
  exists e,
    run (post_chat W req) d
    = ((chat_prefix userId
        ++ [FetchGenerate prompt false; ResStatus 500;
            ResJson (ErrorBody "Failed to process chat request" (Some e))])%list,
       d).
Proof.
  intros Hstream Hgen.
  assert (Hs : match stream with Some b => b | None => false end = false).
  { destruct stream as [[|]|]; [congruence|reflexivity|reflexivity]. }
  destruct (api_generate W prompt) as [e|[|] sl [r|e0]] eqn:E;
    try (exfalso; apply (Hgen sl r); reflexivity);
    eexists; enter; rewrite Hs; unfold ollamaRequest, bind; exec;
    unfold log; cbn [db trace];
    change (fullPrompt
              (buildMemoryContext userId (recent W d userId 5)
                 (facts W d userId)) message) with prompt;
    rewrite E; cbn [negb]; unfold throw; exec; finish.
Qed.

(** A valid request to a ready backend reads the two tables and then
    calls the backend with the assembled prompt, whatever the reads gave;
    nothing is sent to the caller before that but the stream headers. *)
Lemma chat_reaches_dispatch :
  exists after,
    fst (run (post_chat W req) d)
    = (chat_prefix userId
       ++ (if wants_stream stream then stream_headers else [])
       ++ FetchGenerate prompt (wants_stream stream) :: after)%list.
Proof.
  destruct (stream_flag_cases stream) as [Es|Es].
  - assert (Hw : wants_stream stream = true) by (rewrite Es; reflexivity).
    rewrite Hw.
    destruct (snd (drain W prompt)) as [|e] eqn:Eg.
    + rewrite (chat_streamed Es Eg). cbn [fst]. eexists. reflexivity.
    + rewrite (chat_stream_failed e Es Eg). cbn [fst]. eexists. reflexivity.
  - assert (Hw : wants_stream stream = false)
      by (destruct stream as [[|]|]; [congruence|reflexivity|reflexivity]).
    rewrite Hw.
    destruct (api_generate W prompt) as [e|[|] sl [r|e0]] eqn:E.
    2: { rewrite (chat_answered sl r Es E). cbn [fst]. eexists. reflexivity. }
    all: destruct (chat_generate_failed Es) as [e' He'];
      [intros sl' r'; rewrite E; discriminate|];
      rewrite He'; cbn [fst]; eexists; reflexivity.
Qed.

(** Whatever the store and the backend then do, a valid request to a ready
    backend dispatches the assembled prompt, once. *)
Lemma chat_dispatches :
  dispatched (fst (run (post_chat W req) d)) = [prompt].
Proof.
  assert (Hw : forall l, dispatched (map ResWrite l) = []).
  { induction l as [|x l IH]; [reflexivity|exact IH]. }
  assert (Hd : forall a b, dispatched (a ++ b)%list
                           = (dispatched a ++ dispatched b)%list).
  { intros a b. unfold dispatched. apply flat_map_app. }
  destruct (stream_flag_cases stream) as [Es|Es].
  - destruct (snd (drain W prompt)) as [|e] eqn:Eg.
    + rewrite (chat_streamed Es Eg). cbn [fst].
      rewrite !Hd, Hw. reflexivity.
    + rewrite (chat_stream_failed e Es Eg). cbn [fst].
      rewrite !Hd, Hw. reflexivity.
  - destruct (api_generate W prompt) as [e|[|] sl [r|e0]] eqn:E.
    2: { rewrite (chat_answered sl r Es E). reflexivity. }
    all: destruct (chat_generate_failed Es) as [e' He'];
      [intros sl' r'; rewrite E; discriminate|];
      rewrite He'; reflexivity.
Qed.

End Ready.

(* ------------------------------------------------------------------ *)
(** ** The history the chat pipeline renders *)

Lemma most_recent_first_cons a l :
  most_recent_first (a :: l)
  = match l with
    | [] => true
    | b :: _ =>
        (Conversation.created_at b <=? Conversation.created_at a)%nat
        && most_recent_first l
    end.
Proof. destruct l; reflexivity. Qed.

Lemma insert_desc_most_recent_first x l :
  most_recent_first l = true ->
  most_recent_first (insert_desc Conversation.created_at x l) = true.
Proof.
  induction l as [|y l IH]; intros Hl; [reflexivity|].
  cbn [insert_desc].
  destruct (Conversation.created_at y <=? Conversation.created_at x)%nat
    eqn:Exy.
  - rewrite most_recent_first_cons, Exy. exact Hl.
  - rewrite most_recent_first_cons in Hl.
    rewrite most_recent_first_cons.
    apply Nat.leb_gt in Exy.
    destruct l as [|z l].
    + cbn [insert_desc]. apply andb_true_iff. split; [|reflexivity].
      apply Nat.leb_le. lia.
    + apply andb_true_iff in Hl. destruct Hl as [Hzy Hl].
      specialize (IH Hl). cbn [insert_desc] in *.
      destruct (Conversation.created_at z <=? Conversation.created_at x)%nat;
        apply andb_true_iff; split; try assumption.
      apply Nat.leb_le. lia.
Qed.

Lemma order_desc_most_recent_first l :
  most_recent_first (order_desc Conversation.created_at l) = true.
Proof.
  induction l as [|x l IH]; [reflexivity|].
  cbn [order_desc fold_right]. now apply insert_desc_most_recent_first.
Qed.

Lemma firstn_most_recent_first n : forall l,
  most_recent_first l = true -> most_recent_first (firstn n l) = true.
Proof.
  induction n as [|n IH]; intros l Hl; [reflexivity|].
  destruct l as [|a l]; [reflexivity|].
  cbn [firstn]. rewrite most_recent_first_cons in Hl.
  rewrite most_recent_first_cons.
  destruct l as [|b l]; [destruct n; reflexivity|].
  apply andb_true_iff in Hl. destruct Hl as [Hba Hl].
  specialize (IH (b :: l) Hl).
  destruct n as [|n]; [reflexivity|].
  cbn [firstn] in *. apply andb_true_iff. split; assumption.
Qed.

(** In the chat pipeline the builder is handed at most five records, the
    most recent first, and renders them all in that order. *)
Lemma chat_history_is_most_recent_first W d userId mems :
  let convs := recent W d userId 5 in
  most_recent_first convs = true
  /\ length convs <= 5
  /\ buildMemoryContext userId convs mems
     = history_section convs ++ memories_section mems.
Proof.
  cbv zeta.
  assert (Hlen : length (recent W d userId 5) <= 5).
  { unfold recent. destruct (select_conversations_fault W);
      [apply firstn_le_length|cbn; lia|cbn; lia]. }
  split; [|split; [exact Hlen|]].
  - unfold recent. destruct (select_conversations_fault W);
      [|reflexivity|reflexivity].
    apply firstn_most_recent_first, order_desc_most_recent_first.
  - rewrite buildMemoryContext_sections.
    replace (length (recent W d userId 5) - 5) with 0 by lia.
    reflexivity.
Qed.

(* ------------------------------------------------------------------ *)
(** ** Validation and backend readiness *)

Lemma falsy_iff (o : option string) :
  falsy o = true <-> o = None \/ o = Some "".
Proof.
  destruct o as [[|c s]|]; simpl; split; intros H;
    try reflexivity; try discriminate; auto;
    destruct H as [H|H]; discriminate.
Qed.

(** C4: a chat request whose message or user identifier is missing or
    empty is answered 400; neither the backend nor the store is
    contacted and the database is unchanged. *)
Theorem invalid_chat_request_rejected :
  forall W req d,
    (req_message req = None \/ req_message req = Some ""
     \/ req_userId req = None \/ req_userId req = Some "") ->
    let t := fst (run (post_chat W req) d) in
    status_code t = 400
    /\ filter is_backend_event t = []
    /\ filter is_store_event t = []
    /\ appends t = []
    /\ snd (run (post_chat W req) d) = d.
Proof.
  intros W req d Hbad t.
  assert (Hf : falsy (req_message req) || falsy (req_userId req) = true).
  { apply orb_true_iff.
    destruct Hbad as [H|[H|[H|H]]];
      [left|left|right|right]; apply falsy_iff; auto. }
  subst t. rewrite (chat_rejected W req d Hf).
  repeat split.
Qed.

Lemma invalid_chat_request_rejected_witness :
  let req := mkChat (Some "") (Some "u1") None in
  let t := fst (run (post_chat world_ok req) db_color) in
  req_message req = Some ""
  /\ status_code t = 400
  /\ filter is_backend_event t = []
  /\ filter is_store_event t = []
  /\ appends t = []
  /\ snd (run (post_chat world_ok req) db_color) = db_color.
Proof.
  split; [reflexivity|].
  apply (invalid_chat_request_rejected world_ok
           (mkChat (Some "") (Some "u1") None) db_color).
  right; left; reflexivity.
Defined.

(** C5: a valid chat request is answered 503 when the backend is
    unreachable and 503 with another error text when it is reachable
    but does not list the configured model; in both cases the only
    thing contacted is the model listing: no table is read or written. *)
Theorem backend_unavailable_before_memory :
  forall W req d,
    falsy (req_message req) = false ->
    falsy (req_userId req) = false ->
    reachable W && model_listed W = false ->
    let t := fst (run (post_chat W req) d) in
    status_code t = 503
    /\ error_text t
       = Some (if reachable W then "Model not available"
               else "Ollama is not running")
    /\ "Model not available" <> "Ollama is not running"
    /\ filter is_backend_event t = [FetchTags]
    /\ filter is_store_event t = []
    /\ snd (run (post_chat W req) d) = d.
Proof.
  intros W req d Hm Hu Hnot t.
  assert (Hok : falsy (req_message req) || falsy (req_userId req) = false)
    by (rewrite Hm, Hu; reflexivity).
  subst t.
  destruct (reachable W) eqn:Hup.
  - simpl in Hnot.
    rewrite (chat_model_missing W req d Hok Hup Hnot).
    repeat split. discriminate.
  - rewrite (chat_unreachable W req d Hok Hup).
    repeat split. discriminate.
Qed.

Lemma backend_unavailable_before_memory_witness :
  (let t := fst (run (post_chat world_down (ask None)) db_color) in
   reachable world_down = false
   /\ status_code t = 503
   /\ error_text t = Some "Ollama is not running"
   /\ filter is_store_event t = []
   /\ snd (run (post_chat world_down (ask None)) db_color) = db_color)
  /\
  (let t := fst (run (post_chat world_no_model (ask None)) db_color) in
   reachable world_no_model = true
   /\ model_listed world_no_model = false
   /\ status_code t = 503
   /\ error_text t = Some "Model not available"
   /\ filter is_store_event t = []
   /\ snd (run (post_chat world_no_model (ask None)) db_color) = db_color).
Proof.
  split.
  - destruct (backend_unavailable_before_memory world_down (ask None)
                db_color eq_refl eq_refl eq_refl)
      as (H1 & H2 & _ & _ & H5 & H6).
    repeat split; assumption.
  - destruct (backend_unavailable_before_memory world_no_model (ask None)
                db_color eq_refl eq_refl eq_refl)
      as (H1 & H2 & _ & _ & H5 & H6).
    repeat split; assumption.
Defined.

(* ------------------------------------------------------------------ *)
(** ** Memory reads of the chat pipeline *)

Lemma buildMemoryContext_empty userId : buildMemoryContext userId [] [] = "".
Proof. reflexivity. Qed.

(** C8: when a read of recent conversations or of facts fails while a
    valid chat request is served by a ready backend, the request is not
    aborted: an empty list takes the place of the failed read (so an empty
    context when both fail), and right after the two reads the backend is
    called with the prompt built from what they gave. *)
Theorem memory_read_failure_degrades_to_empty :
  forall W d message userId stream,
    truthy message = true ->
    truthy userId = true ->
    reachable W = true ->
    model_listed W = true ->
    select_conversations_fault W <> Healthy
    \/ select_memories_fault W <> Healthy ->
    let t := fst (run (post_chat W (mkChat (Some message) (Some userId) stream))
                    d) in
    exists convs mems after,
      t = ([FetchTags; SelectConversations userId 5; SelectMemories userId]
           ++ (if wants_stream stream then stream_headers else [])
           ++ FetchGenerate
                (fullPrompt (buildMemoryContext userId convs mems) message)
                (wants_stream stream)
              :: after)%list
      /\ dispatched t
         = [fullPrompt (buildMemoryContext userId convs mems) message]
      /\ (select_conversations_fault W <> Healthy -> convs = [])
      /\ (select_memories_fault W <> Healthy -> mems = [])
      /\ (select_conversations_fault W = Healthy ->
          convs = firstn 5
                    (order_desc Conversation.created_at
                       (filter (fun c =>
                                  String.eqb (Conversation.user_id c) userId)
                          (conversations d))))
      /\ (select_memories_fault W = Healthy ->
          mems = order_desc Memory.updated_at
                   (filter (fun m => String.eqb (Memory.user_id m) userId)
                      (memories d)))
      /\ (select_conversations_fault W <> Healthy ->
          select_memories_fault W <> Healthy ->
          dispatched t = [fullPrompt "" message]).
Proof.
  intros W d message userId stream Hm Hu Hup Hmodel _ t.
  destruct (chat_reaches_dispatch W d message userId stream
              Hm Hu Hup Hmodel) as (after & Ht).
  exists (recent W d userId 5), (facts W d userId), after.
  assert (Hd : dispatched t = [assembled_prompt W d userId message])
    by (apply chat_dispatches; assumption).
  assert (Hc : select_conversations_fault W <> Healthy ->
               recent W d userId 5 = []).
  { unfold recent. destruct (select_conversations_fault W); congruence. }
  assert (Hf : select_memories_fault W <> Healthy -> facts W d userId = []).
  { unfold facts. destruct (select_memories_fault W); congruence. }
  split; [exact Ht|]. split; [exact Hd|].
  split; [exact Hc|]. split; [exact Hf|].
  split; [intros H; unfold recent; now rewrite H|].
  split; [intros H; unfold facts; now rewrite H|].
  intros H1 H2. rewrite Hd. unfold assembled_prompt, assembled_context.
  now rewrite (Hc H1), (Hf H2).
Qed.

Lemma memory_read_failure_degrades_to_empty_witness :
  let t := fst (run (post_chat world_store_down (ask None)) db_color) in
  select_conversations_fault world_store_down <> Healthy
  /\ select_memories_fault world_store_down <> Healthy
  /\ dispatched t = [fullPrompt "" "what is my favorite color"]
  /\ status_code t = 200.
Proof.
  assert (H1 : select_conversations_fault world_store_down <> Healthy)
    by discriminate.
  assert (H2 : select_memories_fault world_store_down <> Healthy)
    by discriminate.
  split; [exact H1|]. split; [exact H2|].
  destruct (memory_read_failure_degrades_to_empty world_store_down db_color
              "what is my favorite color" "u1" None
              eq_refl eq_refl eq_refl eq_refl (or_introl H1))
    as (convs & mems & after & _ & _ & _ & _ & _ & _ & Hboth).
  split; [exact (Hboth H1 H2)|reflexivity].
Defined.

(* ------------------------------------------------------------------ *)
(** ** The streaming relay and persistence *)

Lemma writes_app a b : writes (a ++ b)%list = (writes a ++ writes b)%list.
Proof. unfold writes. apply flat_map_app. Qed.

Lemma writes_map_ResWrite l : writes (map ResWrite l) = l.
Proof. induction l as [|x l IH]; simpl; [reflexivity|now rewrite IH]. Qed.

Lemma appends_app a b :
  appends (a ++ b)%list = (appends a ++ appends b)%list.
Proof. unfold appends. apply flat_map_app. Qed.

Lemma appends_map_ResWrite l : appends (map ResWrite l) = [].
Proof. induction l as [|x l IH]; simpl; [reflexivity|exact IH]. Qed.

(** C3: when the backend stream raises before completing, the chunks
    produced so far have been relayed, then the fallback notice is written
    as the last chunk: two line feeds and the text "I'm experiencing some
    technical difficulties. Please try again in a moment.", which is what
    [errorResponses.modelError] holds and is visible text (not empty, no
    white space at its ends); the response is ended, and nothing is
    appended to the conversations: no insert is issued and the database
    is unchanged. *)
Theorem failed_stream_emits_fallback_and_persists_nothing :
  forall W d message userId e,
    truthy message = true ->
    truthy userId = true ->
    reachable W = true ->
    model_listed W = true ->
    snd (drain W (assembled_prompt W d userId message)) = Threw e ->
    let r := run (post_chat W (mkChat (Some message) (Some userId) (Some true)))
               d in
    let notice :=
      "I'm experiencing some technical difficulties. Please try again in a moment."
    in
    (exists before,
       fst r = (before
                ++ [ResWrite (nl ++ nl ++ notice)%string; ResEnd])%list)
    /\ writes (fst r)
       = (fst (drain W (assembled_prompt W d userId message))
          ++ [(nl ++ nl ++ notice)%string])%list
    /\ modelError = notice
    /\ trim (nl ++ nl ++ notice) = notice
    /\ truthy notice = true
    /\ status_code (fst r) = 200
    /\ appends (fst r) = []
    /\ snd r = d.
Proof.
  intros W d message userId e Hm Hu Hup Hmodel Hthrow r notice.
  subst r notice.
  rewrite (chat_stream_failed W d message userId (Some true)
             Hm Hu Hup Hmodel e eq_refl Hthrow).
  cbn [fst snd].
  assert (Hnotice : modelError
                    = "I'm experiencing some technical difficulties. Please try again in a moment.")
    by reflexivity.
  rewrite Hnotice.
  split.
  - eexists. rewrite !app_assoc. reflexivity.
  - split; [|split; [reflexivity|split; [reflexivity|split; [reflexivity|]]]].
    + rewrite !writes_app, writes_map_ResWrite. reflexivity.
    + split; [|split; [|reflexivity]].
      * unfold status_code. rewrite !fold_left_app.
        cbn [chat_prefix stream_headers fold_left].
        assert (Hw : forall l code,
                   fold_left (fun code ev => match ev with
                                             | ResStatus c => c
                                             | _ => code
                                             end) (map ResWrite l) code
                   = code).
        { induction l as [|x l IH]; intros code; [reflexivity|apply IH]. }
        now rewrite Hw.
      * rewrite !appends_app, appends_map_ResWrite. reflexivity.
Qed.

Lemma failed_stream_emits_fallback_and_persists_nothing_witness :
  let r := run (post_chat world_broken_stream (ask (Some true))) db_color in
  snd (drain world_broken_stream
         (assembled_prompt world_broken_stream db_color "u1"
            "what is my favorite color"))
  = Threw "socket hang up"
  /\ writes (fst r)
     = [" Bl";
        nl ++ nl
        ++ "I'm experiencing some technical difficulties. Please try again in a moment."]
  /\ appends (fst r) = []
  /\ snd r = db_color.
Proof.
  split; [reflexivity|].
  destruct (failed_stream_emits_fallback_and_persists_nothing
              world_broken_stream db_color "what is my favorite color" "u1"
              "socket hang up" eq_refl eq_refl eq_refl eq_refl eq_refl)
    as (_ & Hw & _ & _ & _ & _ & Ha & Hd).
  split; [exact Hw|]. split; [exact Ha|exact Hd].
Defined.

(** C2: a streamed exchange whose stream completes issues exactly one
    insert, whose response text is the concatenation of the chunks written
    to the caller; an exchange answered without streaming issues exactly
    one insert too; in both cases the conversations table grows by exactly
    that one record when the store accepts the insert. *)
Theorem completed_exchange_persisted_once :
  forall W d message userId,
    truthy message = true ->
    truthy userId = true ->
    reachable W = true ->
    model_listed W = true ->
    let prompt := assembled_prompt W d userId message in
    (snd (drain W prompt) = Returned ->
     let r := run (post_chat W (mkChat (Some message) (Some userId)
                                  (Some true))) d in
     exists response,
       flat (writes (fst r)) = response
       /\ appends (fst r) = [(userId, message, response)]
       /\ (insert_conversation_fault W = Healthy ->
           exists row,
             conversations (snd r) = (conversations d ++ [row])%list
             /\ Conversation.user_id row = userId
             /\ Conversation.message row = message
             /\ Conversation.response row = response))
    /\
    (forall stream status_line answer,
       stream <> Some true ->
       api_generate W prompt = GenResponse true status_line (Ok answer) ->
       let r := run (post_chat W (mkChat (Some message) (Some userId) stream))
                  d in
       exists response,
         In (ResJson (ChatBody response "generated-id"
                        (clock (appended W d userId message response))))
            (fst r)
         /\ appends (fst r) = [(userId, message, response)]
         /\ (insert_conversation_fault W = Healthy ->
             exists row,
               conversations (snd r) = (conversations d ++ [row])%list
               /\ Conversation.user_id row = userId
               /\ Conversation.message row = message
               /\ Conversation.response row = response)).
Proof.
  intros W d message userId Hm Hu Hup Hmodel prompt.
  split.
  - intros Hret r. subst r prompt.
    rewrite (chat_streamed W d message userId (Some true)
               Hm Hu Hup Hmodel eq_refl Hret).
    cbn [fst snd].
    eexists. split; [reflexivity|]. split.
    + rewrite !writes_app, !appends_app, writes_map_ResWrite,
        appends_map_ResWrite.
      cbn. rewrite app_nil_r. reflexivity.
    + intros Hins. unfold appended. rewrite Hins. cbn [conversations].
      eexists. split; [reflexivity|].
      cbn. rewrite !writes_app, writes_map_ResWrite. cbn.
      rewrite app_nil_r. repeat split.
  - intros stream sl answer Hs Hgen r. subst r prompt.
    rewrite (chat_answered W d message userId stream
               Hm Hu Hup Hmodel sl answer Hs Hgen).
    cbn [fst snd].
    exists (trim answer). split; [|split].
    + apply in_or_app. right. right. right. left. reflexivity.
    + reflexivity.
    + intros Hins. unfold appended, tick. rewrite Hins. cbn [conversations].
      eexists. split; [reflexivity|]. repeat split.
Qed.

Lemma completed_exchange_persisted_once_witness :
  (let r := run (post_chat world_ok (ask (Some true))) db_color in
   writes (fst r) = [" Blue"; ". "]
   /\ appends (fst r) = [("u1", "what is my favorite color", " Blue. ")]
   /\ map Conversation.response (conversations (snd r)) = [" Blue. "])
  /\
  (let r := run (post_chat world_ok (ask None)) db_color in
   appends (fst r) = [("u1", "what is my favorite color", "Blue.")]
   /\ map Conversation.response (conversations (snd r)) = ["Blue."]).
Proof.
  destruct (completed_exchange_persisted_once world_ok db_color
              "what is my favorite color" "u1"
              eq_refl eq_refl eq_refl eq_refl) as [Hs Hr].
  split.
  - destruct (Hs eq_refl) as (response & Hw & Ha & Hrow).
    destruct (Hrow eq_refl) as (row & Hc & _ & _ & Hresp).
    assert (Hv : response = " Blue. ") by (rewrite <- Hw; reflexivity).
    cbv zeta. unfold ask. split; [reflexivity|]. split.
    + rewrite Ha, Hv. reflexivity.
    + rewrite Hc, map_app. cbn [map]. rewrite Hresp, Hv. reflexivity.
  - destruct (Hr None "200 OK" ("  Blue. " ++ nl)) as (response & Hj & Ha & Hrow);
      [discriminate|reflexivity|].
    destruct (Hrow eq_refl) as (row & Hc & _ & _ & Hresp).
    assert (Hv : response = "Blue.").
    { assert (Ha' := Ha). vm_compute in Ha'. now inversion Ha'. }
    cbv zeta. unfold ask. split.
    + rewrite Ha, Hv. reflexivity.
    + rewrite Hc, map_app. cbn [map]. rewrite Hresp, Hv. reflexivity.
Defined.

(* ------------------------------------------------------------------ *)
(** ** Trimming *)

Lemma trimStart_spec (s : string) :
  exists l,
    s = l ++ trimStart s /\ all_white l = true
    /\ starts_white (trimStart s) = false.
Proof.
  induction s as [|c s IH].
  - exists "". repeat split.
  - simpl. destruct (is_white_space c) eqn:Ec.
    + destruct IH as (l & Hs & Hl & Hstart).
      exists (String c l). simpl. rewrite Ec, Hl.
      repeat split; [now rewrite <- Hs|assumption].
    + exists "". simpl. rewrite Ec. repeat split.
Qed.

Lemma trimEnd_spec (s : string) :
  exists r,
    s = trimEnd s ++ r /\ all_white r = true
    /\ ends_white (trimEnd s) = false.
Proof.
  induction s as [|c s IH].
  - exists "". repeat split.
  - destruct IH as (r & Hs & Hr & Hend).
    simpl. destruct (trimEnd s) as [|x u] eqn:Et.
    + simpl in Hs. subst r.
      destruct (is_white_space c) eqn:Ec.
      * exists (String c s). simpl. rewrite Ec, Hr. repeat split.
      * exists s. simpl. rewrite Ec. repeat split. assumption.
    + exists r. split; [|split; [assumption|]].
      * simpl. simpl in Hs. now rewrite <- Hs.
      * exact Hend.
Qed.

Lemma trimEnd_keeps_start (s : string) :
  starts_white s = false -> starts_white (trimEnd s) = false.
Proof.
  destruct s as [|c s]; [reflexivity|].
  simpl. intros Hc.
  destruct (trimEnd s); [rewrite Hc|]; simpl; try assumption; reflexivity.
Qed.

(** [trim] removes a white prefix and a white suffix and leaves a text
    that neither starts nor ends with white space. *)
Lemma trim_spec (s : string) :
  exists l r,
    s = l ++ trim s ++ r
    /\ all_white l = true /\ all_white r = true
    /\ starts_white (trim s) = false /\ ends_white (trim s) = false.
Proof.
  destruct (trimStart_spec s) as (l & Hs & Hl & Hstart).
  destruct (trimEnd_spec (trimStart s)) as (r & Ht & Hr & Hend).
  exists l, r. unfold trim.
  split; [rewrite <- Ht; exact Hs|].
  repeat split; try assumption.
  now apply trimEnd_keeps_start.
Qed.

(* ------------------------------------------------------------------ *)
(** ** The chunks of the stream *)

Lemma process_lines_fragments parse lines :
  Forall (fragment_of parse) (fst (process_lines parse lines)).
Proof.
  induction lines as [|line rest IH]; simpl; [constructor|].
  destruct (truthy (trim line)); [|exact IH].
  destruct (parse line) as [data|] eqn:Ep; [|exact IH].
  destruct (OllamaStreamResponse.done data).
  - simpl. constructor; [|constructor]. now exists line, data.
  - destruct (process_lines parse rest) as [ys returned]. simpl in *.
    constructor; [|exact IH]. now exists line, data.
Qed.

Lemma read_loop_fragments parse reads fin : forall buffer,
  Forall (fragment_of parse) (fst (read_loop parse buffer reads fin)).
Proof.
  induction reads as [|value reads IH]; intros buffer; simpl.
  - destruct fin; constructor.
  - pose proof (process_lines_fragments parse
                  (removelast (split_lf (buffer ++ value)))) as Hp.
    destruct (process_lines parse (removelast (split_lf (buffer ++ value))))
      as [ys returned].
    destruct returned; [exact Hp|].
    specialize (IH (last (split_lf (buffer ++ value)) "")).
    destruct (read_loop parse (last (split_lf (buffer ++ value)) "") reads fin)
      as [ys' e].
    simpl in *. apply Forall_app. split; assumption.
Qed.

(** Every chunk the generator yields is the [response] of a parsed line. *)
Lemma drain_fragments W prompt :
  Forall (fragment_of (JSON_parse W)) (fst (drain W prompt)).
Proof.
  unfold drain.
  destruct (api_generate_stream W prompt) as [e|[|] sl [[reads fin]|]];
    try constructor.
  apply read_loop_fragments.
Qed.

(** C10: without streaming, the text returned to the caller and the text
    handed to the store are both the backend's response without its
    leading and trailing white space (TAB, LF, VT, FF, CR, SPACE and the
    no-break space, the white space of ECMAScript among the code units
    of the model); with streaming, the chunks written
    are the fragments of the backend as they are, and the text handed to
    the store is their concatenation, untrimmed. *)
Theorem response_trimmed_unless_streamed :
  forall W d message userId,
    truthy message = true ->
    truthy userId = true ->
    reachable W = true ->
    model_listed W = true ->
    let prompt := assembled_prompt W d userId message in
    (forall stream status_line answer,
       stream <> Some true ->
       api_generate W prompt = GenResponse true status_line (Ok answer) ->
       let r := run (post_chat W (mkChat (Some message) (Some userId) stream))
                  d in
       exists returned before after,
         answer = before ++ returned ++ after
         /\ all_white before = true /\ all_white after = true
         /\ starts_white returned = false /\ ends_white returned = false
         /\ (exists timestamp,
               In (ResJson (ChatBody returned "generated-id" timestamp))
                  (fst r))
         /\ appends (fst r) = [(userId, message, returned)]
         /\ (insert_conversation_fault W = Healthy ->
             exists row,
               conversations (snd r) = (conversations d ++ [row])%list
               /\ Conversation.response row = returned))
    /\
    (snd (drain W prompt) = Returned ->
     let r := run (post_chat W (mkChat (Some message) (Some userId)
                                  (Some true))) d in
     writes (fst r) = fst (drain W prompt)
     /\ Forall (fragment_of (JSON_parse W)) (writes (fst r))
     /\ appends (fst r) = [(userId, message, flat (writes (fst r)))]
     /\ (insert_conversation_fault W = Healthy ->
         exists row,
           conversations (snd r) = (conversations d ++ [row])%list
           /\ Conversation.response row = flat (writes (fst r)))).
Proof.
  intros W d message userId Hm Hu Hup Hmodel prompt.
  split.
  - intros stream sl answer Hs Hgen r. subst r prompt.
    rewrite (chat_answered W d message userId stream
               Hm Hu Hup Hmodel sl answer Hs Hgen).
    cbn [fst snd].
    destruct (trim_spec answer) as (l & r & Ha & Hl & Hr & Hstart & Hend).
    exists (trim answer), l, r.
    repeat (split; [assumption|]).
    split; [|split].
    + eexists. apply in_or_app. right. right. right. left. reflexivity.
    + reflexivity.
    + intros Hins. unfold appended, tick. rewrite Hins. cbn [conversations].
      eexists. split; reflexivity.
  - intros Hret r. subst r prompt.
    rewrite (chat_streamed W d message userId (Some true)
               Hm Hu Hup Hmodel eq_refl Hret).
    cbn [fst snd].
    assert (Hw : writes
                   (chat_prefix userId ++ stream_headers
                    ++ [FetchGenerate (assembled_prompt W d userId message) true]
                    ++ map ResWrite
                         (fst (drain W (assembled_prompt W d userId message)))
                    ++ [InsertConversation userId message
                          (flat (fst (drain W
                                        (assembled_prompt W d userId message))));
                        ResEnd])%list
                 = fst (drain W (assembled_prompt W d userId message))).
    { rewrite !writes_app, writes_map_ResWrite. cbn. now rewrite app_nil_r. }
    rewrite Hw.
    split; [reflexivity|]. split; [apply drain_fragments|]. split.
    + rewrite !appends_app, appends_map_ResWrite. reflexivity.
    + intros Hins. unfold appended. rewrite Hins. cbn [conversations].
      eexists. split; reflexivity.
Qed.

Lemma response_trimmed_unless_streamed_witness :
  (let r := run (post_chat world_ok (ask None)) db_color in
   api_generate world_ok
     (assembled_prompt world_ok db_color "u1" "what is my favorite color")
   = GenResponse true "200 OK" (Ok ("  Blue. " ++ nl))
   /\ appends (fst r) = [("u1", "what is my favorite color", "Blue.")])
  /\
  (let r := run (post_chat world_ok (ask (Some true))) db_color in
   writes (fst r) = [" Blue"; ". "]
   /\ appends (fst r) = [("u1", "what is my favorite color", " Blue. ")])
  /\
  (let r := run (post_chat world_nbsp (ask None)) db_color in
   api_generate world_nbsp
     (assembled_prompt world_nbsp db_color "u1" "what is my favorite color")
   = GenResponse true "200 OK" (Ok (nbsp ++ "Blue" ++ nbsp))
   /\ all_white nbsp = true
   /\ appends (fst r) = [("u1", "what is my favorite color", "Blue")]).
Proof.
  destruct (response_trimmed_unless_streamed world_ok db_color
              "what is my favorite color" "u1"
              eq_refl eq_refl eq_refl eq_refl) as [Hr Hs].
  split; [|split].
  - destruct (Hr None "200 OK" ("  Blue. " ++ nl))
      as (returned & before & after & _ & _ & _ & _ & _ & _ & Ha & _);
      [discriminate|reflexivity|].
    cbv zeta. unfold ask. split; [reflexivity|].
    rewrite Ha. vm_compute in Ha. now inversion Ha.
  - destruct (Hs eq_refl) as (Hw & _ & Ha & _).
    cbv zeta. unfold ask. split.
    + rewrite Hw. reflexivity.
    + rewrite Ha, Hw. reflexivity.
  - destruct (response_trimmed_unless_streamed world_nbsp db_color
                "what is my favorite color" "u1"
                eq_refl eq_refl eq_refl eq_refl) as [Hn _].
    destruct (Hn None "200 OK" (nbsp ++ "Blue" ++ nbsp))
      as (returned & before & after & _ & _ & _ & _ & _ & _ & Ha & _);
      [discriminate|reflexivity|].
    cbv zeta. unfold ask. split; [reflexivity|]. split; [reflexivity|].
    rewrite Ha. vm_compute in Ha. now inversion Ha.
Defined.

(* ------------------------------------------------------------------ *)
(** ** GET /memories/:userId *)

(** C7, as the code has it: a failure of the store during a direct read
    of the memories is not surfaced; [recallAllMemories] turns it into an
    empty list and the endpoint answers 200 with that list, as the chat
    pipeline does with its own reads. *)
Theorem memories_read_failure_answers_empty_list :
  forall W userId d,
    let r := run (get_memories W userId) d in
    status_code (fst r) = 200
    /\ fst r = [SelectMemories userId;
                ResJson (MemoriesBody (facts W d userId))]
    /\ (forall e, select_memories_fault W = ReplyError e ->
                  facts W d userId = [])
    /\ (forall e, select_memories_fault W = CallThrows e ->
                  facts W d userId = [])
    /\ snd r = d.
Proof.
  intros W userId d r. subst r.
  assert (E : run (get_memories W userId) d
              = ([SelectMemories userId;
                  ResJson (MemoriesBody (facts W d userId))], d)).
  { exec. finish. }
  rewrite E. cbn [fst snd].
  repeat split; intros e He; unfold facts; now rewrite He.
Qed.

(** C7 as stated fails: with the store failing, the direct read answers
    200 and an empty list, not 500. *)
Lemma memories_read_with_store_down :
  let t := fst (run (get_memories world_store_down "u1") db_color) in
  select_memories_fault world_store_down = CallThrows "fetch failed"
  /\ memories db_color <> []
  /\ t = [SelectMemories "u1"; ResJson (MemoriesBody [])]
  /\ status_code t = 200
  /\ status_code t <> 500.
Proof.
  cbv zeta. repeat split; try reflexivity; discriminate.
Qed.

(* ------------------------------------------------------------------ *)
(** ** Facts: one row per user and key *)

Lemma run_storeMemory_taken W userId key value d :
  existsb (same_user_key userId key) (memories d) = true ->
  exists logged,
    storeMemory W userId key value (mkSt d [])
    = (Ok logged, mkSt (tick d) [UpsertMemory userId key value])
    /\ (upsert_memory_fault W = Healthy -> logged = None).
Proof.
  intros Htaken.
  unfold storeMemory, upsert_memory, try_catch, bind, now.
  rewrite run_emit. cbn [db trace log].
  destruct (upsert_memory_fault W); cbv beta iota zeta.
  - unfold get_db, pg_upsert_memory, log. cbn [db memories].
    rewrite Htaken. eexists. split; [reflexivity|reflexivity].
  - eexists. split; [reflexivity|discriminate].
  - eexists. split; [reflexivity|discriminate].
Qed.

(** Whatever the store does, once a user has a fact under a key,
    storing under that key again leaves every row as it was. *)
Lemma storeMemory_taken_changes_no_row W userId key value d :
  existsb (same_user_key userId key) (memories d) = true ->
  memories (db (snd (storeMemory W userId key value (mkSt d []))))
  = memories d.
Proof.
  intros Htaken.
  destruct (run_storeMemory_taken W userId key value d Htaken)
    as (logged & E & _).
  rewrite E. reflexivity.
Qed.

(** With the pair as conflict target the same statement replaces the
    value and the update time of the one row and adds none. *)
Lemma upsert_on_user_key_replaces user_id key value updated_at d old :
  find (same_user_key user_id key) (memories d) = Some old ->
  let r := pg_upsert_memory OnUserIdKey user_id key value updated_at d in
  fst r = inr (set_value value updated_at old)
  /\ length (memories (snd r)) = length (memories d)
  /\ forall m, In m (memories (snd r)) ->
               same_user_key user_id key m = true ->
               Memory.value m = value /\ Memory.updated_at m = updated_at.
Proof.
  intros Hfind r. subst r. unfold pg_upsert_memory. rewrite Hfind.
  cbn [fst snd memories].
  split; [reflexivity|]. split; [apply length_map|].
  intros m Hin Hsame.
  apply in_map_iff in Hin. destruct Hin as (m0 & Hm & _).
  destruct (same_user_key user_id key m0) eqn:E0; subst m.
  - split; reflexivity.
  - congruence.
Qed.

Lemma storeMemory_rows W userId key value d :
  let mems := memories (db (snd (storeMemory W userId key value (mkSt d [])))) in
  mems = memories d
  \/ (existsb (same_user_key userId key) (memories d) = false
      /\ exists row,
           mems = (memories d ++ [row])%list
           /\ Memory.user_id row = userId /\ Memory.key row = key
           /\ Memory.value row = value).
Proof.
  cbv zeta.
  destruct (existsb (same_user_key userId key) (memories d)) eqn:Htaken.
  - left. now apply storeMemory_taken_changes_no_row.
  - unfold storeMemory, upsert_memory, try_catch, bind, now.
    rewrite run_emit. cbn [db trace log].
    destruct (upsert_memory_fault W); cbv beta iota zeta;
      [|left; reflexivity|left; reflexivity].
    unfold get_db, pg_upsert_memory, log. cbn [db memories].
    rewrite Htaken. right. split; [reflexivity|].
    eexists. split; [reflexivity|]. repeat split.
Qed.

Lemma same_user_key_false_iff userId key m :
  same_user_key userId key m = false
  <-> (Memory.user_id m, Memory.key m) <> (userId, key).
Proof.
  unfold same_user_key. rewrite andb_false_iff, !String.eqb_neq.
  split.
  - intros [H|H] E; inversion E; contradiction.
  - intros H.
    destruct (string_dec (Memory.user_id m) userId) as [Eu|Eu]; [|now left].
    right. intros Ek. apply H. now rewrite Eu, Ek.
Qed.

(** The unique constraint holds after every call of [storeMemory]. *)
Lemma storeMemory_keeps_pairs_unique W userId key value d :
  pairs_unique (memories d) ->
  pairs_unique
    (memories (db (snd (storeMemory W userId key value (mkSt d []))))).
Proof.
  intros Hu.
  destruct (storeMemory_rows W userId key value d)
    as [E|(Hfree & row & E & Hru & Hrk & _)]; rewrite E; [exact Hu|].
  unfold pairs_unique in *.
  rewrite map_app. cbn [map].
  apply (NoDup_Add (a := (Memory.user_id row, Memory.key row))
           (l := map (fun m => (Memory.user_id m, Memory.key m)) (memories d))).
  - rewrite <- (app_nil_r (map _ (memories d))) at 1. apply Add_app.
  - split; [exact Hu|].
    rewrite Hru, Hrk. intros Hin.
    apply in_map_iff in Hin. destruct Hin as (m & Hm & Hin).
    assert (Hf : same_user_key userId key m = false).
    { destruct (same_user_key userId key m) eqn:Es; [|reflexivity].
      assert (Ht : existsb (same_user_key userId key) (memories d) = true)
        by (apply existsb_exists; now exists m).
      congruence. }
    apply same_user_key_false_iff in Hf. contradiction.
Qed.

Lemma store_all_keeps_pairs_unique ops : forall d,
  pairs_unique (memories d) -> pairs_unique (memories (store_all ops d)).
Proof.
  induction ops as [|[[[W userId] key] value] ops IH]; intros d Hu.
  - exact Hu.
  - apply IH. now apply storeMemory_keeps_pairs_unique.
Qed.

(** C6 on the code: u1 stores color = blue, then color = red.  The first
    call creates the row; the second is rejected by the unique constraint
    and swallowed: the endpoint answers with a null memory, the value is
    still blue and the update time is the one of the first call. *)
Lemma second_store_under_a_key_is_rejected :
  let r := run (post_memories world_ok "u1" (Some "color") (Some "red"))
             db_color in
  memories db_color = [Memory.mk 0 "u1" "color" "blue" 1 0]
  /\ fst r = [UpsertMemory "u1" "color" "red"; ResJson (MemoryBody None)]
  /\ status_code (fst r) = 200
  /\ memories (snd r) = [Memory.mk 0 "u1" "color" "blue" 1 0].
Proof.
  cbv zeta. repeat split.
Qed.

(* ------------------------------------------------------------------ *)
(** ** The facts section and the prompt *)

Lemma split_lf_nonempty (s : string) : split_lf s <> [].
Proof.
  induction s as [|c s IH]; simpl; [discriminate|].
  destruct (Ascii.eqb c LF); [discriminate|].
  destruct (split_lf s); discriminate.
Qed.

Lemma split_lf_app_nl (a s : string) :
  split_lf (a ++ nl ++ s) = (split_lf a ++ split_lf s)%list.
Proof.
  induction a as [|c a IH]; simpl.
  - reflexivity.
  - destruct (Ascii.eqb c LF).
    + simpl in IH. rewrite IH. reflexivity.
    + simpl in IH. rewrite IH.
      pose proof (split_lf_nonempty a) as Hne.
      destruct (split_lf a); [contradiction|reflexivity].
Qed.

Lemma split_lf_no_lf (l : string) : no_lf l = true -> split_lf l = [l].
Proof.
  induction l as [|c l IH]; simpl; [reflexivity|].
  intros H. apply andb_true_iff in H. destruct H as [Hc Hl].
  apply negb_true_iff in Hc. rewrite Hc, (IH Hl). reflexivity.
Qed.

Lemma no_lf_app (a b : string) : no_lf (a ++ b) = no_lf a && no_lf b.
Proof.
  induction a as [|c a IH]; simpl; [reflexivity|].
  now rewrite IH, andb_assoc.
Qed.

(** A text without line feed standing between two line feeds is a line. *)
Lemma has_line_between (a l b : string) :
  no_lf l = true -> has_line (a ++ nl ++ l ++ nl ++ b) l = true.
Proof.
  intros Hl. unfold has_line.
  rewrite split_lf_app_nl, split_lf_app_nl, (split_lf_no_lf l Hl).
  rewrite existsb_app. apply orb_true_iff. right.
  simpl. now rewrite String.eqb_refl.
Qed.

Lemma flat_lines_end (l1 : list Memory.t) : forall base,
  exists x,
    (base ++ nl) ++ flat (map (fun m => memory_line m ++ nl) l1) = x ++ nl.
Proof.
  induction l1 as [|m l1 IH]; intros base.
  - exists base. simpl. now rewrite append_empty_r.
  - destruct (IH ((base ++ nl) ++ memory_line m)) as (x & Hx).
    exists x. rewrite <- Hx. unfold flat. cbn [map fold_right].
    now rewrite !append_assoc.
Qed.

(** Each fact of a non-empty facts section stands between two line
    feeds, after whatever text [before] the section follows. *)
Lemma memories_section_line (before : string) (mems : list Memory.t) m :
  In m mems ->
  exists a b,
    before ++ memories_section mems = a ++ nl ++ memory_line m ++ nl ++ b.
Proof.
  intros Hin.
  destruct (in_split m mems Hin) as (l1 & l2 & E).
  assert (Hs : memories_section mems
               = (nl ++ nl ++ "User preferences and memories:" ++ nl)
                 ++ flat (map (fun m => memory_line m ++ nl) mems)).
  { destruct mems; [destruct l1; discriminate|].
    unfold memories_section. now rewrite !append_assoc. }
  rewrite Hs, E, map_app, flat_app. cbn [map flat fold_right].
  destruct (flat_lines_end l1
              (before ++ nl ++ nl ++ "User preferences and memories:"))
    as (x & Hx).
  exists x, (flat (map (fun m => memory_line m ++ nl) l2)).
  rewrite <- (append_assoc x nl), <- Hx.
  unfold flat. now rewrite !append_assoc.
Qed.

Lemma In_insert_desc {A} (k : A -> nat) (x y : A) (l : list A) :
  In y (insert_desc k x l) <-> y = x \/ In y l.
Proof.
  induction l as [|z l IH]; simpl.
  - intuition.
  - destruct (k z <=? k x)%nat; simpl; [intuition|].
    rewrite IH. intuition.
Qed.

Lemma In_order_desc {A} (k : A -> nat) (y : A) (l : list A) :
  In y (order_desc k l) <-> In y l.
Proof.
  induction l as [|x l IH]; simpl; [reflexivity|].
  rewrite In_insert_desc, IH. intuition.
Qed.

Lemma no_lf_memory_line m :
  no_lf (Memory.key m) = true -> no_lf (Memory.value m) = true ->
  no_lf (memory_line m) = true.
Proof.
  intros Hk Hv. unfold memory_line.
  rewrite !no_lf_app, Hk, Hv. reflexivity.
Qed.

(** C9, as the code has it: the facts section is a header followed by
    one line "- key: value" per fact, and is absent without facts; when
    the store answers the read of the facts, the prompt dispatched for a
    valid chat request of a user contains, in its context block, the line
    "- key: value" of every fact of that user (key and value without line
    feed). *)
Theorem facts_rendered_as_bulleted_lines :
  forall W d message userId stream m,
    truthy message = true ->
    truthy userId = true ->
    reachable W = true ->
    model_listed W = true ->
    select_memories_fault W = Healthy ->
    In m (memories d) ->
    Memory.user_id m = userId ->
    no_lf (Memory.key m) = true ->
    no_lf (Memory.value m) = true ->
    let t := fst (run (post_chat W (mkChat (Some message) (Some userId) stream))
                    d) in
    (forall uid convs mems,
       buildMemoryContext uid convs mems
       = buildMemoryContext uid convs [] ++ memories_section mems)
    /\ memories_section [] = ""
    /\ exists context,
         dispatched t = [fullPrompt context message]
         /\ has_line context ("- " ++ Memory.key m ++ ": " ++ Memory.value m)
            = true
         /\ has_line (fullPrompt context message)
              ("- " ++ Memory.key m ++ ": " ++ Memory.value m) = true.
Proof.
  intros W d message userId stream m Hm Hu Hup Hmodel Hsel Hin Huser Hk Hv t.
  split.
  { intros uid convs mems.
    rewrite !buildMemoryContext_sections. simpl memories_section at 2.
    now rewrite append_empty_r. }
  split; [reflexivity|].
  exists (assembled_context W d userId).
  split; [apply chat_dispatches; assumption|].
  assert (Hfact : In m (facts W d userId)).
  { unfold facts. rewrite Hsel. apply In_order_desc, filter_In.
    split; [exact Hin|]. rewrite Huser. apply String.eqb_refl. }
  pose proof (no_lf_memory_line m Hk Hv) as Hline.
  fold (memory_line m).
  unfold assembled_context. rewrite buildMemoryContext_sections.
  split.
  - destruct (memories_section_line
                (history_section
                   (skipn (length (recent W d userId 5) - 5)
                      (recent W d userId 5)))
                (facts W d userId) m Hfact) as (a & b & E).
    rewrite E. now apply has_line_between.
  - unfold fullPrompt.
    destruct (memories_section_line
                (systemPrompt ++ nl ++ nl
                 ++ history_section
                      (skipn (length (recent W d userId 5) - 5)
                         (recent W d userId 5)))
                (facts W d userId) m Hfact) as (a & b & E).
    rewrite !append_assoc in E.
    rewrite !append_assoc.
    set (rest := nl ++ nl ++ "User: " ++ message ++ nl ++ "Hue:").
    assert (E' : systemPrompt ++ nl ++ nl
                 ++ history_section
                      (skipn (length (recent W d userId 5) - 5)
                         (recent W d userId 5))
                 ++ memories_section (facts W d userId) ++ rest
                 = a ++ nl ++ memory_line m ++ nl ++ (b ++ rest)).
    { rewrite <- !append_assoc. rewrite <- !append_assoc in E.
      now rewrite E. }
    rewrite E'. now apply has_line_between.
Qed.

Lemma facts_rendered_as_bulleted_lines_witness :
  let t := fst (run (post_chat world_ok (ask None)) db_color) in
  In (Memory.mk 0 "u1" "color" "blue" 1 0) (memories db_color)
  /\ exists context,
       dispatched t = [fullPrompt context "what is my favorite color"]
       /\ has_line context "- color: blue" = true
       /\ has_line (fullPrompt context "what is my favorite color")
            "- color: blue" = true.
Proof.
  assert (Hin : In (Memory.mk 0 "u1" "color" "blue" 1 0) (memories db_color))
    by (left; reflexivity).
  split; [exact Hin|].
  destruct (facts_rendered_as_bulleted_lines world_ok db_color
              "what is my favorite color" "u1" None
              (Memory.mk 0 "u1" "color" "blue" 1 0)
              eq_refl eq_refl eq_refl eq_refl eq_refl Hin
              eq_refl eq_refl eq_refl)
    as (_ & _ & context & Hd & Hc & Hp).
  exists context. split; [exact Hd|]. split; [exact Hc|exact Hp].
Defined.

(** C9 as stated fails in the scenario of the specification: after u1
    stored color = blue, no line of the prompt dispatched for u1 is
    "color: blue"; the line is "- color: blue".  And when the store does
    not answer the read, the fact is not in the prompt at all. *)
Lemma prompt_of_u1_has_no_line_color_blue :
  (let t := fst (run (post_chat world_ok (ask None)) db_color) in
   memories db_color = [Memory.mk 0 "u1" "color" "blue" 1 0]
   /\ dispatched t
      = [fullPrompt (buildMemoryContext "u1" [] (memories db_color))
           "what is my favorite color"]
   /\ forallb (fun p => has_line p "color: blue") (dispatched t) = false
   /\ forallb (fun p => has_line p "- color: blue") (dispatched t) = true)
  /\
  (let t := fst (run (post_chat world_store_down (ask None)) db_color) in
   dispatched t = [fullPrompt "" "what is my favorite color"]
   /\ forallb (fun p => includes p "color: blue") (dispatched t) = false).
Proof.
  cbv zeta. repeat split.
Qed.

(* ------------------------------------------------------------------ *)
(** ** Small checks of the embedding *)

Example slice_last_five_of_seven :
  slice (-5) [1; 2; 3; 4; 5; 6; 7] = [3; 4; 5; 6; 7].
Proof. reflexivity. Qed.

Example trim_both_ends : trim ("  a b " ++ nl) = "a b".
Proof. reflexivity. Qed.

Example split_keeps_empty_lines :
  split_lf ("a" ++ nl ++ nl ++ "b") = ["a"; ""; "b"].
Proof. reflexivity. Qed.

Example context_of_two_exchanges_and_a_fact :
  buildMemoryContext "u1" [exchange 2; exchange 1]
    [Memory.mk 0 "u1" "color" "blue" 1 0]
  = nl ++ nl ++ "Recent conversation history:" ++ nl
    ++ "1. User: m2" ++ nl ++ "   Hue: r2" ++ nl
    ++ "2. User: m1" ++ nl ++ "   Hue: r1" ++ nl
    ++ nl ++ nl ++ "User preferences and memories:" ++ nl
    ++ "- color: blue" ++ nl.
Proof. reflexivity. Qed.

Example empty_context : buildMemoryContext "u1" [] [] = "".
Proof. reflexivity. Qed.

Example stream_skips_bad_lines_and_stops_at_done :
  drain world_ok "any prompt" = ([" Blue"; ". "], Returned).
Proof. reflexivity. Qed.

Example stream_breaks_after_a_chunk :
  drain world_broken_stream "any prompt" = ([" Bl"], Threw "socket hang up").
Proof. reflexivity. Qed.

(* ------------------------------------------------------------------ *)
(** ** ollamaStream: lines, reads and the end of the stream *)

Lemma process_lines_app parse l1 l2 :
  process_lines parse (l1 ++ l2)%list
  = (if snd (process_lines parse l1) then process_lines parse l1
     else ((fst (process_lines parse l1)
            ++ fst (process_lines parse l2))%list,
           snd (process_lines parse l2))).
Proof.
  induction l1 as [|line l1 IH]; cbn [app process_lines].
  - cbn. now destruct (process_lines parse l2).
  - destruct (truthy (trim line)); [|exact IH].
    destruct (parse line) as [data|]; [|exact IH].
    destruct (OllamaStreamResponse.done data); [reflexivity|].
    rewrite IH.
    destruct (process_lines parse l1) as [y1 [|]]; cbn [fst snd];
      [reflexivity|].
    destruct (process_lines parse l2) as [y2 r2]. reflexivity.
Qed.

Lemma split_lf_app (a b : string) :
  split_lf (a ++ b)
  = (removelast (split_lf a) ++ split_lf (last (split_lf a) "" ++ b))%list.
Proof.
  induction a as [|c a IH].
  - reflexivity.
  - cbn [append split_lf].
    pose proof (split_lf_nonempty a) as Hne.
    destruct (Ascii.eqb c LF) eqn:Ec.
    + rewrite IH.
      destruct (split_lf a) as [|l0 ls]; [contradiction|reflexivity].
    + rewrite IH.
      destruct (split_lf a) as [|l0 [|x ls]]; [contradiction| |].
      * cbn [removelast last app append split_lf]. rewrite Ec.
        pose proof (split_lf_nonempty (l0 ++ b)) as Hne'.
        destruct (split_lf (l0 ++ b)); [contradiction|reflexivity].
      * reflexivity.
Qed.

Lemma last_split_lf_no_lf (s : string) : no_lf (last (split_lf s) "") = true.
Proof.
  induction s as [|c s IH]; [reflexivity|].
  cbn [split_lf].
  pose proof (split_lf_nonempty s) as Hne.
  destruct (Ascii.eqb c LF) eqn:Ec.
  - destruct (split_lf s) as [|l0 ls]; [contradiction|exact IH].
  - destruct (split_lf s) as [|l0 [|x ls]]; [contradiction| |exact IH].
    cbn [last] in *. cbn [no_lf]. now rewrite Ec, IH.
Qed.

Lemma removelast_app_nonempty {A} (l1 l2 : list A) :
  l2 <> [] -> removelast (l1 ++ l2) = (l1 ++ removelast l2)%list.
Proof. intros H. now apply removelast_app. Qed.

Lemma read_loop_closed_form parse reads fin : forall buffer,
  no_lf buffer = true ->
  read_loop parse buffer reads fin
  = (fst (process_lines parse
            (removelast (split_lf (buffer ++ flat reads)))),
     if snd (process_lines parse
               (removelast (split_lf (buffer ++ flat reads))))
     then Returned
     else match fin with
          | ReadDone => Returned
          | ReadThrows e => Threw e
          end).
Proof.
  induction reads as [|value reads IH]; intros buffer Hb.
  - cbn [read_loop flat fold_right]. rewrite append_empty_r.
    rewrite (split_lf_no_lf buffer Hb). cbn.
    destruct fin; reflexivity.
  - cbn [read_loop flat fold_right].
    fold (flat reads).
    rewrite <- append_assoc, (split_lf_app (buffer ++ value) (flat reads)).
    rewrite removelast_app_nonempty by apply split_lf_nonempty.
    rewrite process_lines_app.
    destruct (process_lines parse (removelast (split_lf (buffer ++ value))))
      as [ys [|]] eqn:Ep; cbn [fst snd]; [reflexivity|].
    rewrite (IH _ (last_split_lf_no_lf (buffer ++ value))).
    reflexivity.
Qed.

(** X1: what [ollamaStream] yields, and how it ends, depends only on the
    concatenation of the reads, not on where the network cut them: the
    yields are those of the complete lines of the whole text, and the
    text after the last line feed is never parsed. *)
Theorem stream_is_independent_of_chunking :
  forall parse reads fin,
    read_loop parse "" reads fin
    = (fst (process_lines parse (removelast (split_lf (flat reads)))),
       if snd (process_lines parse (removelast (split_lf (flat reads))))
       then Returned
       else match fin with
            | ReadDone => Returned
            | ReadThrows e => Threw e
            end).
Proof.
  intros parse reads fin.
  now rewrite (read_loop_closed_form parse reads fin "" eq_refl).
Qed.

(** X2: once a line with [done] has been yielded the generator returns:
    whatever is read after it, further fragments or a failure of the
    connection, changes neither the chunks nor the normal end. *)
Theorem stream_stops_at_done :
  forall parse reads more fin,
    snd (process_lines parse (removelast (split_lf (flat reads)))) = true ->
    read_loop parse "" (reads ++ more) fin
    = (fst (process_lines parse (removelast (split_lf (flat reads)))),
       Returned).
Proof.
  intros parse reads more fin Hdone.
  rewrite (read_loop_closed_form parse (reads ++ more) fin "" eq_refl).
  change ("" ++ flat (reads ++ more)) with (flat (reads ++ more)).
  rewrite flat_app.
  rewrite (split_lf_app (flat reads) (flat more)).
  rewrite removelast_app_nonempty by apply split_lf_nonempty.
  rewrite process_lines_app, Hdone. now rewrite Hdone.
Qed.

Lemma stream_stops_at_done_witness :
  snd (process_lines toy_parse
         (removelast (split_lf (flat ["Ra" ++ nl ++ "D"; "b" ++ nl]))))
  = true
  /\ read_loop toy_parse ""
       (["Ra" ++ nl ++ "D"; "b" ++ nl] ++ ["Rc" ++ nl])
       (ReadThrows "socket hang up")
     = (["a"; "b"], Returned).
Proof.
  split; [reflexivity|].
  exact (stream_stops_at_done toy_parse ["Ra" ++ nl ++ "D"; "b" ++ nl]
           ["Rc" ++ nl] (ReadThrows "socket hang up") eq_refl).
Defined.

(** X3: a line that is blank or does not parse is skipped: removing it
    from the lines changes nothing of what the loop yields. *)
Theorem unparsable_line_is_skipped :
  forall parse before line after,
    truthy (trim line) = false \/ parse line = None ->
    process_lines parse (before ++ line :: after)%list
    = process_lines parse (before ++ after)%list.
Proof.
  intros parse before line after Hskip.
  rewrite (process_lines_app parse before (line :: after)),
    (process_lines_app parse before after).
  assert (E : process_lines parse (line :: after)
              = process_lines parse after).
  { cbn [process_lines].
    destruct Hskip as [H|H]; [now rewrite H|].
    rewrite H. now destruct (truthy (trim line)). }
  now rewrite E.
Qed.

Lemma unparsable_line_is_skipped_witness :
  toy_parse "not json" = None
  /\ process_lines toy_parse (["Ra"] ++ "not json" :: ["Db"])%list
     = process_lines toy_parse (["Ra"] ++ ["Db"])%list.
Proof.
  split; [reflexivity|].
  exact (unparsable_line_is_skipped toy_parse ["Ra"] "not json" ["Db"]
           (or_intror eq_refl)).
Defined.

(* ------------------------------------------------------------------ *)
(** ** POST /chat: every path *)

Lemma filter_terminal_writes l : filter is_terminal (map ResWrite l) = [].
Proof. induction l as [|x l IH]; [reflexivity|exact IH]. Qed.

Lemma status_code_app a b :
  status_code (a ++ b)%list
  = fold_left (fun code ev => match ev with ResStatus c => c | _ => code end)
      b (status_code a).
Proof. unfold status_code. apply fold_left_app. Qed.

Lemma status_code_writes l code :
  fold_left (fun code ev => match ev with ResStatus c => c | _ => code end)
    (map ResWrite l) code = code.
Proof. revert code. induction l as [|x l IH]; intros code; [reflexivity|apply IH]. Qed.

Lemma falsy_false (o : option string) :
  falsy o = false -> exists s, o = Some s /\ truthy s = true.
Proof.
  destruct o as [s|]; [|discriminate].
  simpl. intros H. exists s. split; [reflexivity|].
  now apply negb_false_iff.
Qed.

(** The seven ways a chat request can go, each with its whole trace. *)
Lemma chat_paths W req d :
  let r := run (post_chat W req) d in
  (r = ([ResStatus 400;
         ResJson (ErrorBody "Missing required fields: message and userId"
                    None)], d))
  \/ (exists text, r = ([FetchTags; ResStatus 503;
                         ResJson (ErrorBody text
                                    (status_error (status_value W)))], d))
  \/ (exists userId message,
        req_userId req = Some userId /\ req_message req = Some message
        /\ truthy userId = true /\ truthy message = true
        /\ reachable W = true /\ model_listed W = true
        /\ let prompt := assembled_prompt W d userId message in
           (wants_stream (req_stream req) = true
            /\ snd (drain W prompt) = Returned
            /\ r = ((chat_prefix userId ++ stream_headers
                     ++ [FetchGenerate prompt true]
                     ++ map ResWrite (fst (drain W prompt))
                     ++ [InsertConversation userId message
                           (flat (fst (drain W prompt)));
                         ResEnd])%list,
                    appended W d userId message (flat (fst (drain W prompt)))))
           \/ (wants_stream (req_stream req) = true
               /\ (exists e, snd (drain W prompt) = Threw e)
               /\ r = ((chat_prefix userId ++ stream_headers
                        ++ [FetchGenerate prompt true]
                        ++ map ResWrite (fst (drain W prompt))
                        ++ [ResWrite (nl ++ nl ++ modelError)%string;
                            ResEnd])%list,
                       d))
           \/ (wants_stream (req_stream req) = false
               /\ exists status_line response,
                    api_generate W prompt
                    = GenResponse true status_line (Ok response)
                    /\ r = ((chat_prefix userId
                             ++ [FetchGenerate prompt false;
                                 InsertConversation userId message
                                   (trim response);
                                 ResJson
                                   (ChatBody (trim response) "generated-id"
                                      (clock (appended W d userId message
                                                (trim response))))])%list,
                            tick (appended W d userId message
                                    (trim response))))
           \/ (wants_stream (req_stream req) = false
               /\ (forall status_line response,
                     api_generate W prompt
                     <> GenResponse true status_line (Ok response))
               /\ exists e,
                    r = ((chat_prefix userId
                          ++ [FetchGenerate prompt false; ResStatus 500;
                              ResJson (ErrorBody
                                         "Failed to process chat request"
                                         (Some e))])%list,
                         d))).
Proof.
  cbv zeta.
  destruct (falsy (req_message req) || falsy (req_userId req)) eqn:Hv.
  { left. now rewrite (chat_rejected W req d Hv). }
  right.
  destruct (reachable W) eqn:Hup.
  2: { left. eexists. now rewrite (chat_unreachable W req d Hv Hup). }
  destruct (model_listed W) eqn:Hmodel.
  2: { left. eexists. now rewrite (chat_model_missing W req d Hv Hup Hmodel). }
  right.
  apply orb_false_iff in Hv. destruct Hv as [Hm Hu].
  destruct (falsy_false _ Hm) as (message & Em & Htm).
  destruct (falsy_false _ Hu) as (userId & Eu & Htu).
  exists userId, message.
  repeat (split; [assumption || reflexivity|]).
  destruct req as [rm ru stream]. cbn [req_message req_userId req_stream] in *.
  subst rm ru.
  destruct (stream_flag_cases stream) as [Es|Es].
  - assert (Hw : wants_stream stream = true) by (rewrite Es; reflexivity).
    destruct (snd (drain W (assembled_prompt W d userId message)))
      as [|e] eqn:Eg.
    + left. split; [exact Hw|]. split; [reflexivity|].
      exact (chat_streamed W d message userId stream
               Htm Htu Hup Hmodel Es Eg).
    + right. left. split; [exact Hw|]. split; [now exists e|].
      exact (chat_stream_failed W d message userId stream
               Htm Htu Hup Hmodel e Es Eg).
  - assert (Hw : wants_stream stream = false)
      by (destruct stream as [[|]|]; [congruence|reflexivity|reflexivity]).
    right. right.
    destruct (api_generate W (assembled_prompt W d userId message))
      as [e|[|] sl [r|e0]] eqn:E.
    2: { left. split; [exact Hw|]. exists sl, r. split; [reflexivity|].
         exact (chat_answered W d message userId stream
                  Htm Htu Hup Hmodel sl r Es E). }
    all: right; split; [exact Hw|];
      (split; [intros sl' r'; discriminate|]);
      apply (chat_generate_failed W d message userId stream
               Htm Htu Hup Hmodel Es);
      intros sl' r'; rewrite E; discriminate.
Qed.

Lemma dispatched_app a b :
  dispatched (a ++ b)%list = (dispatched a ++ dispatched b)%list.
Proof. unfold dispatched. apply flat_map_app. Qed.

Lemma dispatched_map_ResWrite l : dispatched (map ResWrite l) = [].
Proof. induction l as [|x l IH]; [reflexivity|exact IH]. Qed.

Ltac trace_facts :=
  cbn [fst snd];
  unfold status_code;
  rewrite ?appends_app, ?dispatched_app, ?filter_app,
    ?appends_map_ResWrite, ?dispatched_map_ResWrite, ?filter_terminal_writes;
  repeat (rewrite ?fold_left_app, ?status_code_writes;
          cbn [chat_prefix stream_headers fold_left appends dispatched
               flat_map filter is_terminal app]).

(** X4: whatever the request, the backend and the store do, the handler
    of POST /chat completes the response exactly once, as the last thing
    it does, and the status is 200, 400, 500 or 503. *)
Theorem chat_responds_exactly_once :
  forall W req d,
    let t := fst (run (post_chat W req) d) in
    (exists before final,
       t = (before ++ [final])%list
       /\ is_terminal final = true
       /\ filter is_terminal before = [])
    /\ In (status_code t) [200; 400; 500; 503].
Proof.
  intros W req d t. subst t.
  destruct (chat_paths W req d)
    as [E|[(text & E)|(u & m & _ & _ & _ & _ & _ & _ & H)]].
  - rewrite E. split; [|right; left; reflexivity].
    exists [ResStatus 400]. eexists. repeat split.
  - rewrite E. split; [|right; right; right; left; reflexivity].
    exists [FetchTags; ResStatus 503]. eexists. repeat split.
  - cbv zeta in H.
    destruct H as [(_ & _ & E)|[(_ & _ & E)|[(_ & sl & r & _ & E)
                                            |(_ & _ & e & E)]]];
      rewrite E; cbn [fst].
    + split.
      * eexists. exists ResEnd. split; [|split; [reflexivity|]].
        { rewrite !app_assoc.
          change [InsertConversation u m
                    (flat (fst (drain W (assembled_prompt W d u m)))); ResEnd]
            with ([InsertConversation u m
                     (flat (fst (drain W (assembled_prompt W d u m))))]
                  ++ [ResEnd])%list.
          rewrite !app_assoc. reflexivity. }
        trace_facts. reflexivity.
      * trace_facts. left. reflexivity.
    + split.
      * eexists. exists ResEnd. split; [|split; [reflexivity|]].
        { rewrite !app_assoc.
          change [ResWrite (nl ++ nl ++ modelError)%string; ResEnd]
            with ([ResWrite (nl ++ nl ++ modelError)%string]
                  ++ [ResEnd])%list.
          rewrite !app_assoc. reflexivity. }
        trace_facts. reflexivity.
      * trace_facts. left. reflexivity.
    + split.
      * exists (chat_prefix u
                ++ [FetchGenerate (assembled_prompt W d u m) false;
                    InsertConversation u m (trim r)])%list.
        eexists. repeat split.
      * left. reflexivity.
    + split.
      * exists (chat_prefix u
                ++ [FetchGenerate (assembled_prompt W d u m) false;
                    ResStatus 500])%list.
        eexists. repeat split.
      * right. right. left. reflexivity.
Qed.

(** X5: a request answered with an error status leaves the database as it
    was and has sent nothing to the conversations table. *)
Theorem chat_error_changes_nothing :
  forall W req d,
    status_code (fst (run (post_chat W req) d)) <> 200 ->
    appends (fst (run (post_chat W req) d)) = []
    /\ snd (run (post_chat W req) d) = d.
Proof.
  intros W req d.
  destruct (chat_paths W req d)
    as [E|[(text & E)|(u & m & _ & _ & _ & _ & _ & _ & H)]].
  - rewrite E. intros _. split; reflexivity.
  - rewrite E. intros _. split; reflexivity.
  - cbv zeta in H.
    destruct H as [(_ & _ & E)|[(_ & _ & E)|[(_ & sl & r & _ & E)
                                            |(_ & _ & e & E)]]];
      rewrite E; intros Hs.
    + exfalso. apply Hs. trace_facts. reflexivity.
    + split; [trace_facts; reflexivity|reflexivity].
    + exfalso. apply Hs. reflexivity.
    + split; reflexivity.
Qed.

Lemma chat_error_changes_nothing_witness :
  status_code (fst (run (post_chat world_generate_fails (ask None)) db_color))
  = 500
  /\ appends (fst (run (post_chat world_generate_fails (ask None)) db_color))
     = []
  /\ snd (run (post_chat world_generate_fails (ask None)) db_color)
     = db_color.
Proof.
  split; [reflexivity|].
  apply (chat_error_changes_nothing world_generate_fails (ask None) db_color).
  discriminate.
Defined.

(** X6: no step is retried: one request calls the generation endpoint at
    most once and sends at most one insert to the conversations table. *)
Theorem chat_never_retries :
  forall W req d,
    let t := fst (run (post_chat W req) d) in
    length (dispatched t) <= 1 /\ length (appends t) <= 1.
Proof.
  intros W req d t. subst t.
  destruct (chat_paths W req d)
    as [E|[(text & E)|(u & m & _ & _ & _ & _ & _ & _ & H)]].
  - rewrite E. cbn. lia.
  - rewrite E. cbn. lia.
  - cbv zeta in H.
    destruct H as [(_ & _ & E)|[(_ & _ & E)|[(_ & sl & r & _ & E)
                                            |(_ & _ & e & E)]]];
      rewrite E; trace_facts; cbn [length]; lia.
Qed.

(** X7: a streaming request that passed validation and the backend check
    is always answered 200 as chunked plain text and ended, also when the
    backend fails at once or mid-flight: no error status is ever sent. *)
Theorem streaming_is_always_answered_200 :
  forall W d message userId,
    truthy message = true ->
    truthy userId = true ->
    reachable W = true ->
    model_listed W = true ->
    let t := fst (run (post_chat W
                         (mkChat (Some message) (Some userId) (Some true))) d)
    in
    status_code t = 200
    /\ error_text t = None
    /\ (exists chunks,
          t = (chat_prefix userId ++ stream_headers
               ++ FetchGenerate (assembled_prompt W d userId message) true
                  :: chunks ++ [ResEnd])%list).
Proof.
  intros W d message userId Hm Hu Hup Hmodel t. subst t.
  assert (He : forall l e,
             fold_left (fun e ev => match ev with
                                    | ResJson (ErrorBody text _) => Some text
                                    | _ => e
                                    end) (map ResWrite l) e = e).
  { induction l as [|x l IH]; intros e; [reflexivity|apply IH]. }
  destruct (snd (drain W (assembled_prompt W d userId message)))
    as [|e] eqn:Eg.
  - rewrite (chat_streamed W d message userId (Some true)
               Hm Hu Hup Hmodel eq_refl Eg).
    split; [trace_facts; reflexivity|]. split.
    + cbn [fst]. unfold error_text. rewrite !fold_left_app. cbn [fold_left].
      rewrite He. reflexivity.
    + cbn [fst].
      exists (map ResWrite (fst (drain W (assembled_prompt W d userId message)))
              ++ [InsertConversation userId message
                    (flat (fst (drain W
                                  (assembled_prompt W d userId message))))])%list.
      cbn [app]. rewrite <- !app_assoc. reflexivity.
  - rewrite (chat_stream_failed W d message userId (Some true)
               Hm Hu Hup Hmodel e eq_refl Eg).
    split; [trace_facts; reflexivity|]. split.
    + cbn [fst]. unfold error_text. rewrite !fold_left_app. cbn [fold_left].
      rewrite He. reflexivity.
    + cbn [fst].
      exists (map ResWrite (fst (drain W (assembled_prompt W d userId message)))
              ++ [ResWrite (nl ++ nl ++ modelError)%string])%list.
      cbn [app]. rewrite <- !app_assoc. reflexivity.
Qed.

Lemma streaming_is_always_answered_200_witness :
  let t := fst (run (post_chat world_generate_fails (ask (Some true)))
                  db_color) in
  snd (drain world_generate_fails
         (assembled_prompt world_generate_fails db_color "u1"
            "what is my favorite color"))
  = Threw "socket hang up"
  /\ status_code t = 200
  /\ error_text t = None.
Proof.
  split; [reflexivity|].
  destruct (streaming_is_always_answered_200 world_generate_fails db_color
              "what is my favorite color" "u1"
              eq_refl eq_refl eq_refl eq_refl) as (Hs & He & _).
  split; [exact Hs|exact He].
Defined.

(* ------------------------------------------------------------------ *)
(** ** checkOllamaStatus *)

(** X8: [checkOllamaStatus] never throws and asks the model listing once.
    A backend that is not running never has the model available and
    always carries an error text; the error text is absent exactly when
    the model is available; and the model is available exactly when the
    listing answers and holds the configured name itself. *)
Theorem status_is_consistent :
  forall W st,
    exists s,
      checkOllamaStatus W st = (Ok s, log st [FetchTags])
      /\ (isRunning s = false ->
          modelAvailable s = false /\ status_error s <> None)
      /\ (status_error s = None <-> modelAvailable s = true)
      /\ (modelAvailable s = true <->
          exists status_line names,
            api_tags W = TagsResponse true status_line (Ok (Some names))
            /\ In (OLLAMA_MODEL W) names).
Proof.
  intros W st. exists (status_value W).
  split; [apply run_checkOllamaStatus|].
  unfold status_value, checkOllamaStatus, bind. rewrite run_emit.
  destruct (api_tags W) as [e|[|] sl [[names|]|e]]; cbn.
  2: { destruct (existsb (fun name => (name =? OLLAMA_MODEL W)%string) names)
         eqn:Ex; cbn.
       - repeat split; try discriminate; try reflexivity.
         intros _. exists sl, names. split; [reflexivity|].
         apply existsb_exists in Ex. destruct Ex as (n & Hin & Hn).
         apply String.eqb_eq in Hn. now subst n.
       - repeat split; try discriminate.
         intros (sl' & names' & E & Hin). inversion E; subst.
         assert (Ht : existsb (fun name => (name =? OLLAMA_MODEL W)%string)
                        names' = true).
         { apply existsb_exists. exists (OLLAMA_MODEL W).
           split; [exact Hin|apply String.eqb_refl]. }
         congruence. }
  all: repeat split; try discriminate;
    intros (sl' & names' & E & Hin); try discriminate;
    inversion E; subst; destruct Hin.
Qed.

(* ------------------------------------------------------------------ *)
(** ** formatResponse and the context block: edge behaviour *)

Lemma trimStart_fixed (s : string) :
  starts_white s = false -> trimStart s = s.
Proof. destruct s as [|c s]; [reflexivity|]. simpl. now intros ->. Qed.

Lemma trimEnd_fixed (s : string) : ends_white s = false -> trimEnd s = s.
Proof.
  induction s as [|c s IH]; [reflexivity|].
  destruct s as [|x u].
  - simpl. now intros ->.
  - intros H. change (ends_white (String x u) = false) in H.
    change (trimEnd (String c (String x u)))
      with (match trimEnd (String x u) with
            | EmptyString =>
                if is_white_space c then EmptyString else String c EmptyString
            | t => String c t
            end).
    rewrite (IH H). reflexivity.
Qed.

(** X9: trimming is idempotent, so formatting an already formatted
    response, as the command-line client does with the reply of the
    server, changes nothing; a response is left as it is exactly when it
    neither starts nor ends with white space. *)
Theorem formatResponse_is_idempotent :
  forall response,
    formatResponse (formatResponse response true) true
    = formatResponse response true
    /\ trim (trim response) = trim response
    /\ (formatResponse response true = response
        <-> starts_white response = false /\ ends_white response = false).
Proof.
  intros response.
  destruct (trim_spec response) as (l & r & _ & _ & _ & Hs & He).
  assert (Hfix : forall s, starts_white s = false -> ends_white s = false ->
                           trim s = s).
  { intros s H1 H2. unfold trim. rewrite (trimStart_fixed s H1).
    now apply trimEnd_fixed. }
  unfold formatResponse. cbn [negb].
  split; [now apply Hfix|]. split; [now apply Hfix|].
  split.
  - intros E. rewrite <- E. split; assumption.
  - intros [H1 H2]. now apply Hfix.
Qed.

Lemma skipn_last_five_nonempty {A} (a : A) (l : list A) :
  skipn (length (a :: l) - 5) (a :: l) <> [].
Proof.
  intros E. apply (f_equal (@List.length _)) in E.
  rewrite length_skipn in E.
  change (List.length (a :: l)) with (S (List.length l)) in E.
  change (@List.length A []) with 0 in E. lia.
Qed.

(** X10: the context block is empty exactly when there is neither a
    conversation nor a fact; otherwise it starts with a blank line. *)
Theorem context_is_empty_iff_nothing_to_render :
  forall userId convs mems,
    (buildMemoryContext userId convs mems = "" <-> convs = [] /\ mems = [])
    /\ (buildMemoryContext userId convs mems <> "" ->
        exists rest,
          buildMemoryContext userId convs mems = nl ++ nl ++ rest).
Proof.
  intros userId convs mems.
  rewrite buildMemoryContext_sections.
  destruct convs as [|c convs].
  - destruct mems as [|m mems].
    + split; [split; [auto|reflexivity]|]. intros H. now elim H.
    + split.
      * split; [discriminate|]. intros [_ H]. discriminate.
      * intros _. eexists. cbn [length skipn history_section append].
        unfold memories_section. reflexivity.
  - pose proof (skipn_last_five_nonempty c convs) as Hne.
    destruct (skipn (length (c :: convs) - 5) (c :: convs)) as [|w ws];
      [contradiction|].
    split.
    + split; [discriminate|]. intros [H _]. discriminate.
    + intros _. eexists. unfold history_section.
      rewrite !append_assoc. reflexivity.
Qed.

(* ------------------------------------------------------------------ *)
(** ** Facts: store, recall, delete *)

Import MemoryRest.

Lemma eval_storeMemory W userId key value d :
  exists logged d',
    storeMemory W userId key value (mkSt d [])
    = (Ok logged, mkSt d' [UpsertMemory userId key value])
    /\ (memories d' = memories d /\ logged = None
        \/ upsert_memory_fault W = Healthy
           /\ existsb (same_user_key userId key) (memories d) = false
           /\ exists row,
                logged = Some row
                /\ memories d' = (memories d ++ [row])%list
                /\ Memory.user_id row = userId /\ Memory.key row = key
                /\ Memory.value row = value).
Proof.
  unfold storeMemory, upsert_memory, try_catch, bind, now.
  rewrite run_emit. cbn [db trace log].
  destruct (upsert_memory_fault W); cbv beta iota zeta.
  - unfold get_db, pg_upsert_memory, log. cbn [db memories].
    destruct (existsb (same_user_key userId key) (memories d)) eqn:Htaken.
    + eexists. eexists. split; [reflexivity|]. left. split; reflexivity.
    + eexists. eexists. split; [reflexivity|]. right.
      split; [reflexivity|]. split; [reflexivity|].
      eexists. split; [reflexivity|]. cbn [memories]. repeat split.
  - eexists. eexists. split; [reflexivity|]. left. split; reflexivity.
  - eexists. eexists. split; [reflexivity|]. left. split; reflexivity.
Qed.

(** X11: POST /memories/:userId never answers 500.  Without a key or a
    value it answers 400 and does not contact the store; otherwise it
    sends one upsert and answers 200, with a null memory and unchanged
    facts whenever the store did not accept the row. *)
Theorem post_memories_never_answers_500 :
  forall W userId key value d,
    let r := run (post_memories W userId key value) d in
    (falsy key || falsy value = true ->
     status_code (fst r) = 400
     /\ filter is_store_event (fst r) = []
     /\ snd r = d)
    /\ (falsy key || falsy value = false ->
        exists memory,
          fst r = [UpsertMemory userId (text key) (text value);
                   ResJson (MemoryBody memory)]
          /\ status_code (fst r) = 200
          /\ (memory = None -> memories (snd r) = memories d)
          /\ (upsert_memory_fault W <> Healthy -> memory = None))
    /\ status_code (fst r) <> 500.
Proof.
  intros W userId key value d r. subst r.
  unfold run, post_memories, try_catch, bind.
  destruct (falsy key || falsy value) eqn:Hv.
  - unfold res_status, res_json. rewrite !run_emit. cbn.
    repeat split; try discriminate.
  - destruct (eval_storeMemory W userId (text key) (text value) d)
      as (logged & d' & E & H).
    rewrite E. unfold res_json. rewrite run_emit.
    cbn [fst snd log db trace app].
    split; [discriminate|]. split; [|cbn; discriminate].
    intros _. exists logged. split; [reflexivity|]. split; [reflexivity|].
    destruct H as [[Hm Hl]|(Hh & _ & row & Hl & Hm & _)].
    + split; [intros _; exact Hm|intros _; exact Hl].
    + split; [rewrite Hl; discriminate|intros Hn; contradiction].
Qed.

Lemma eval_recallMemory f userId key d :
  eval (recallMemory f userId key) d
  = (Ok (match f with
         | Healthy =>
             match map Memory.value
                     (filter (same_user_key userId key) (memories d)) with
             | [value] => if truthy value then Some value else None
             | _ => None
             end
         | _ => None
         end), d).
Proof.
  unfold eval, recallMemory, select_memory_value, try_catch, bind.
  destruct f; try reflexivity.
  unfold get_db, ret, single. cbn [db fst snd].
  destruct (map Memory.value (filter (same_user_key userId key) (memories d)))
    as [|v [|v' l]]; reflexivity.
Qed.

Lemma same_user_key_true_iff userId key m :
  same_user_key userId key m = true
  <-> Memory.user_id m = userId /\ Memory.key m = key.
Proof.
  unfold same_user_key. now rewrite andb_true_iff, !String.eqb_eq.
Qed.

Lemma filter_none {A} (p : A -> bool) (l : list A) :
  (forall x, In x l -> p x = false) -> filter p l = [].
Proof.
  induction l as [|x l IH]; intros H; [reflexivity|].
  cbn [filter]. rewrite (H x (or_introl eq_refl)).
  apply IH. intros y Hy. apply H. now right.
Qed.

(** Under the unique constraint the rows of a user and key are the one
    row, if any. *)
Lemma unique_row mems userId key m :
  pairs_unique mems ->
  In m mems ->
  same_user_key userId key m = true ->
  filter (same_user_key userId key) mems = [m].
Proof.
  unfold pairs_unique.
  induction mems as [|x mems IH]; intros Hu Hin Hm; [destruct Hin|].
  cbn [map] in Hu. apply NoDup_cons_iff in Hu. destruct Hu as [Hx Hu].
  apply same_user_key_true_iff in Hm. destruct Hm as [Hmu Hmk].
  cbn [filter].
  destruct Hin as [E|Hin].
  - subst x.
    assert (Hs : same_user_key userId key m = true)
      by (apply same_user_key_true_iff; now split).
    rewrite Hs. f_equal. apply filter_none.
    intros y Hy. destruct (same_user_key userId key y) eqn:Ey; [|reflexivity].
    exfalso. apply Hx. apply in_map_iff. exists y. split; [|exact Hy].
    apply same_user_key_true_iff in Ey. destruct Ey as [-> ->].
    now rewrite Hmu, Hmk.
  - destruct (same_user_key userId key x) eqn:Ex.
    + exfalso. apply Hx. apply in_map_iff. exists m. split; [|exact Hin].
      apply same_user_key_true_iff in Ex. destruct Ex as [-> ->].
      now rewrite Hmu, Hmk.
    + apply IH; [exact Hu|exact Hin|].
      apply same_user_key_true_iff. now split.
Qed.

Lemma recallMemory_characterized :
  forall f userId key d,
    pairs_unique (memories d) ->
    exists recalled,
      eval (recallMemory f userId key) d = (Ok recalled, d)
      /\ forall value,
           recalled = Some value
           <-> (f = Healthy /\ truthy value = true
                /\ exists m, In m (memories d)
                             /\ Memory.user_id m = userId
                             /\ Memory.key m = key
                             /\ Memory.value m = value).
Proof.
  intros f userId key d Hu.
  eexists. split; [apply eval_recallMemory|].
  intros value.
  destruct f as [|e|e];
    try (split; [discriminate|intros (H & _); discriminate]).
  destruct (filter (same_user_key userId key) (memories d)) as [|m l] eqn:Ef.
  - cbn [map]. split; [discriminate|].
    intros (_ & _ & m & Hin & Hmu & Hmk & _).
    assert (Hf : In m (filter (same_user_key userId key) (memories d))).
    { apply filter_In. split; [exact Hin|].
      apply same_user_key_true_iff. now split. }
    rewrite Ef in Hf. destruct Hf.
  - assert (Hm : In m (memories d) /\ same_user_key userId key m = true).
    { apply filter_In. rewrite Ef. now left. }
    destruct Hm as [Hin Hs].
    rewrite (unique_row _ _ _ _ Hu Hin Hs) in Ef. inversion Ef; subst l.
    cbn [map].
    apply same_user_key_true_iff in Hs. destruct Hs as [Hmu Hmk].
    split.
    + destruct (truthy (Memory.value m)) eqn:Ht; [|discriminate].
      intros E. inversion E; subst value.
      split; [reflexivity|]. split; [exact Ht|].
      exists m. repeat split; assumption.
    + intros (_ & Ht & m' & Hin' & Hmu' & Hmk' & Hv').
      assert (Hs' : same_user_key userId key m' = true)
        by (apply same_user_key_true_iff; now split).
      pose proof (unique_row _ _ _ _ Hu Hin' Hs') as E'.
      assert (Hs : same_user_key userId key m = true)
        by (apply same_user_key_true_iff; now split).
      rewrite (unique_row _ _ _ _ Hu Hin Hs) in E'.
      inversion E'; subst m'. rewrite Hv', Ht. now rewrite <- Hv'.
Qed.


(** X12: [recallMemory] never throws and changes nothing.  It returns a
    value exactly when the store answers and the user has a fact under
    that key with a non-empty value; a missing key, an empty value and a
    failure of the store all read as null. *)
Theorem recallMemory_reads_the_fact_or_null :
  forall f userId key d,
    pairs_unique (memories d) ->
    exists recalled,
      eval (recallMemory f userId key) d = (Ok recalled, d)
      /\ (forall value,
            recalled = Some value
            <-> (f = Healthy /\ truthy value = true
                 /\ exists m, In m (memories d)
                              /\ Memory.user_id m = userId
                              /\ Memory.key m = key
                              /\ Memory.value m = value))
      /\ (f <> Healthy -> recalled = None)
      /\ (existsb (same_user_key userId key) (memories d) = false ->
          recalled = None)
      /\ (forall m, In m (memories d) ->
                    same_user_key userId key m = true ->
                    Memory.value m = "" -> recalled = None).
Proof.
  intros f userId key d Hu.
  destruct (recallMemory_characterized f userId key d Hu)
    as (recalled & E & Hiff).
  exists recalled. split; [exact E|]. split; [exact Hiff|].
  assert (Hnone : forall P : Prop,
             (forall value, recalled = Some value -> P -> False) ->
             P -> recalled = None).
  { intros P H HP. destruct recalled as [value|]; [|reflexivity].
    exfalso. exact (H value eq_refl HP). }
  split; [|split].
  - apply Hnone. intros value Hr Hf. apply Hiff in Hr. tauto.
  - apply Hnone. intros value Hr Hfree. apply Hiff in Hr.
    destruct Hr as (_ & _ & m & Hin & Hmu & Hmk & _).
    assert (Ht : existsb (same_user_key userId key) (memories d) = true).
    { apply existsb_exists. exists m. split; [exact Hin|].
      apply same_user_key_true_iff. now split. }
    congruence.
  - intros m Hin Hs Hempty.
    destruct recalled as [value|]; [|reflexivity]. exfalso.
    destruct (proj1 (Hiff value) eq_refl)
      as (_ & Ht & m' & Hin' & Hmu' & Hmk' & Hv').
    assert (Hs' : same_user_key userId key m' = true)
      by (apply same_user_key_true_iff; now split).
    pose proof (unique_row _ _ _ _ Hu Hin Hs) as E1.
    rewrite (unique_row _ _ _ _ Hu Hin' Hs') in E1.
    inversion E1; subst m'. rewrite Hempty in Hv'. subst value.
    discriminate.
Qed.

Lemma recallMemory_reads_the_fact_or_null_witness :
  pairs_unique (memories db_color)
  /\ eval (recallMemory Healthy "u1" "color") db_color
     = (Ok (Some "blue"), db_color)
  /\ eval (recallMemory Healthy "u1" "shape") db_color = (Ok None, db_color)
  /\ eval (recallMemory (ReplyError "down") "u1" "color") db_color
     = (Ok None, db_color).
Proof.
  assert (Hu : pairs_unique (memories db_color)).
  { unfold pairs_unique. cbn. constructor; [intros []|constructor]. }
  split; [exact Hu|].
  destruct (recallMemory_reads_the_fact_or_null Healthy "u1" "color"
              db_color Hu) as (recalled & E & _).
  split; [|split; reflexivity].
  rewrite E. f_equal. rewrite eval_recallMemory in E. now inversion E.
Defined.

Lemma filter_app_one {A} (p : A -> bool) (l : list A) (x : A) :
  filter p (l ++ [x])%list
  = (filter p l ++ (if p x then [x] else []))%list.
Proof. rewrite filter_app. reflexivity. Qed.

Lemma existsb_false_filter {A} (p : A -> bool) (l : list A) :
  existsb p l = false -> filter p l = [].
Proof.
  intros H. apply filter_none. intros x Hx.
  destruct (p x) eqn:E; [|reflexivity].
  assert (Ht : existsb p l = true) by (apply existsb_exists; now exists x).
  congruence.
Qed.

Lemma store_then_recall :
  forall W userId key value d,
    upsert_memory_fault W = Healthy ->
    existsb (same_user_key userId key) (memories d) = false ->
    truthy value = true ->
    fst (eval (recallMemory Healthy userId key)
           (snd (eval (storeMemory W userId key value) d)))
    = Ok (Some value).
Proof.
  intros W userId key value d Hh Hfree Ht.
  destruct (eval_storeMemory W userId key value d)
    as (logged & d' & E & [[Hm Hl]|(_ & _ & row & Hl & Hm & Hru & Hrk & Hrv)]).
  - exfalso. revert E.
    unfold storeMemory, upsert_memory, try_catch, bind, now.
    rewrite run_emit. cbn [db trace log]. rewrite Hh. cbv beta iota zeta.
    unfold get_db, pg_upsert_memory, log. cbn [db memories].
    rewrite Hfree. intros E. inversion E. subst logged. discriminate.
  - unfold eval at 2. rewrite E. cbn [snd db].
    rewrite eval_recallMemory. cbn [fst]. rewrite Hm, filter_app_one.
    rewrite (existsb_false_filter _ _ Hfree).
    assert (Hs : same_user_key userId key row = true)
      by (apply same_user_key_true_iff; now split).
    rewrite Hs. cbn [app map]. now rewrite Hrv, Ht.
Qed.


(** X13: with an accepting store, [storeMemory] under a key the user does
    not have yet, with a non-empty value, returns the new row, the table
    grows by exactly that row, and the key reads back as that value. *)
Theorem stored_fact_is_recalled :
  forall W userId key value d,
    upsert_memory_fault W = Healthy ->
    existsb (same_user_key userId key) (memories d) = false ->
    truthy value = true ->
    let stored := eval (storeMemory W userId key value) d in
    (exists row,
       fst stored = Ok (Some row)
       /\ Memory.value row = value
       /\ memories (snd stored) = (memories d ++ [row])%list)
    /\ fst (eval (recallMemory Healthy userId key) (snd stored))
       = Ok (Some value).
Proof.
  intros W userId key value d Hh Hfree Ht stored. subst stored.
  split; [|now apply store_then_recall].
  destruct (eval_storeMemory W userId key value d)
    as (logged & d' & E & [[Hm Hl]|(_ & _ & row & Hl & Hm & _ & _ & Hrv)]).
  - exfalso. revert E.
    unfold storeMemory, upsert_memory, try_catch, bind, now.
    rewrite run_emit. cbn [db trace log]. rewrite Hh. cbv beta iota zeta.
    unfold get_db, pg_upsert_memory, log. cbn [db memories].
    rewrite Hfree. intros E. inversion E. subst logged. discriminate.
  - exists row. unfold eval. rewrite E. cbn [fst snd db].
    rewrite Hl. repeat split; assumption.
Qed.

Lemma stored_fact_is_recalled_witness :
  fst (eval (recallMemory Healthy "u1" "shape")
         (snd (eval (storeMemory world_ok "u1" "shape" "round") db_color)))
  = Ok (Some "round").
Proof.
  exact (proj2 (stored_fact_is_recalled world_ok "u1" "shape" "round"
                  db_color eq_refl eq_refl eq_refl)).
Defined.

Lemma eval_deleteMemory f userId key d :
  eval (deleteMemory f userId key) d
  = match f with
    | Healthy =>
        (Ok true,
         mkDb (conversations d)
           (filter (fun m => negb (same_user_key userId key m)) (memories d))
           (next_id d) (clock d))
    | _ => (Ok false, d)
    end.
Proof. destruct f; reflexivity. Qed.

Lemma filter_all {A} (p : A -> bool) (l : list A) :
  (forall x, In x l -> p x = true) -> filter p l = l.
Proof.
  induction l as [|x l IH]; intros H; [reflexivity|].
  cbn [filter]. rewrite (H x (or_introl eq_refl)). f_equal.
  apply IH. intros y Hy. apply H. now right.
Qed.

(** X14: [deleteMemory] never throws.  When the store answers it returns
    true, removes the facts of that user under that key and no other
    row, after which the key reads as null; deleting a key that is not
    there also returns true and changes nothing.  When the store fails it
    returns false and changes nothing. *)
Theorem deleteMemory_removes_that_fact_only :
  forall userId key d,
    let r := eval (deleteMemory Healthy userId key) d in
    fst r = Ok true
    /\ (forall m, In m (memories (snd r))
                  <-> In m (memories d)
                      /\ same_user_key userId key m = false)
    /\ conversations (snd r) = conversations d
    /\ fst (eval (recallMemory Healthy userId key) (snd r)) = Ok None
    /\ (existsb (same_user_key userId key) (memories d) = false ->
        snd r = d)
    /\ (forall e, eval (deleteMemory (ReplyError e) userId key) d
                  = (Ok false, d))
    /\ (forall e, eval (deleteMemory (CallThrows e) userId key) d
                  = (Ok false, d)).
Proof.
  intros userId key d r. subst r. rewrite eval_deleteMemory.
  cbn [fst snd memories conversations].
  split; [reflexivity|]. split.
  { intros m. rewrite filter_In, negb_true_iff. reflexivity. }
  split; [reflexivity|]. split.
  { rewrite eval_recallMemory. cbn [fst memories].
    rewrite filter_none; [reflexivity|].
    intros x Hx. apply filter_In in Hx. destruct Hx as [_ Hx].
    now apply negb_true_iff in Hx. }
  split.
  { intros Hfree. destruct d as [cs ms n c]. cbn [memories] in *.
    f_equal. apply filter_all. intros x Hx.
    destruct (same_user_key userId key x) eqn:E; [|reflexivity].
    assert (Ht : existsb (same_user_key userId key) ms = true)
      by (apply existsb_exists; now exists x).
    congruence. }
  split; intros e; reflexivity.
Qed.

Lemma store_then_recall_any W userId key value d :
  upsert_memory_fault W = Healthy ->
  existsb (same_user_key userId key) (memories d) = false ->
  (exists row,
     fst (eval (storeMemory W userId key value) d) = Ok (Some row)
     /\ Memory.user_id row = userId /\ Memory.key row = key
     /\ Memory.value row = value
     /\ memories (snd (eval (storeMemory W userId key value) d))
        = (memories d ++ [row])%list)
  /\ fst (eval (recallMemory Healthy userId key)
            (snd (eval (storeMemory W userId key value) d)))
     = Ok (if truthy value then Some value else None).
Proof.
  intros Hh Hfree.
  destruct (eval_storeMemory W userId key value d)
    as (logged & d' & E & [[Hm Hl]|(_ & _ & row & Hl & Hm & Hru & Hrk & Hrv)]).
  - exfalso. revert E.
    unfold storeMemory, upsert_memory, try_catch, bind, now.
    rewrite run_emit. cbn [db trace log]. rewrite Hh. cbv beta iota zeta.
    unfold get_db, pg_upsert_memory, log. cbn [db memories].
    rewrite Hfree. intros E. inversion E. subst logged. discriminate.
  - split.
    + exists row. unfold eval. rewrite E. cbn [fst snd db].
      rewrite Hl. repeat split; assumption.
    + unfold eval at 2. rewrite E. cbn [snd db].
      rewrite eval_recallMemory. cbn [fst]. rewrite Hm, filter_app_one.
      rewrite (existsb_false_filter _ _ Hfree).
      assert (Hs : same_user_key userId key row = true)
        by (apply same_user_key_true_iff; now split).
      rewrite Hs. cbn [app map]. now rewrite Hrv.
Qed.

(** X15: the way to change a stored value: after the fact is deleted, a
    store under the same key is accepted by an answering store, whatever
    the new value, and the table holds it; the key then reads as the new
    value when it is not empty, and as null when it is the empty
    text. *)
Theorem delete_then_store_replaces :
  forall W userId key value d,
    upsert_memory_fault W = Healthy ->
    let d1 := snd (eval (deleteMemory Healthy userId key) d) in
    let d2 := snd (eval (storeMemory W userId key value) d1) in
    (exists row,
       fst (eval (storeMemory W userId key value) d1) = Ok (Some row)
       /\ Memory.value row = value
       /\ (forall m, In m (memories d2) ->
                     same_user_key userId key m = true -> m = row))
    /\ fst (eval (recallMemory Healthy userId key) d2)
       = Ok (if truthy value then Some value else None)
    /\ (truthy value = true ->
        fst (eval (recallMemory Healthy userId key) d2) = Ok (Some value)).
Proof.
  intros W userId key value d Hh d1 d2.
  assert (Hfree : existsb (same_user_key userId key) (memories d1) = false).
  { subst d1. rewrite eval_deleteMemory. cbn [snd memories].
    destruct (existsb (same_user_key userId key)
                (filter (fun m => negb (same_user_key userId key m))
                   (memories d))) eqn:E; [|reflexivity].
    apply existsb_exists in E. destruct E as (x & Hx & Hs).
    apply filter_In in Hx. destruct Hx as [_ Hx].
    apply negb_true_iff in Hx. congruence. }
  destruct (store_then_recall_any W userId key value d1 Hh Hfree)
    as ((row & Er & _ & _ & Hrv & Hmem) & Hrecall).
  fold d2 in Hmem, Hrecall.
  split; [|split; [exact Hrecall|intros Ht; now rewrite Hrecall, Ht]].
  exists row. split; [exact Er|]. split; [exact Hrv|].
  intros m Hin Hs. rewrite Hmem in Hin. apply in_app_or in Hin.
  destruct Hin as [Hin|[E|[]]]; [|now symmetry].
  exfalso.
  assert (Ht : existsb (same_user_key userId key) (memories d1) = true)
    by (apply existsb_exists; now exists m).
  congruence.
Qed.

Lemma delete_then_store_replaces_witness :
  fst (eval (recallMemory Healthy "u1" "color")
         (snd (eval (storeMemory world_ok "u1" "color" "red") db_color)))
  = Ok (Some "blue")
  /\ fst (eval (recallMemory Healthy "u1" "color")
            (snd (eval (storeMemory world_ok "u1" "color" "red")
                    (snd (eval (deleteMemory Healthy "u1" "color")
                            db_color)))))
     = Ok (Some "red")
  /\ fst (eval (recallMemory Healthy "u1" "color")
            (snd (eval (storeMemory world_ok "u1" "color" "")
                    (snd (eval (deleteMemory Healthy "u1" "color")
                            db_color)))))
     = Ok None.
Proof.
  split; [reflexivity|]. split.
  - exact (proj2 (proj2 (delete_then_store_replaces world_ok "u1" "color"
                           "red" db_color eq_refl)) eq_refl).
  - exact (proj1 (proj2 (delete_then_store_replaces world_ok "u1" "color"
                           "" db_color eq_refl))).
Defined.

Lemma store_all_keeps_rows ops : forall d m,
  In m (memories d) -> In m (memories (store_all ops d)).
Proof.
  induction ops as [|[[[W userId] key] value] ops IH]; intros d m Hin.
  - exact Hin.
  - cbn [store_all fold_left]. apply IH.
    destruct (storeMemory_rows W userId key value d)
      as [E|(_ & row & E & _)]; cbv zeta in E; rewrite E;
      [exact Hin|apply in_or_app; now left].
Qed.

(** X16: the first value wins.  No sequence of calls of [storeMemory],
    in whatever worlds, changes or removes a stored fact: every row stays
    as it is, and a key that read as a value before reads as the same
    value after. *)
Theorem first_stored_value_wins :
  forall ops d userId key value,
    pairs_unique (memories d) ->
    fst (eval (recallMemory Healthy userId key) d) = Ok (Some value) ->
    (forall m, In m (memories d) -> In m (memories (store_all ops d)))
    /\ fst (eval (recallMemory Healthy userId key) (store_all ops d))
       = Ok (Some value).
Proof.
  intros ops d userId key value Hu Hr.
  split; [intros m; apply store_all_keeps_rows|].
  destruct (recallMemory_characterized Healthy userId key d Hu)
    as (recalled & E & Hiff).
  rewrite E in Hr. cbn [fst] in Hr. inversion Hr; subst recalled.
  destruct (proj1 (Hiff value) eq_refl) as (_ & Ht & m & Hin & Hmu & Hmk & Hv).
  pose proof (store_all_keeps_pairs_unique ops d Hu) as Hu'.
  destruct (recallMemory_characterized Healthy userId key
              (store_all ops d) Hu') as (recalled' & E' & Hiff').
  rewrite E'. cbn [fst]. f_equal. apply Hiff'.
  split; [reflexivity|]. split; [exact Ht|].
  exists m. split; [now apply store_all_keeps_rows|]. now repeat split.
Qed.

Lemma first_stored_value_wins_witness :
  fst (eval (recallMemory Healthy "u1" "color")
         (store_all [(world_ok, "u1", "color", "red");
                     (world_ok, "u2", "color", "green");
                     (world_ok, "u1", "color", "black")] db_color))
  = Ok (Some "blue").
Proof.
  assert (Hu : pairs_unique (memories db_color)).
  { unfold pairs_unique. cbn. constructor; [intros []|constructor]. }
  exact (proj2 (first_stored_value_wins
                  [(world_ok, "u1", "color", "red");
                   (world_ok, "u2", "color", "green");
                   (world_ok, "u1", "color", "black")]
                  db_color "u1" "color" "blue" Hu eq_refl)).
Defined.

Lemma pairs_unique_filter (p : Memory.t -> bool) mems :
  pairs_unique mems -> pairs_unique (filter p mems).
Proof.
  unfold pairs_unique.
  induction mems as [|x mems IH]; intros Hu; [exact Hu|].
  cbn [map] in Hu. apply NoDup_cons_iff in Hu. destruct Hu as [Hx Hu].
  cbn [filter]. destruct (p x); [|now apply IH].
  cbn [map]. apply NoDup_cons; [|now apply IH].
  intros Hin. apply Hx.
  apply in_map_iff in Hin. destruct Hin as (y & Ey & Hy).
  apply filter_In in Hy. apply in_map_iff. exists y. now split.
Qed.

(** X17: at most one fact per user and key, whatever is called: the
    constraint holds after every sequence of [storeMemory] and
    [deleteMemory] calls, whether the store accepts, refuses or drops
    each of them. *)
Theorem memory_ops_keep_pairs_unique :
  forall ops d,
    pairs_unique (memories d) ->
    pairs_unique (memories (apply_ops ops d)).
Proof.
  induction ops as [|op ops IH]; intros d Hu; [exact Hu|].
  cbn [apply_ops fold_left]. apply IH.
  destruct op as [W userId key value|f userId key]; cbn [apply_op].
  - unfold eval. cbn [snd].
    now apply storeMemory_keeps_pairs_unique.
  - rewrite eval_deleteMemory.
    destruct f; cbn [snd memories]; try exact Hu.
    now apply pairs_unique_filter.
Qed.

Lemma memory_ops_keep_pairs_unique_witness :
  pairs_unique (memories empty_db)
  /\ pairs_unique
       (memories (apply_ops [Store world_ok "u1" "color" "blue";
                             Store world_ok "u1" "color" "red";
                             Delete (ReplyError "down") "u1" "color";
                             Delete Healthy "u1" "color";
                             Store world_ok "u1" "color" "red"] empty_db)).
Proof.
  assert (Hu : pairs_unique (memories empty_db)) by constructor.
  split; [exact Hu|].
  exact (memory_ops_keep_pairs_unique _ empty_db Hu).
Defined.

(* ------------------------------------------------------------------ *)
(** ** Conversations: log, recall, and the next prompt *)

Lemma eval_recallRecentConversations W userId limit d :
  eval (recallRecentConversations W userId limit) d
  = (Ok (recent W d userId limit), d).
Proof.
  unfold eval. now rewrite run_recallRecentConversations.
Qed.

Lemma eval_logConversation W userId message response d :
  snd (eval (logConversation W userId message response None) d)
  = appended W d userId message response.
Proof.
  unfold eval.
  destruct (run_logConversation W userId message response (mkSt d []))
    as (logged & E).
  now rewrite E.
Qed.

Lemma order_desc_newest {A} (k : A -> nat) (x : A) (l : list A) :
  Forall (fun y => k y < k x) l ->
  order_desc k (l ++ [x])%list = x :: order_desc k l.
Proof.
  induction l as [|a l IH]; intros H; [reflexivity|].
  inversion H as [|a' l' Ha Hl]; subst.
  cbn [app order_desc fold_right].
  fold (order_desc k (l ++ [x])%list). fold (order_desc k l).
  rewrite (IH Hl). cbn [insert_desc].
  assert (E : (k x <=? k a)%nat = false) by (apply Nat.leb_gt; exact Ha).
  now rewrite E.
Qed.

Lemma recent_after_append W d userId message response n :
  insert_conversation_fault W = Healthy ->
  select_conversations_fault W = Healthy ->
  clock_ahead d ->
  recent W (appended W d userId message response) userId (S n)
  = Conversation.mk (next_id d) userId message response (clock d) []
    :: recent W d userId n.
Proof.
  intros Hi Hs Hc. unfold recent, appended. rewrite Hi, Hs.
  cbn [conversations]. rewrite filter_app. cbn [filter Conversation.user_id].
  rewrite String.eqb_refl.
  rewrite order_desc_newest; [reflexivity|].
  cbn [Conversation.created_at].
  apply Forall_forall. intros c Hin. apply filter_In in Hin.
  unfold clock_ahead in Hc. rewrite Forall_forall in Hc.
  apply Hc. tauto.
Qed.

Lemma clock_ahead_appended W d userId message response :
  clock_ahead d -> clock_ahead (appended W d userId message response).
Proof.
  unfold clock_ahead, appended. intros Hc.
  destruct (insert_conversation_fault W); [|exact Hc|exact Hc].
  cbn [conversations clock]. apply Forall_app. split.
  - eapply Forall_impl; [|exact Hc]. cbn. intros c Hlt. lia.
  - constructor; [cbn; lia|constructor].
Qed.

(** X18: a logged exchange is the first of the recent conversations: when
    the store accepts the insert, the recall of one more record gives
    the new record, with the message and the response as logged,
    followed by what the recall gave before. *)
Theorem logged_exchange_is_recalled_first :
  forall W d userId message response n,
    insert_conversation_fault W = Healthy ->
    select_conversations_fault W = Healthy ->
    clock_ahead d ->
    let d' := snd (eval (logConversation W userId message response None) d) in
    exists row before,
      fst (eval (recallRecentConversations W userId n) d) = Ok before
      /\ fst (eval (recallRecentConversations W userId (S n)) d')
         = Ok (row :: before)
      /\ Conversation.user_id row = userId
      /\ Conversation.message row = message
      /\ Conversation.response row = response
      /\ clock_ahead d'.
Proof.
  intros W d userId message response n Hi Hs Hc d'. subst d'.
  rewrite eval_logConversation.
  eexists. exists (recent W d userId n).
  rewrite !eval_recallRecentConversations. cbn [fst].
  split; [reflexivity|]. split.
  - now rewrite recent_after_append.
  - repeat split. now apply clock_ahead_appended.
Qed.

Lemma logged_exchange_is_recalled_first_witness :
  clock_ahead db_color
  /\ exists row,
       fst (eval (recallRecentConversations world_ok "u1" 5)
              (snd (eval (logConversation world_ok "u1" "hello" "hi" None)
                      db_color)))
       = Ok [row]
       /\ Conversation.message row = "hello"
       /\ Conversation.response row = "hi".
Proof.
  assert (Hc : clock_ahead db_color) by constructor.
  split; [exact Hc|].
  destruct (logged_exchange_is_recalled_first world_ok db_color "u1"
              "hello" "hi" 4 eq_refl eq_refl Hc)
    as (row & before & Hb & Hr & _ & Hm & Hp & _).
  assert (E : before = []) by (cbn in Hb; now inversion Hb).
  subst before. exists row. split; [exact Hr|]. split; assumption.
Defined.

Lemma assembled_context_tick W d userId :
  assembled_context W (tick d) userId = assembled_context W d userId.
Proof. reflexivity. Qed.

Lemma context_after_append W d userId message response :
  insert_conversation_fault W = Healthy ->
  select_conversations_fault W = Healthy ->
  clock_ahead d ->
  exists rest,
    assembled_context W (appended W d userId message response) userId
    = nl ++ nl ++ "Recent conversation history:" ++ nl
      ++ "1. User: " ++ message ++ nl
      ++ "   Hue: " ++ response ++ nl ++ rest.
Proof.
  intros Hi Hs Hc. unfold assembled_context.
  destruct (chat_history_is_most_recent_first W
              (appended W d userId message response) userId
              (facts W (appended W d userId message response) userId))
    as (_ & _ & E).
  cbv zeta in E. rewrite E. clear E.
  rewrite (recent_after_append W d userId message response 4 Hi Hs Hc).
  unfold history_section, numbered.
  cbn [length seq combine map flat fold_right fst snd].
  unfold history_entry at 1.
  cbn [Conversation.message Conversation.response].
  change (toString 1) with "1".
  eexists. rewrite !append_assoc. reflexivity.
Qed.

(** X19: memory across requests: after a chat exchange that completed,
    streamed or not, and whose insert the store accepted, and provided
    the store answers the read of the recent conversations and every
    conversation stored before is older than the clock, the context
    block of the next prompt of the same user starts its history with
    that exchange, numbered 1: the message as sent and the response as
    persisted. *)
Theorem next_prompt_starts_with_last_exchange :
  forall W d message userId,
    truthy message = true ->
    truthy userId = true ->
    reachable W = true ->
    model_listed W = true ->
    insert_conversation_fault W = Healthy ->
    select_conversations_fault W = Healthy ->
    clock_ahead d ->
    let prompt := assembled_prompt W d userId message in
    (forall stream status_line answer,
       stream <> Some true ->
       api_generate W prompt = GenResponse true status_line (Ok answer) ->
       let d' := snd (run (post_chat W
                             (mkChat (Some message) (Some userId) stream)) d)
       in
       exists rest,
         assembled_context W d' userId
         = nl ++ nl ++ "Recent conversation history:" ++ nl
           ++ "1. User: " ++ message ++ nl
           ++ "   Hue: " ++ trim answer ++ nl ++ rest)
    /\
    (snd (drain W prompt) = Returned ->
     let d' := snd (run (post_chat W
                           (mkChat (Some message) (Some userId) (Some true)))
                      d) in
     exists rest,
       assembled_context W d' userId
       = nl ++ nl ++ "Recent conversation history:" ++ nl
         ++ "1. User: " ++ message ++ nl
         ++ "   Hue: " ++ flat (fst (drain W prompt)) ++ nl ++ rest).
Proof.
  intros W d message userId Hm Hu Hup Hmodel Hi Hs Hc prompt.
  split.
  - intros stream sl answer Hst Hgen d'. subst d' prompt.
    rewrite (chat_answered W d message userId stream
               Hm Hu Hup Hmodel sl answer Hst Hgen).
    cbn [snd]. rewrite assembled_context_tick.
    now apply context_after_append.
  - intros Hret d'. subst d' prompt.
    rewrite (chat_streamed W d message userId (Some true)
               Hm Hu Hup Hmodel eq_refl Hret).
    cbn [snd]. now apply context_after_append.
Qed.

Lemma next_prompt_starts_with_last_exchange_witness :
  clock_ahead db_color
  /\ exists rest,
       assembled_context world_ok
         (snd (run (post_chat world_ok (ask None)) db_color)) "u1"
       = nl ++ nl ++ "Recent conversation history:" ++ nl
         ++ "1. User: what is my favorite color" ++ nl
         ++ "   Hue: Blue." ++ nl ++ rest.
Proof.
  assert (Hc : clock_ahead db_color) by constructor.
  split; [exact Hc|].
  destruct (next_prompt_starts_with_last_exchange world_ok db_color
              "what is my favorite color" "u1"
              eq_refl eq_refl eq_refl eq_refl eq_refl eq_refl Hc)
    as [Hn _].
  exact (Hn None "200 OK" ("  Blue. " ++ nl)
           ltac:(discriminate) eq_refl).
Defined.

(* ------------------------------------------------------------------ *)
(** ** One user's requests and another user's prompt *)

Lemma recent_other_user W1 W2 d v u message response n :
  v <> u ->
  recent W2 (appended W1 d v message response) u n = recent W2 d u n.
Proof.
  intros Hne. unfold recent, appended.
  destruct (insert_conversation_fault W1); try reflexivity.
  cbn [conversations]. rewrite filter_app. cbn [filter Conversation.user_id].
  apply String.eqb_neq in Hne. rewrite Hne. now rewrite app_nil_r.
Qed.

Lemma assembled_prompt_other_user W1 W2 d v u message response text :
  v <> u ->
  assembled_prompt W2 (appended W1 d v message response) u text
  = assembled_prompt W2 d u text.
Proof.
  intros Hne. unfold assembled_prompt, assembled_context.
  rewrite (recent_other_user W1 W2 d v u message response 5 Hne).
  assert (E : facts W2 (appended W1 d v message response) u = facts W2 d u).
  { unfold facts, appended.
    destruct (insert_conversation_fault W1); reflexivity. }
  now rewrite E.
Qed.

Lemma facts_other_user_rows W d d' u :
  filter (fun m => String.eqb (Memory.user_id m) u) (memories d')
  = filter (fun m => String.eqb (Memory.user_id m) u) (memories d) ->
  facts W d' u = facts W d u.
Proof. intros E. unfold facts. now rewrite E. Qed.

Lemma filter_user_after_delete v key u (l : list Memory.t) :
  v <> u ->
  filter (fun m => String.eqb (Memory.user_id m) u)
    (filter (fun m => negb (same_user_key v key m)) l)
  = filter (fun m => String.eqb (Memory.user_id m) u) l.
Proof.
  intros Hne.
  induction l as [|x l IH]; [reflexivity|].
  cbn [filter].
  destruct (String.eqb (Memory.user_id x) u) eqn:Ex.
  - assert (Hs : same_user_key v key x = false).
    { unfold same_user_key. apply String.eqb_eq in Ex. rewrite Ex.
      assert (Euv : String.eqb u v = false)
        by (apply String.eqb_neq; congruence).
      now rewrite Euv. }
    rewrite Hs. cbn [negb filter]. rewrite Ex. now rewrite IH.
  - destruct (negb (same_user_key v key x)); [|exact IH].
    cbn [filter]. rewrite Ex. exact IH.
Qed.

(** X20: what one user does never changes what is put before the model
    for another user: a chat request, a [storeMemory] or a
    [deleteMemory] of a user leaves the prompt assembled for any other
    user exactly as it was. *)
Theorem other_users_do_not_change_the_prompt :
  forall W W' d u text,
    (forall req,
       req_userId req <> Some u ->
       assembled_prompt W (snd (run (post_chat W' req) d)) u text
       = assembled_prompt W d u text)
    /\ (forall v key value,
          v <> u ->
          assembled_prompt W (snd (eval (storeMemory W' v key value) d)) u text
          = assembled_prompt W d u text)
    /\ (forall f v key,
          v <> u ->
          assembled_prompt W (snd (eval (deleteMemory f v key) d)) u text
          = assembled_prompt W d u text).
Proof.
  intros W W' d u text. split; [|split].
  - intros req Hne.
    destruct (chat_paths W' req d)
      as [E|[(t & E)|(v & m & Ev & _ & _ & _ & _ & _ & H)]];
      try (rewrite E; reflexivity).
    assert (Hvu : v <> u) by (intros ->; now apply Hne).
    cbv zeta in H.
    destruct H as [(_ & _ & E)|[(_ & _ & E)|[(_ & sl & r & _ & E)
                                            |(_ & _ & e & E)]]];
      rewrite E; cbn [snd]; try reflexivity.
    + now apply assembled_prompt_other_user.
    + unfold assembled_prompt. rewrite assembled_context_tick.
      now apply (assembled_prompt_other_user W' W d v u m (trim r) text).
  - intros v key value Hne.
    unfold assembled_prompt, assembled_context, eval. cbn [snd].
    assert (Er : recent W (db (snd (storeMemory W' v key value (mkSt d []))))
                   u 5 = recent W d u 5).
    { destruct (eval_storeMemory W' v key value d) as (l & d' & E & _).
      unfold recent. rewrite E. cbn [snd db].
      revert E. unfold storeMemory, upsert_memory, try_catch, bind, now.
      rewrite run_emit. cbn [db trace log].
      destruct (upsert_memory_fault W'); cbv beta iota zeta;
        try (intros E; inversion E; reflexivity).
      unfold get_db, pg_upsert_memory, log. cbn [db memories].
      destruct (existsb (same_user_key v key) (memories d));
        intros E; inversion E; reflexivity. }
    rewrite Er. f_equal. f_equal.
    apply facts_other_user_rows.
    destruct (storeMemory_rows W' v key value d)
      as [E|(_ & row & E & Hru & _)]; cbv zeta in E; rewrite E;
      [reflexivity|].
    rewrite filter_app. cbn [filter]. rewrite Hru.
    apply String.eqb_neq in Hne. rewrite Hne. now rewrite app_nil_r.
  - intros f v key Hne.
    rewrite eval_deleteMemory.
    destruct f; cbn [snd]; try reflexivity.
    unfold assembled_prompt, assembled_context.
    assert (Er : forall n,
               recent W (mkDb (conversations d)
                           (filter (fun m => negb (same_user_key v key m))
                              (memories d)) (next_id d) (clock d)) u n
               = recent W d u n) by reflexivity.
    rewrite Er. f_equal. f_equal.
    apply facts_other_user_rows. cbn [memories].
    now apply filter_user_after_delete.
Qed.

(* ------------------------------------------------------------------ *)
(** ** recallRecentConversations *)

Lemma most_recent_first_tail a l :
  most_recent_first (a :: l) = true -> most_recent_first l = true.
Proof.
  rewrite most_recent_first_cons. destruct l as [|b l]; [reflexivity|].
  intros H. apply andb_true_iff in H. tauto.
Qed.

Lemma most_recent_first_head a l :
  most_recent_first (a :: l) = true ->
  Forall (fun y => Conversation.created_at y <= Conversation.created_at a) l.
Proof.
  revert a. induction l as [|b l IH]; intros a H; [constructor|].
  rewrite most_recent_first_cons in H. apply andb_true_iff in H.
  destruct H as [Hba Hl]. apply Nat.leb_le in Hba.
  constructor; [exact Hba|].
  eapply Forall_impl; [|exact (IH b Hl)]. cbn. intros y Hy. lia.
Qed.

Lemma sorted_cut n : forall s x y,
  most_recent_first s = true ->
  In x (firstn n s) -> In y (skipn n s) ->
  Conversation.created_at y <= Conversation.created_at x.
Proof.
  induction n as [|n IH]; intros s x y Hs Hx Hy; [destruct Hx|].
  destruct s as [|a s]; [destruct Hx|].
  cbn [firstn skipn] in *.
  destruct Hx as [E|Hx].
  - subst x.
    pose proof (most_recent_first_head a s Hs) as Hall.
    rewrite Forall_forall in Hall. apply Hall.
    rewrite <- (firstn_skipn n s). apply in_or_app. now right.
  - apply (IH s); [now apply most_recent_first_tail in Hs|exact Hx|exact Hy].
Qed.

Lemma length_insert_desc {A} (k : A -> nat) (x : A) (l : list A) :
  length (insert_desc k x l) = S (length l).
Proof.
  induction l as [|y l IH]; [reflexivity|].
  cbn [insert_desc]. destruct (k y <=? k x)%nat; [reflexivity|].
  cbn [length]. now rewrite IH.
Qed.

Lemma length_order_desc {A} (k : A -> nat) (l : list A) :
  length (order_desc k l) = length l.
Proof.
  induction l as [|x l IH]; [reflexivity|].
  cbn [order_desc fold_right]. fold (order_desc k l).
  rewrite length_insert_desc. cbn [length]. now rewrite IH.
Qed.

(** X21: [recallRecentConversations] never throws and changes nothing.
    It returns at most [limit] records, all of them records of that user,
    the most recent first; no record of the user that it leaves out is
    newer than one it returns, and none is left out when the user has at
    most [limit]; when the store fails it returns the empty list. *)
Theorem recent_conversations_are_the_latest_of_the_user :
  forall W userId limit d,
    exists result,
      eval (recallRecentConversations W userId limit) d = (Ok result, d)
      /\ length result <= limit
      /\ (forall c, In c result ->
                    In c (conversations d) /\ Conversation.user_id c = userId)
      /\ most_recent_first result = true
      /\ (select_conversations_fault W = Healthy ->
          forall c, In c (conversations d) ->
                    Conversation.user_id c = userId ->
                    ~ In c result ->
                    limit < length
                              (filter (fun c => String.eqb
                                                  (Conversation.user_id c)
                                                  userId) (conversations d))
                    /\ forall r, In r result ->
                                 Conversation.created_at c
                                 <= Conversation.created_at r)
      /\ (select_conversations_fault W <> Healthy -> result = []).
Proof.
  intros W userId limit d.
  exists (recent W d userId limit).
  split; [apply eval_recallRecentConversations|].
  unfold recent.
  destruct (select_conversations_fault W) eqn:Ef.
  2,3: repeat split; try (cbn; lia); try contradiction; try discriminate;
       intros c [].
  set (rows := filter (fun c => String.eqb (Conversation.user_id c) userId)
                 (conversations d)).
  set (s := order_desc Conversation.created_at rows).
  assert (Hs : most_recent_first s = true)
    by apply order_desc_most_recent_first.
  assert (Hin : forall c, In c s <->
                          In c (conversations d)
                          /\ Conversation.user_id c = userId).
  { intros c. unfold s, rows.
    rewrite In_order_desc, filter_In, String.eqb_eq. reflexivity. }
  assert (Hlen : length s = length rows).
  { unfold s. apply length_order_desc. }
  split; [apply firstn_le_length|].
  split.
  { intros c Hc. apply Hin. rewrite <- (firstn_skipn limit s).
    apply in_or_app. now left. }
  split; [now apply firstn_most_recent_first|].
  split; [|intros H; now elim H].
  intros _ c Hc Hu Hout.
  assert (Hsk : In c (skipn limit s)).
  { assert (Hcs : In c s) by (apply Hin; now split).
    rewrite <- (firstn_skipn limit s) in Hcs.
    apply in_app_or in Hcs. tauto. }
  split.
  - rewrite <- Hlen.
    destruct (Nat.lt_ge_cases limit (length s)) as [Hlt|Hge]; [exact Hlt|].
    rewrite skipn_all2 in Hsk by exact Hge. destruct Hsk.
  - intros r Hr. now apply (sorted_cut limit s r c).
Qed.

(* ------------------------------------------------------------------ *)
(** ** getConversationStats *)

Lemma In_insert_asc x y l : In y (insert_asc x l) <-> y = x \/ In y l.
Proof.
  induction l as [|z l IH]; cbn [insert_asc].
  - cbn. intuition.
  - destruct (x <=? z)%nat; cbn [In]; [intuition|].
    rewrite IH. intuition.
Qed.

Lemma In_order_asc y l : In y (order_asc l) <-> In y l.
Proof.
  induction l as [|x l IH]; [reflexivity|].
  cbn [order_asc fold_right]. fold (order_asc l).
  rewrite In_insert_asc, IH. cbn. intuition.
Qed.

Lemma length_order_asc l : length (order_asc l) = length l.
Proof.
  induction l as [|x l IH]; [reflexivity|].
  cbn [order_asc fold_right]. fold (order_asc l).
  cbn [length]. rewrite <- IH.
  generalize (order_asc l). intros s.
  induction s as [|y s IHs]; [reflexivity|].
  cbn [insert_asc]. destruct (x <=? y)%nat; [reflexivity|].
  cbn [length]. now rewrite IHs.
Qed.

Lemma insert_asc_ascending x l : ascending l -> ascending (insert_asc x l).
Proof.
  induction l as [|z l IH]; intros H; cbn [insert_asc].
  - cbn. split; [constructor|exact I].
  - destruct (x <=? z)%nat eqn:E.
    + apply Nat.leb_le in E. cbn [ascending] in *. destruct H as [Hz Hl].
      split; [|split; assumption].
      constructor; [exact E|].
      eapply Forall_impl; [|exact Hz]. cbn. intros y Hy. lia.
    + apply Nat.leb_gt in E. cbn [ascending] in *. destruct H as [Hz Hl].
      split; [|now apply IH].
      apply Forall_forall. intros y Hy. apply In_insert_asc in Hy.
      destruct Hy as [->|Hy]; [lia|].
      rewrite Forall_forall in Hz. now apply Hz.
Qed.

Lemma order_asc_ascending l : ascending (order_asc l).
Proof.
  induction l as [|x l IH]; [exact I|].
  cbn [order_asc fold_right]. now apply insert_asc_ascending.
Qed.

Lemma ascending_last a l hi :
  ascending (a :: l) ->
  nth_error (a :: l) (length l) = Some hi ->
  Forall (fun t => t <= hi) (a :: l).
Proof.
  revert a. induction l as [|b l IH]; intros a Hs Hn.
  - cbn in Hn. inversion Hn; subst. constructor; [lia|constructor].
  - cbn [length nth_error] in Hn. cbn [ascending] in Hs.
    destruct Hs as [Ha Hs].
    pose proof (IH b Hs Hn) as Hall.
    constructor; [|exact Hall].
    inversion Ha as [|b' l' Hab _]; subst.
    inversion Hall as [|b' l' Hb _]; subst. lia.
Qed.

(** X22: [getConversationStats] never throws and changes nothing.  When
    the store answers, the total is the number of conversations of the
    user, and the first and last are the oldest and the newest of their
    times, both null exactly when the user has none; when the store
    fails the result is that of a user without conversations. *)
Theorem stats_are_count_oldest_and_newest :
  forall f userId d,
    let times :=
      map Conversation.created_at
        (filter (fun c => String.eqb (Conversation.user_id c) userId)
           (conversations d)) in
    exists s,
      eval (getConversationStats f userId) d = (Ok s, d)
      /\ (f <> Healthy -> s = mkStats 0 None None)
      /\ (f = Healthy ->
          totalConversations s = length times
          /\ (times = [] ->
              firstConversation s = None /\ lastConversation s = None)
          /\ (times <> [] ->
              exists oldest newest,
                firstConversation s = Some oldest
                /\ lastConversation s = Some newest
                /\ In oldest times /\ In newest times
                /\ Forall (fun t => oldest <= t /\ t <= newest) times)).
Proof.
  intros f userId d times.
  destruct f as [|e|e].
  2,3: eexists; split; [reflexivity|];
       split; [reflexivity|discriminate].
  exists (mkStats (length (order_asc times))
            (nth_error (order_asc times) 0)
            (match length (order_asc times) with
             | 0 => None
             | S i => nth_error (order_asc times) i
             end)).
  split; [reflexivity|]. split; [intros H; now elim H|].
  intros _. cbn [totalConversations firstConversation lastConversation].
  split; [apply length_order_asc|]. split.
  - intros E. rewrite E. split; reflexivity.
  - intros Hne.
    pose proof (order_asc_ascending times) as Hs.
    pose proof (length_order_asc times) as Hlen.
    pose proof (In_order_asc) as Hin.
    destruct (order_asc times) as [|lo s] eqn:Es.
    + destruct times; [now elim Hne|discriminate].
    + cbn [length nth_error].
      destruct (nth_error (lo :: s) (length s)) as [hi|] eqn:En.
      2: { apply nth_error_None in En. cbn [length] in En. lia. }
      exists lo, hi. split; [reflexivity|]. split; [reflexivity|].
      assert (Hlo : In lo times) by (apply Hin; rewrite Es; now left).
      assert (Hhi : In hi times).
      { apply Hin. rewrite Es. eapply nth_error_In. exact En. }
      split; [exact Hlo|]. split; [exact Hhi|].
      pose proof (ascending_last lo s hi Hs En) as Hmax.
      cbn [ascending] in Hs. destruct Hs as [Hmin _].
      apply Forall_forall. intros t Ht.
      apply Hin in Ht. rewrite Es in Ht.
      rewrite Forall_forall in Hmax. split; [|now apply Hmax].
      destruct Ht as [->|Ht]; [lia|].
      rewrite Forall_forall in Hmin. now apply Hmin.
Qed.

(* ------------------------------------------------------------------ *)
(** ** pullModel *)

Import OllamaRest.

Lemma run_pull_loop parse_status reads fin st :
  pull_loop parse_status reads fin st
  = (if existsb (fun value => success_line parse_status (split_lf value)) reads
     then Ok true
     else match fin with
          | ReadDone => Ok true
          | ReadThrows e => Thrown e
          end,
     st).
Proof.
  induction reads as [|value reads IH]; cbn [pull_loop existsb].
  - destruct fin; reflexivity.
  - destruct (success_line parse_status (split_lf value)); [reflexivity|].
    exact IH.
Qed.

(** X23: [pullModel] never throws and reports success exactly when the
    backend answered OK with a body and either the stream was read to its
    end or some read held a line with status "success" before it broke.
    So a pull whose stream ends is reported as a success whatever its
    lines said. *)
Theorem pullModel_succeeds_iff_stream_ends_or_says_success :
  forall api_pull parse_status modelName st,
    exists pulled,
      pullModel api_pull parse_status modelName st = (Ok pulled, st)
      /\ (pulled = true
          <-> exists status_line reads fin,
                api_pull modelName
                = PullResponse true status_line (Some (reads, fin))
                /\ (fin = ReadDone
                    \/ exists value,
                         In value reads
                         /\ success_line parse_status (split_lf value)
                            = true)).
Proof.
  intros api_pull parse_status modelName st.
  unfold pullModel, try_catch.
  destruct (api_pull modelName) as [e|[|] sl [[reads fin]|]] eqn:Ea;
    cbn [negb].
  2: { rewrite run_pull_loop.
       destruct (existsb
                   (fun value => success_line parse_status (split_lf value))
                   reads) eqn:Ex.
       - exists true. split; [reflexivity|]. split; [|reflexivity].
         intros _. exists sl, reads, fin. split; [reflexivity|]. right.
         apply existsb_exists in Ex. exact Ex.
       - destruct fin as [|e].
         + exists true. split; [reflexivity|]. split; [|reflexivity].
           intros _. exists sl, reads, ReadDone. split; [reflexivity|].
           now left.
         + exists false. split; [reflexivity|]. split; [discriminate|].
           intros (sl' & reads' & fin' & E & H). inversion E; subst.
           destruct H as [H|(value & Hin & Hs)]; [discriminate|].
           assert (Ht : existsb
                          (fun value =>
                             success_line parse_status (split_lf value))
                          reads' = true)
             by (apply existsb_exists; now exists value).
           congruence. }
  all: exists false; split; [reflexivity|]; split; [discriminate|];
    intros (sl' & reads' & fin' & E & _); discriminate.
Qed.

(* ------------------------------------------------------------------ *)
(** ** GET /health *)

Import ServerRest.

(** X24: GET /health answers 200 with status "healthy" whenever the call
    to the store does not reject, also when Ollama is down and the store
    replied with an error: the state of the services is only in the
    three flags.  It answers 500 "unhealthy" only when that call
    rejects. *)
Theorem health_is_healthy_unless_the_store_call_rejects :
  forall W f st,
    (forall e, f <> CallThrows e) ->
    exists timestamp st',
      get_health W f st
      = (Ok (200,
             HealthBody "healthy" timestamp
               (reachable W)
               (match f with Healthy => true | _ => false end)
               (model_listed W)
               (status_value W)),
         st').
Proof.
  intros W f st Hf.
  unfold get_health, try_catch, bind.
  rewrite run_checkOllamaStatus.
  rewrite status_isRunning, status_modelAvailable.
  destruct f as [|e|e]; [| |now elim (Hf e)];
    eexists; eexists; reflexivity.
Qed.

Lemma health_is_healthy_unless_the_store_call_rejects_witness :
  exists timestamp st',
    get_health world_down (ReplyError "connection refused")
      (mkSt empty_db [])
    = (Ok (200,
           HealthBody "healthy" timestamp false false false
             (status_value world_down)),
       st').
Proof.
  exact (health_is_healthy_unless_the_store_call_rejects world_down
           (ReplyError "connection refused") (mkSt empty_db [])
           ltac:(intros e; discriminate)).
Defined.

(* ------------------------------------------------------------------ *)
(** ** The chat client *)

Import Cli.

Lemma trim_trim (s : string) : trim (trim s) = trim s.
Proof.
  destruct (trim_spec s) as (l & r & _ & _ & _ & Hs & He).
  unfold trim at 1. rewrite (trimStart_fixed _ Hs).
  now apply trimEnd_fixed.
Qed.

Lemma cli_request_outcomes W input d :
  let r := run (post_chat W (mkChat (Some input) (Some USER_ID) (Some false)))
             d in
  (snd r = d /\ In (status_code (fst r)) [400; 500; 503])
  \/ (truthy input = true /\ reachable W = true /\ model_listed W = true
      /\ exists status_line answer,
           api_generate W (assembled_prompt W d USER_ID input)
           = GenResponse true status_line (Ok answer)
           /\ r = ((chat_prefix USER_ID
                    ++ [FetchGenerate (assembled_prompt W d USER_ID input)
                          false;
                        InsertConversation USER_ID input (trim answer);
                        ResJson
                          (ChatBody (trim answer) "generated-id"
                             (clock (appended W d USER_ID input
                                       (trim answer))))])%list,
                   tick (appended W d USER_ID input (trim answer)))).
Proof.
  cbv zeta.
  destruct (chat_paths W (mkChat (Some input) (Some USER_ID) (Some false)) d)
    as [E|[(t & E)|(u & m & Eu & Em & Hu & Hm & Hup & Hmodel & H)]].
  - left. rewrite E. split; [reflexivity|]. left. reflexivity.
  - left. rewrite E. split; [reflexivity|]. right. right. left. reflexivity.
  - cbn [req_userId req_message req_stream wants_stream] in *.
    inversion Eu; subst u. inversion Em; subst m. cbv zeta in H.
    destruct H as [(Hw & _)|[(Hw & _)|[(_ & sl & r & Hg & E)
                                      |(_ & _ & e & E)]]];
      try discriminate.
    + right. repeat (split; [assumption|]). exists sl, r. now split.
    + left. rewrite E. split; [reflexivity|]. right. left. reflexivity.
Qed.

(** X25: one turn of the chat client in server mode.  A line whose
    trimmed lower-case form is "exit" ends the client: nothing is sent
    and nothing changes.  For any other line the turn prints a reply and
    never an error: with a ready backend that answers the prompt of a
    non-empty line, the answer without its leading and trailing white
    space, the text persisted for user "cli-user"; in every other case,
    an empty line included, that it has trouble connecting to the server,
    the database being as it was. *)
Theorem client_prints_the_answer_or_an_apology :
  forall server W0 input d,
    let r := eval (main_turn server W0 input) d in
    let apology := "Sorry, I'm having trouble connecting to the server." in
    (toLowerCase (trim input) = "exit" ->
     forall st, main_turn server W0 input st = (Ok Exited, st))
    /\ (toLowerCase (trim input) <> "exit" ->
        (server = None -> r = (Ok (Printed apology), d))
        /\ (forall W,
              server = Some W ->
              (r = (Ok (Printed apology), d)
               /\ status_code
                    (fst (run (post_chat W
                                 (mkChat (Some input) (Some USER_ID)
                                    (Some false))) d)) <> 200)
              \/ (exists status_line answer,
                    truthy input = true
                    /\ api_generate W (assembled_prompt W d USER_ID input)
                       = GenResponse true status_line (Ok answer)
                    /\ r = (Ok (Printed (trim answer)),
                            tick (appended W d USER_ID input
                                    (trim answer))))))
    /\ (input = "" -> fst r = Ok (Printed apology)).
Proof.
  intros server W0 input d r apology. subst r apology.
  assert (Hnone : toLowerCase (trim input) <> "exit" ->
                  eval (main_turn None W0 input) d
                  = (Ok (Printed
                           "Sorry, I'm having trouble connecting to the server."),
                     d)).
  { intros Hne. apply String.eqb_neq in Hne.
    unfold eval, main_turn. rewrite Hne. reflexivity. }
  assert (Hsome : forall W,
    toLowerCase (trim input) <> "exit" ->
    (eval (main_turn (Some W) W0 input) d
     = (Ok (Printed "Sorry, I'm having trouble connecting to the server."),
        d)
     /\ status_code
          (fst (run (post_chat W
                       (mkChat (Some input) (Some USER_ID) (Some false))) d))
        <> 200)
    \/ (exists status_line answer,
          truthy input = true
          /\ api_generate W (assembled_prompt W d USER_ID input)
             = GenResponse true status_line (Ok answer)
          /\ eval (main_turn (Some W) W0 input) d
             = (Ok (Printed (trim answer)),
                tick (appended W d USER_ID input (trim answer))))).
  { intros W Hne. apply String.eqb_neq in Hne.
    destruct (cli_request_outcomes W input d)
      as [[Hd Hs]|(Ht & _ & _ & sl & answer & Hg & E)].
    - left.
      unfold eval, main_turn, USE_SERVER, chatWithServer, fetch_chat,
        try_catch, bind.
      rewrite Hne. cbn [db trace app fst snd]. rewrite Hd.
      destruct Hs as [Hs|[Hs|[Hs|[]]]]; rewrite <- Hs;
        cbn; (split; [reflexivity|discriminate]).
    - right. exists sl, answer. split; [exact Ht|]. split; [exact Hg|].
      unfold eval, main_turn, USE_SERVER, chatWithServer, fetch_chat,
        try_catch, bind.
      rewrite Hne. cbn [db trace app fst snd]. rewrite E. cbn [fst snd].
      assert (Hc : status_code
                     (chat_prefix USER_ID
                      ++ [FetchGenerate (assembled_prompt W d USER_ID input)
                            false;
                          InsertConversation USER_ID input (trim answer);
                          ResJson
                            (ChatBody (trim answer) "generated-id"
                               (clock (appended W d USER_ID input
                                         (trim answer))))])%list = 200)
        by reflexivity.
      assert (Hb : json_body
                     (chat_prefix USER_ID
                      ++ [FetchGenerate (assembled_prompt W d USER_ID input)
                            false;
                          InsertConversation USER_ID input (trim answer);
                          ResJson
                            (ChatBody (trim answer) "generated-id"
                               (clock (appended W d USER_ID input
                                         (trim answer))))])%list
                   = Some (ChatBody (trim answer) "generated-id"
                             (clock (appended W d USER_ID input
                                       (trim answer)))))
        by reflexivity.
      rewrite Hc, Hb. cbn [response_ok Nat.leb andb negb ret fst snd db].
      now rewrite trim_trim. }
  split; [|split].
  - intros Hexit st. unfold main_turn. rewrite Hexit. reflexivity.
  - intros Hne. split; [intros ->; now apply Hnone|].
    intros W ->. now apply Hsome.
  - intros ->.
    assert (Hne : toLowerCase (trim "") <> "exit") by discriminate.
    destruct server as [W|]; [|now rewrite (Hnone Hne)].
    destruct (Hsome W Hne) as [[E _]|(sl & answer & Ht & _)];
      [now rewrite E|discriminate].
Qed.

(** X26: the offline path of the client never throws, sends the line as
    it is to the backend as the whole prompt, without persona or memory,
    and touches no table; it returns the trimmed answer, or, on any
    failure of the backend, that it has trouble connecting to Ollama. *)
Theorem chatDirect_sends_the_bare_line :
  forall W message st,
    exists reply,
      chatDirect W message st
      = (Ok reply, mkSt (db st) (trace st ++ [FetchGenerate message false]))
      /\ (forall status_line answer,
            api_generate W message = GenResponse true status_line (Ok answer)
            -> reply = trim answer)
      /\ ((forall status_line answer,
             api_generate W message
             <> GenResponse true status_line (Ok answer))
          -> reply = "Sorry, I'm having trouble connecting to Ollama.").
Proof.
  intros W message st.
  unfold chatDirect, ollamaRequest, try_catch, bind.
  rewrite run_emit. unfold log.
  destruct (api_generate W message) as [e|[|] sl [r|e]] eqn:E; cbn [negb].
  2: { exists (trim r). split; [reflexivity|]. split.
       - intros sl' a' Ha. now inversion Ha.
       - intros H. now elim (H sl r). }
  all: eexists; (split; [reflexivity|]); split;
    [intros sl' a' Ha; discriminate|reflexivity].
Qed.

Example pull_with_an_error_line_reports_success :
  pullModel pull_with_error_line toy_status "hue" (mkSt empty_db [])
  = (Ok true, mkSt empty_db []).
Proof. reflexivity. Qed.

Example empty_line_gets_the_apology :
  eval (main_turn (Some world_ok) world_ok "") db_color
  = (Ok (Printed "Sorry, I'm having trouble connecting to the server."),
     db_color).
Proof. reflexivity. Qed.

Example exit_line_ends_the_client :
  eval (main_turn (Some world_ok) world_ok ("  EXIT " ++ nl)) db_color
  = (Ok Exited, db_color)
  /\ eval (main_turn (Some world_ok) world_ok "exit now") db_color
     <> (Ok Exited, db_color).
Proof. split; [reflexivity|discriminate]. Qed.

Example trim_removes_no_break_space :
  trim (nbsp ++ "Blue" ++ nbsp) = "Blue"
  /\ formatResponse (nbsp ++ "Blue") true = "Blue"
  /\ starts_white (nbsp ++ "Blue") = true.
Proof. repeat split. Qed.

Example stats_of_a_user_without_conversations :
  eval (getConversationStats Healthy "u1") db_color
  = (Ok (mkStats 0 None None), db_color).
Proof. reflexivity. Qed.

(* ------------------------------------------------------------------ *)
(** ** The endpoints that wrap one function *)

Lemma run_recallMemory f userId key st :
  exists value, recallMemory f userId key st = (Ok value, st).
Proof.
  unfold recallMemory, select_memory_value, try_catch, bind.
  destruct f; try (eexists; reflexivity).
  unfold get_db, ret, single.
  destruct (map Memory.value
              (filter (same_user_key userId key) (memories (db st))))
    as [|v [|v' l]]; eexists; reflexivity.
Qed.

Lemma run_deleteMemory f userId key st :
  exists success st',
    deleteMemory f userId key st = (Ok success, st')
    /\ (success = true <-> f = Healthy).
Proof.
  destruct f; eexists; eexists; (split; [reflexivity|]);
    split; try reflexivity; discriminate.
Qed.

Lemma run_getConversationStats f userId st :
  exists stats, getConversationStats f userId st = (Ok stats, st).
Proof. destruct f; eexists; reflexivity. Qed.

Lemma run_pullModel api_pull parse_status modelName st :
  exists pulled, pullModel api_pull parse_status modelName st = (Ok pulled, st).
Proof.
  unfold pullModel, try_catch.
  destruct (api_pull modelName) as [e|[|] sl [[reads fin]|]]; cbn [negb];
    try (eexists; reflexivity).
  rewrite run_pull_loop.
  destruct (existsb (fun value => success_line parse_status (split_lf value))
              reads); [eexists; reflexivity|].
  destruct fin; eexists; reflexivity.
Qed.

(** X27: the endpoints that wrap one function never answer 500, because
    the function they call never throws: GET and DELETE
    /memories/:userId/:key, GET /conversations/:userId/stats,
    GET /ollama/status and POST /ollama/pull answer 200 with what the
    function returned, so a failure of the store or of the backend shows
    as a null value, [success: false], empty stats or
    [isRunning: false] in a 200 answer. *)
Theorem wrapping_endpoints_never_answer_500 :
  forall W f userId key api_pull parse_status model st,
    (exists value, get_memory f userId key st
                   = (Ok (200, ValueBody key value), st)
                   /\ (f <> Healthy -> value = None))
    /\ (exists success st',
          delete_memory_key f userId key st
          = (Ok (200, SuccessBody success), st')
          /\ (success = true <-> f = Healthy))
    /\ (exists stats, get_stats f userId st = (Ok (200, StatsBody stats), st)
                      /\ (f <> Healthy -> stats = mkStats 0 None None))
    /\ (exists status,
          get_ollama_status W st
          = (Ok (200, StatusBody status), log st [FetchTags])
          /\ (reachable W = false ->
              isRunning status = false /\ modelAvailable status = false
              /\ status_error status <> None))
    /\ (exists success,
          post_ollama_pull W api_pull parse_status model st
          = (Ok (200, SuccessBody success), st)).
Proof.
  intros W f userId key api_pull parse_status model st.
  split; [|split; [|split; [|split]]].
  - unfold get_memory, try_catch, bind.
    destruct (run_recallMemory f userId key st) as (value & E).
    exists value. rewrite E. split; [reflexivity|].
    intros Hf. revert E.
    unfold recallMemory, select_memory_value, try_catch, bind.
    destruct f; [now elim Hf| |]; intros E; now inversion E.
  - unfold delete_memory_key, try_catch, bind.
    destruct (run_deleteMemory f userId key st) as (success & st' & E & H).
    exists success, st'. rewrite E. now split.
  - unfold get_stats, try_catch, bind.
    destruct (run_getConversationStats f userId st) as (stats & E).
    exists stats. rewrite E. split; [reflexivity|].
    intros Hf. revert E.
    destruct f; [now elim Hf| |]; intros E; now inversion E.
  - unfold get_ollama_status, try_catch, bind.
    rewrite run_checkOllamaStatus.
    exists (status_value W). split; [reflexivity|].
    intros Hdown.
    rewrite status_isRunning, status_modelAvailable, Hdown.
    split; [reflexivity|].
    unfold model_listed, status_value, checkOllamaStatus, bind.
    rewrite run_emit. unfold reachable in Hdown.
    destruct (api_tags W) as [e|[|] sl [names|e]];
      try discriminate; cbn; (split; [reflexivity|discriminate]).
  - unfold post_ollama_pull, try_catch, bind.
    destruct (run_pullModel api_pull parse_status
                (match model with
                 | Some modelName => modelName
                 | None => OLLAMA_MODEL W
                 end) st) as (pulled & E).
    exists pulled. now rewrite E.
Qed.
